(** * vscode-verilog-vga: the simulator panel and the Verilator driver

    A shallow embedding of [VGASimulatorPanel] (the webview panel that
    compiles, binds and renders a design) and of [compileVerilator]
    (src/verilator/compile.ts), followed by a model of the simulation
    kernel operations the panel drives, the command of src/extension.ts
    that opens the panel, and the script of the page the panel shows.

    JavaScript runs every callback to completion; an [async] function is
    cut at each [await] into run-to-completion segments.  The panel is
    therefore a transition system whose steps are those segments, the
    webview messages, the [setImmediate] callbacks and the panel's
    disposal. *)

From Stdlib Require Import ZArith List Bool Lia.
From stdpp Require Import base option list strings pretty gmap.

Local Open Scope Z_scope.
Local Open Scope string_scope.
Local Open Scope list_scope.

(** ** JavaScript values that cross the modelled code *)

(** What a [throw] carries: an [Error] instance (with its [name] and
    [message]), or any other value, kept as the text [String(e)] yields. *)
Inductive JsThrown : Type :=
  | JsError (name message : string)
  | JsValue (text : string).

(** [String(e)], also what ['...' + e] appends.  For an [Error] this is
    [Error.prototype.toString]. *)
Definition String_ (e : JsThrown) : string :=
  match e with
  | JsError name message =>
      if decide (message = "") then name
      else if decide (name = "") then message
      else name +:+ ": " +:+ message
  | JsValue text => text
  end.

(** [e instanceof Error ? e.message : String(e)] *)
Definition messageOf (e : JsThrown) : string :=
  match e with
  | JsError _ message => message
  | JsValue _ => String_ e
  end.

(** The completion of a call: it returns, or it throws. *)
Inductive Outcome (A : Type) : Type :=
  | Normal (a : A)
  | Throw (e : JsThrown).
Arguments Normal {A} a.
Arguments Throw {A} e.

(** A template-literal hole holding a [number | undefined]. *)
Definition showCode (code : option Z) : string :=
  match code with
  | Some n => pretty n
  | None => "undefined"
  end.

Definition newline : string := String (Ascii.ascii_of_nat 10) EmptyString.

(** [a || b] on two possibly-undefined objects. *)
Definition orElse {A} (a b : option A) : option A :=
  match a with
  | Some x => Some x
  | None => b
  end.

(** ** src/verilator/compile.ts *)

Module Verilator.

(** The [type] field of a diagnostic. *)
Inductive ErrorType : Type := error | warning.

Global Instance ErrorType_eq_dec : EqDecision ErrorType.
Proof. solve_decision. Defined.

(** One entry of [errorParser.errors]. *)
Record ErrorEntry : Type := {
  type : ErrorType;
  file : string;
  line : Z;
  column : Z;
  message : string;
}.

(** No diagnostic of kind [error]. *)
Definition noErrors (errs : list ErrorEntry) : Prop :=
  Forall (fun d => type d <> error) errs.

(** [process.exit] as the compiler finds it: the host's own function, or
    the panel's replacement that throws. *)
Inductive ExitFn : Type := hostExit | throwingExit.

(** The panel's replacement:
    [throw new Error(`Verilator process.exit(${code})`)]. *)
Definition exitError (code : option Z) : JsThrown :=
  JsError "Error" ("Verilator process.exit(" +:+ showCode code +:+ ")").

(** How one run of the compiler's [main] ends. *)
Inductive MainEnd : Type :=
  | MainReturns
  | MainThrows (e : JsThrown)
  | MainExits (code : option Z).

(** One run of [verilatorInst.callMain(args)] as the driver sees it: the
    lines it printed on stderr, how it ended, and what
    [FS.readFile(xmlPath)] finds afterwards. *)
Record MainRun : Type := {
  stderr : list string;
  ending : MainEnd;
  xmlFile : Outcome string;
}.

(** The external tool chain of one compilation. Every field is the
    behaviour of code outside the repository. *)
Record Toolchain : Type := {
  (** [readFileSync(... 'verilator_bin.wasm')] or [verilator_bin(...)] throws *)
  loadFault : option JsThrown;
  (** [await verilatorInst.ready] rejects *)
  readyFault : option JsThrown;
  (** [FS.mkdir] or [FS.writeFile] throws *)
  fsFault : option JsThrown;
  (** [callMain], given the arguments and the files written under src/ *)
  callMain : list string -> list (string * string) -> MainRun;
}.

Record ICompileOptions : Type := {
  topModule : string;
  sources : list (string * string);
}.

(** What the promise of [compileVerilator] resolves to. *)
Record CompileResult (X : Type) : Type := {
  errors : list ErrorEntry;
  output : option X;
}.
Arguments errors {X} _.
Arguments output {X} _.

(** How an awaited call ends: its promise settles, or the host process is
    gone. *)
Inductive Completion (A : Type) : Type :=
  | Settled (r : Outcome A)
  | HostTerminated (code : option Z).
Arguments Settled {A} r.
Arguments HostTerminated {A} code.

Section Driver.

(** [ErrorParser] and [VerilogXMLParser] are imported, not defined here:
    the diagnostics the fed lines leave in [errorParser.errors], and
    [xmlParser.parse]. *)
Context {X : Type}.
Variable feedLines : list string -> list ErrorEntry.
Variable parse : string -> Outcome X.

Definition crashEntry (prefix : string) (e : JsThrown) : ErrorEntry :=
  {| type := error; file := ""; line := 1; column := 1;
     message := prefix +:+ String_ e |}.

(** The files written and the names pushed on [sourceList]. *)
Definition writeSources (opts : ICompileOptions) : list (string * string) :=
  map (fun '(name, source) => ("src/" +:+ name, source)) (sources opts).

Definition sourceList (opts : ICompileOptions) : list string :=
  map fst (writeSources opts).

Definition xmlPath (opts : ICompileOptions) : string :=
  "obj_dir/V" +:+ topModule opts +:+ ".xml".

Definition args (opts : ICompileOptions) : list string :=
  ["--cc"; "-O3"; "-Wall"; "-Wno-EOFNEWLINE"; "-Wno-DECLFILENAME";
   "--x-assign"; "fast"; "--debug-check"; "-Isrc/"; "--top-module";
   topModule opts] ++ sourceList opts.

(** Lines 15-36: up to [await verilatorInst.ready].  [None]: suspended on
    the promise; [Some e]: the async function already rejected. *)
Definition compileVerilator_start (tc : Toolchain) : option JsThrown :=
  loadFault tc.

(** Lines 62-72: [callMain] inside its [try], with [process.exit] as it
    is at that moment.  The result is [errorParser.errors] afterwards. *)
Definition runMain (exit : ExitFn) (run : MainRun) : Completion (list ErrorEntry) :=
  let fed := feedLines (stderr run) in
  match ending run with
  | MainReturns => Settled (Normal fed)
  | MainThrows e => Settled (Normal (fed ++ [crashEntry "Compilation failed: " e]))
  | MainExits code =>
      match exit with
      | throwingExit =>
          Settled (Normal (fed ++ [crashEntry "Compilation failed: " (exitError code)]))
      | hostExit => HostTerminated code
      end
  end.

(** Lines 74-101. *)
Definition finish (errs : list ErrorEntry) (run : MainRun) : CompileResult X :=
  if negb (length (filter (fun e => type e = error) errs) =? 0)%nat
  then {| errors := errs; output := None |}
  else
    match xmlFile run with
    | Throw e => {| errors := errs ++ [crashEntry "XML parsing failed: " e]; output := None |}
    | Normal xmlContent =>
        match parse xmlContent with
        | Throw e => {| errors := errs ++ [crashEntry "XML parsing failed: " e]; output := None |}
        | Normal xmlParser => {| errors := errs; output := Some xmlParser |}
        end
    end.

(** Lines 36-101: the rest of [compileVerilator] once [ready] settles. *)
Definition compileVerilator_resume (exit : ExitFn) (tc : Toolchain)
    (opts : ICompileOptions) : Completion (CompileResult X) :=
  match readyFault tc with
  | Some e => Settled (Throw e)
  | None =>
      match fsFault tc with
      | Some e => Settled (Throw e)
      | None =>
          let run := callMain tc (args opts) (writeSources opts) in
          match runMain exit run with
          | HostTerminated code => HostTerminated code
          | Settled (Throw e) => Settled (Throw e)
          | Settled (Normal errs) => Settled (Normal (finish errs run))
          end
      end
  end.

(** The whole call, awaited with nothing in between. *)
Definition compileVerilator (exit : ExitFn) (tc : Toolchain)
    (opts : ICompileOptions) : Completion (CompileResult X) :=
  match compileVerilator_start tc with
  | Some e => Settled (Throw e)
  | None => compileVerilator_resume exit tc opts
  end.

End Driver.

End Verilator.

(** ** The simulation kernel, as the panel sees it

    [./sim/hdltypes], [./sim/hdlwasm], [./sim/vga], [./sim/vxmlparser],
    [./verilog] and [ErrorParser] are imported by the panel and by
    [compileVerilator]; the panel's code is verified against any
    implementation of them.  A kernel operation takes the module object
    and may mutate it before it returns or throws; [detectTopModule] and
    [dispose()] are taken to return. *)

Record SyncPolarity : Type := {
  hsyncActiveLow : bool;
  vsyncActiveLow : bool;
}.

Global Instance SyncPolarity_eq_dec : EqDecision SyncPolarity.
Proof. solve_decision. Defined.

Class Kernel : Type := {
  HDLModuleDef : Type;
  (** the state of one [HDLModuleWASM] object *)
  HDLModuleWASM : Type;
  VGA_WIDTH : nat;
  VGA_HEIGHT : nat;
  detectTopModule : list (string * string) -> string;
  feedLines : list string -> list Verilator.ErrorEntry;
  parse : string -> Outcome (gmap string HDLModuleDef);
  (** [new HDLModuleWASM(moddef, constpool)]; either argument may be
      [undefined] *)
  construct : option HDLModuleDef -> option HDLModuleDef -> Outcome HDLModuleWASM;
  (** [mod.init()], taken at the moment its promise settles *)
  init : HDLModuleWASM -> HDLModuleWASM * option JsThrown;
  (** [mod.dispose()] *)
  dispose : HDLModuleWASM -> HDLModuleWASM;
  resetModule : HDLModuleWASM -> HDLModuleWASM * option JsThrown;
  detectSyncPolarity : HDLModuleWASM -> HDLModuleWASM * Outcome SyncPolarity;
  skipToFrameBoundary : HDLModuleWASM -> SyncPolarity -> HDLModuleWASM * option JsThrown;
  (** [renderVGAFrame(mod, pixels, { polarity })] on a zeroed buffer of the
      given length: the stores [pixels[i] = v] it performs, in order, and
      how it ends *)
  renderVGAFrame : HDLModuleWASM -> nat -> SyncPolarity ->
                   HDLModuleWASM * list (Z * Z) * option JsThrown;
  (** what a kernel function throws when it is handed [null] *)
  nullFault : JsThrown;
}.

(** ** Typed arrays *)

(** [new Uint8Array(n)] *)
Definition Uint8Array (n : nat) : list Z := replicate n 0.

(** [pixels[i] = v]: a store outside the array is dropped, the value is
    reduced modulo 256. *)
Definition store (pixels : list Z) (w : Z * Z) : list Z :=
  if decide (0 <= w.1) then <[Z.to_nat w.1 := w.2 mod 256]> pixels else pixels.

Definition stores (pixels : list Z) (ws : list (Z * Z)) : list Z :=
  foldl store pixels ws.

(** ** The panel *)

(** What [panel.webview.postMessage] is given.  [pixels] of a frame is
    the byte content the message carries as base64 text. *)
Inductive Message : Type :=
  | status (text : string)
  | error (text : string)
  | frame (width height : nat) (pixels : list Z).

Inductive Op : Type :=
  | OpInit
  | OpReset
  | OpDetect
  | OpSkip (polarity : SyncPolarity)
  | OpRender (polarity : SyncPolarity) (len : nat).

Section PanelModel.
Context {K : Kernel}.

(** What the panel does to the world outside it, in order of
    occurrence. *)
Inductive Event : Type :=
  | Posted (m : Message)
  | Warned (text : string)
  (** [new HDLModuleWASM(top, constpool)] is entered ... *)
  | New (top constpool : option HDLModuleDef)
  (** ... and yields the object [id] *)
  | Constructed (id : nat)
  | Disposed (id : nat)
  (** a kernel operation is entered with [this.mod] as its module *)
  | Call (op : Op) (target : option nat)
  | Return (op : Op)
  | Raise (op : Op) (e : JsThrown)
  (** [detectSyncPolarity] returned this value *)
  | Detected (p : SyncPolarity)
  | SetImmediate
  | PanelDispose
  (** an exception left a message handler *)
  | Uncaught (e : JsThrown)
  (** the host's own [process.exit] ran *)
  | Exited (code : option Z).

Record World : Type := {
  (** [this.mod] ([mod] is taken by arithmetic): a reference into [heap] *)
  mod_ : option nat;
  running : bool;
  syncPolarity : SyncPolarity;
  (** every [HDLModuleWASM] object constructed so far, by identity *)
  heap : list HDLModuleWASM;
  (** the global [process.exit] *)
  process_exit : Verilator.ExitFn;
  (** [renderLoop] callbacks queued by [setImmediate] *)
  immediates : nat;
  (** the events so far, newest first *)
  log : list Event;
  hostGone : bool;
}.

Definition set_mod_ (v : option nat) (w : World) : World :=
  {| mod_ := v; running := running w; syncPolarity := syncPolarity w;
     heap := heap w; process_exit := process_exit w;
     immediates := immediates w; log := log w; hostGone := hostGone w |}.
Definition set_running (v : bool) (w : World) : World :=
  {| mod_ := mod_ w; running := v; syncPolarity := syncPolarity w;
     heap := heap w; process_exit := process_exit w;
     immediates := immediates w; log := log w; hostGone := hostGone w |}.
Definition set_syncPolarity (v : SyncPolarity) (w : World) : World :=
  {| mod_ := mod_ w; running := running w; syncPolarity := v;
     heap := heap w; process_exit := process_exit w;
     immediates := immediates w; log := log w; hostGone := hostGone w |}.
Definition set_heap (v : list HDLModuleWASM) (w : World) : World :=
  {| mod_ := mod_ w; running := running w; syncPolarity := syncPolarity w;
     heap := v; process_exit := process_exit w;
     immediates := immediates w; log := log w; hostGone := hostGone w |}.
Definition set_process_exit (v : Verilator.ExitFn) (w : World) : World :=
  {| mod_ := mod_ w; running := running w; syncPolarity := syncPolarity w;
     heap := heap w; process_exit := v;
     immediates := immediates w; log := log w; hostGone := hostGone w |}.
Definition set_immediates (v : nat) (w : World) : World :=
  {| mod_ := mod_ w; running := running w; syncPolarity := syncPolarity w;
     heap := heap w; process_exit := process_exit w;
     immediates := v; log := log w; hostGone := hostGone w |}.
Definition set_log (v : list Event) (w : World) : World :=
  {| mod_ := mod_ w; running := running w; syncPolarity := syncPolarity w;
     heap := heap w; process_exit := process_exit w;
     immediates := immediates w; log := v; hostGone := hostGone w |}.
Definition set_hostGone (v : bool) (w : World) : World :=
  {| mod_ := mod_ w; running := running w; syncPolarity := syncPolarity w;
     heap := heap w; process_exit := process_exit w;
     immediates := immediates w; log := log w; hostGone := v |}.

(** The panel as its constructor leaves it (lines 24-26), in a host whose
    [process.exit] is its own. *)
Definition fresh : World :=
  {| mod_ := None; running := false;
     syncPolarity := {| hsyncActiveLow := false; vsyncActiveLow := false |};
     heap := []; process_exit := Verilator.hostExit;
     immediates := 0%nat; log := []; hostGone := false |}.

(** *** Synchronous code: state and exceptions *)

Definition Js (A : Type) : Type := World -> World * Outcome A.

Definition ret {A} (a : A) : Js A := fun w => (w, Normal a).
Definition throw {A} (e : JsThrown) : Js A := fun w => (w, Throw e).
Definition bind {A B} (m : Js A) (k : A -> Js B) : Js B :=
  fun w => match m w with
           | (w', Normal a) => k a w'
           | (w', Throw e) => (w', Throw e)
           end.
(** [try { m } catch (e) { h e }] *)
Definition tryCatch {A} (m : Js A) (h : JsThrown -> Js A) : Js A :=
  fun w => match m w with
           | (w', Normal a) => (w', Normal a)
           | (w', Throw e) => h e w'
           end.
Definition read {A} (f : World -> A) : Js A := fun w => (w, Normal (f w)).
Definition write (f : World -> World) : Js unit := fun w => (f w, Normal tt).

Global Instance Js_ret : MRet Js := @ret.
Global Instance Js_bind : MBind Js := fun A B k m => bind m k.

End PanelModel.

Section PanelCode.
Context {K : Kernel}.

Definition emit (e : Event) : Js unit :=
  write (fun w => set_log (e :: log w) w).

(** [this.panel.webview.postMessage(m)]; the call is taken to return, and
    the panel ignores the promise it returns. *)
Definition postMessage (m : Message) : Js unit := emit (Posted m).

Definition asOutcome (o : option JsThrown) : Outcome unit :=
  match o with
  | None => Normal tt
  | Some e => Throw e
  end.

(** A kernel operation applied to the object a reference denotes.  Handed
    [null], the operation throws [nullFault]. *)
Definition onModule {A} (op : Op) (target : option nat)
    (f : HDLModuleWASM -> HDLModuleWASM * Outcome A) : Js A :=
  emit (Call op target);;
  h ← read heap;
  match target with
  | None => emit (Raise op nullFault);; throw nullFault
  | Some id =>
      match h !! id with
      | None => emit (Raise op nullFault);; throw nullFault
      | Some m =>
          let '(m', o) := f m in
          write (set_heap (<[id := m']> h));;
          match o with
          | Normal a => emit (Return op);; ret a
          | Throw e => emit (Raise op e);; throw e
          end
      end
  end.

(** [resetModule(this.mod)] *)
Definition call_resetModule : Js unit :=
  m ← read mod_;
  onModule OpReset m (fun x => let '(x', o) := resetModule x in (x', asOutcome o)).

(** [this.syncPolarity = detectSyncPolarity(this.mod)] *)
Definition call_detectSyncPolarity : Js unit :=
  m ← read mod_;
  p ← onModule OpDetect m detectSyncPolarity;
  emit (Detected p);;
  write (set_syncPolarity p).

(** [skipToFrameBoundary(this.mod, this.syncPolarity)] *)
Definition call_skipToFrameBoundary : Js unit :=
  m ← read mod_;
  p ← read syncPolarity;
  onModule (OpSkip p) m
    (fun x => let '(x', o) := skipToFrameBoundary x p in (x', asOutcome o)).

(** Lines 141-144, and again lines 65-68: reset, detect, reset, skip. *)
Definition establishPolarity : Js unit :=
  call_resetModule;;
  call_detectSyncPolarity;;
  call_resetModule;;
  call_skipToFrameBoundary.

(** [renderVGAFrame(this.mod, pixels, { polarity: this.syncPolarity })];
    the result is [pixels] as the call leaves it. *)
Definition call_renderVGAFrame (pixels : list Z) : Js (list Z) :=
  m ← read mod_;
  p ← read syncPolarity;
  onModule (OpRender p (length pixels)) m
    (fun x => let '(x', ws, o) := renderVGAFrame x (length pixels) p in
              (x', match o with
                   | None => Normal (stores pixels ws)
                   | Some e => Throw e
                   end)).

(** [this.mod.dispose()] *)
Definition disposeModule (id : nat) : Js unit :=
  emit (Disposed id);;
  h ← read heap;
  write (set_heap (alter dispose id h)).

(** [new HDLModuleWASM(top, constpool)] *)
Definition new_HDLModuleWASM (top constpool : option HDLModuleDef) : Js nat :=
  emit (New top constpool);;
  match construct top constpool with
  | Throw e => throw e
  | Normal m =>
      h ← read heap;
      write (set_heap (h ++ [m]));;
      emit (Constructed (length h));;
      ret (length h)
  end.

(** Lines 155-157. *)
Definition stopSimulation : Js unit := write (set_running false).

(** Lines 159-192. *)
Definition renderLoop : Js unit :=
  r ← read running;
  m ← read mod_;
  if negb r || negb (bool_decide (is_Some m)) then ret tt
  else
    let pixels := Uint8Array (VGA_WIDTH * VGA_HEIGHT * 4) in
    rendered ← tryCatch (px ← call_renderVGAFrame pixels; ret (Some px))
      (fun e =>
         postMessage (error ("Simulation error: " +:+ messageOf e));;
         write (set_running false);;
         ret None);
    match rendered with
    | None => ret tt                                   (* the [return] of the handler *)
    | Some pixels' =>
        postMessage (frame VGA_WIDTH VGA_HEIGHT pixels');;
        r' ← read running;
        if (r' : bool) then
          emit SetImmediate;;
          write (fun w => set_immediates (S (immediates w)) w)
        else ret tt
    end.

(** Lines 147-153. *)
Definition startSimulation : Js unit :=
  m ← read mod_;
  r ← read running;
  if negb (bool_decide (is_Some m)) || r then ret tt
  else
    write (set_running true);;
    renderLoop.

(** Lines 194-211.  The static [currentPanel] and the listeners in
    [disposables] are not part of the state modelled. *)
Definition disposePanel : Js unit :=
  write (set_running false);;
  m ← read mod_;
  match m with
  | Some id => disposeModule id;; write (set_mod_ None)
  | None => ret tt
  end;;
  emit PanelDispose.

(** Lines 57-72: the handler of a webview message. *)
Definition onDidReceiveMessage (command : string) : Js unit :=
  if decide (command = "stop") then stopSimulation
  else if decide (command = "reset") then
    m ← read mod_;
    if bool_decide (is_Some m) then establishPolarity else ret tt
  else ret tt.

(** Lines 131-138 of [initModule], up to its [await]. The result is the
    object whose [init()] is awaited. *)
Definition initModule_start (modules : gmap string HDLModuleDef) : Js nat :=
  m ← read mod_;
  match m with
  | Some id => disposeModule id;; write (set_mod_ None)
  | None => ret tt
  end;;
  let constpool := orElse (modules !! "@CONST-POOL@") (modules !! "__Vconst") in
  id ← new_HDLModuleWASM (modules !! "TOP") constpool;
  write (set_mod_ (Some id));;
  emit (Call OpInit (Some id));;
  ret id.

(** The promise of [mod.init()] settles for the object [id]; on success
    [initModule] goes on with lines 141-144. *)
Definition initModule_resume (id : nat) : Js unit :=
  h ← read heap;
  match h !! id with
  | None => throw nullFault
  | Some m =>
      let '(m', o) := init m in
      write (set_heap (<[id := m']> h));;
      match o with
      | Some e => emit (Raise OpInit e);; throw e
      | None => emit (Return OpInit);; establishPolarity
      end
  end.

End PanelCode.

(** *** [compileSources]: an async function, cut at its awaits *)

Section PanelAsync.
Context {K : Kernel}.
Abbreviation Modules := (gmap string HDLModuleDef).
Abbreviation ExitFn := Verilator.ExitFn.
Abbreviation Toolchain := Verilator.Toolchain.
Abbreviation ICompileOptions := Verilator.ICompileOptions.
Abbreviation CompileResult := Verilator.CompileResult.

(** Where a call of [compileSources] is suspended, with the locals its
    continuation still needs. *)
Inductive Stage : Type :=
  (** inside [compileVerilator], at [await verilatorInst.ready] *)
  | AwaitReady (originalExit : ExitFn) (tc : Toolchain) (opts : ICompileOptions)
  (** at [await compileVerilator(...)], the promise settled *)
  | AwaitCompile (originalExit : ExitFn) (res : Outcome (CompileResult Modules))
  (** inside [initModule], at [await this.mod.init()] called on [id] *)
  | AwaitInit (originalExit : ExitFn) (id : nat)
  (** at [await this.initModule(...)], the promise settled *)
  | AwaitInitModule (originalExit : ExitFn) (res : option JsThrown)
  | Finished.

(** The [catch] and [finally] blocks of lines 120-127. *)
Definition catch_ (e : JsThrown) : Js unit :=
  postMessage (error ("Error: " +:+ messageOf e)).

Definition finally_ (originalExit : ExitFn) : Js unit :=
  write (set_process_exit originalExit).

(** Lines 95-101. *)
Definition errorMessages (errs : list Verilator.ErrorEntry) : string :=
  String.concat newline
    (map (fun e =>
            let loc := if decide (Verilator.file e = "") then ""
                       else Verilator.file e +:+ ":" +:+ pretty (Verilator.line e) +:+ ":"
                            +:+ pretty (Verilator.column e) +:+ ": " in
            loc +:+ Verilator.message e)
         (filter (fun e => Verilator.type e = Verilator.error) errs)).

(** Lines 78-92: from the entry to the first suspension. *)
Definition compileSources_begin (sources : list (string * string))
    (tc : Toolchain) (w : World) : World * Stage :=
  let '(w1, _) := (stopSimulation;; postMessage (status "Compiling...")) w in
  let topModule := detectTopModule sources in
  let originalExit := process_exit w1 in
  let w2 := set_process_exit Verilator.throwingExit w1 in
  match Verilator.compileVerilator_start tc with
  | Some e => (w2, AwaitCompile originalExit (Throw e))
  | None =>
      (w2, AwaitReady originalExit tc
             {| Verilator.topModule := topModule; Verilator.sources := sources |})
  end.

(** [verilatorInst.ready] settles: the rest of [compileVerilator] runs,
    with [process.exit] as it is now. *)
Definition compileVerilator_settle (originalExit : ExitFn) (tc : Toolchain)
    (opts : ICompileOptions) (w : World) : World * Stage :=
  match Verilator.compileVerilator_resume feedLines parse (process_exit w) tc opts with
  | Verilator.HostTerminated code =>
      (set_hostGone true (set_log (Exited code :: log w) w), Finished)
  | Verilator.Settled r => (w, AwaitCompile originalExit r)
  end.

(** Lines 92-117, entered when the promise of [compileVerilator] has
    settled, down to the [await] inside [initModule]. *)
Definition compileSources_afterCompile (originalExit : ExitFn)
    (res : Outcome (CompileResult Modules)) (w : World) : World * Stage :=
  match res with
  | Throw e => (((catch_ e;; finally_ originalExit) w).1, Finished)
  | Normal res =>
      match Verilator.output res with
      | None =>
          (((postMessage (error ("Compilation Error:" +:+ newline
                                  +:+ errorMessages (Verilator.errors res)));;
             finally_ originalExit) w).1, Finished)
      | Some modules =>
          let warnings := filter (fun e => Verilator.type e = Verilator.warning) (Verilator.errors res) in
          let w1 :=
            if bool_decide (0 < length warnings)%nat
            then (emit (Warned ("Verilator: " +:+ pretty (length warnings)
                                  +:+ " warning(s)")) w).1
            else w in
          match initModule_start modules w1 with
          | (w2, Normal id) => (w2, AwaitInit originalExit id)
          | (w2, Throw e) => (w2, AwaitInitModule originalExit (Some e))
          end
      end
  end.

(** The promise of [this.mod.init()] settles. *)
Definition initModule_settle (originalExit : ExitFn) (id : nat)
    (w : World) : World * Stage :=
  match initModule_resume id w with
  | (w', Normal _) => (w', AwaitInitModule originalExit None)
  | (w', Throw e) => (w', AwaitInitModule originalExit (Some e))
  end.

(** Lines 117-127, entered when the promise of [initModule] has settled. *)
Definition compileSources_afterInitModule (originalExit : ExitFn)
    (res : option JsThrown) (w : World) : World * Stage :=
  let body :=
    match res with
    | Some e => throw e
    | None => postMessage (status "Running");; startSimulation
    end in
  (((tryCatch body catch_;; finally_ originalExit) w).1, Finished).

(** *** The event loop *)

Record System : Type := {
  world : World;
  (** every call of [compileSources] made so far, by order of entry *)
  calls : list Stage;
}.

Definition boot : System := {| world := fresh; calls := [] |}.

(** What the host can run next. *)
Inductive Input : Type :=
  (** the command [verilogvga.simulate]: [panel.compileSources(sources)] *)
  | Simulate (sources : list (string * string)) (tc : Toolchain)
  (** [verilatorInst.ready] of call [c] settles *)
  | Ready (c : nat)
  (** call [c] resumes after [await compileVerilator(...)] *)
  | AfterCompile (c : nat)
  (** [this.mod.init()] of call [c] settles *)
  | InitSettled (c : nat)
  (** call [c] resumes after [await this.initModule(...)] *)
  | AfterInitModule (c : nat)
  (** a message from the webview *)
  | Received (command : string)
  (** a callback queued by [setImmediate] *)
  | Immediate
  (** the panel is closed: [onDidDispose] *)
  | DidDispose.

Definition segment (i : Input) (st : Stage) : option (World -> World * Stage) :=
  match i, st with
  | Ready _, AwaitReady o tc opts => Some (compileVerilator_settle o tc opts)
  | AfterCompile _, AwaitCompile o res => Some (compileSources_afterCompile o res)
  | InitSettled _, AwaitInit o id => Some (initModule_settle o id)
  | AfterInitModule _, AwaitInitModule o res => Some (compileSources_afterInitModule o res)
  | _, _ => None
  end.

(** Call [c] takes its next segment if [i] is what it waits for. *)
Definition resume (i : Input) (c : nat) (sys : System) : System :=
  match calls sys !! c ≫= segment i with
  | None => sys
  | Some seg =>
      let '(w', st') := seg (world sys) in
      {| world := w'; calls := <[c := st']> (calls sys) |}
  end.

(** A handler run by the host: an exception that leaves it is the
    host's to report. *)
Definition handler (m : Js unit) (w : World) : World :=
  match m w with
  | (w', Normal _) => w'
  | (w', Throw e) => set_log (Uncaught e :: log w') w'
  end.

Definition onWorld (f : World -> World) (sys : System) : System :=
  {| world := f (world sys); calls := calls sys |}.

Definition step (sys : System) (i : Input) : System :=
  if hostGone (world sys) then sys
  else
    match i with
    | Simulate sources tc =>
        let '(w', st) := compileSources_begin sources tc (world sys) in
        {| world := w'; calls := calls sys ++ [st] |}
    | Ready c | AfterCompile c | InitSettled c | AfterInitModule c =>
        resume i c sys
    | Received command => onWorld (handler (onDidReceiveMessage command)) sys
    | Immediate =>
        match immediates (world sys) with
        | O => sys
        | S n => onWorld (fun w => handler renderLoop (set_immediates n w)) sys
        end
    | DidDispose => onWorld (handler disposePanel) sys
    end.

Definition run (sys : System) (inputs : list Input) : System :=
  fold_left step inputs sys.

(** One call of [compileSources], awaited to its end with nothing else
    scheduled in between. *)
Definition compileSources (sources : list (string * string)) (tc : Toolchain)
    (sys : System) : System :=
  let c := length (calls sys) in
  run sys [Simulate sources tc; Ready c; AfterCompile c; InitSettled c;
           AfterInitModule c].

End PanelAsync.

(** ** The simulation kernel

    [./sim/hdlwasm] and [./sim/vga] are not among the sources; the kernel
    operations below follow the design document of the repository
    (data model, Simulation Instance, Sync Polarity Detector). *)

Module Sim.

Inductive Direction : Type := input | output | internal.

(** One named wire or register. *)
Record Signal : Type := {
  path : string;
  width : N;
  direction : Direction;
}.

(** One hardware module: its ports in order and its signals by path. *)
Record ModuleDef : Type := {
  name : string;
  ports : list string;
  signals : gmap string Signal;
}.

(** The error kinds of the kernel. *)
Inductive Kind : Type :=
  | LoadError
  | BindError
  | ConvergenceError
  | DetectionTimeout
  | RuntimeFault.

Global Instance Kind_eq_dec : EqDecision Kind.
Proof. solve_decision. Defined.

(** A kernel operation yields a value or exactly one error. *)
Inductive Result (A : Type) : Type :=
  | Ok (a : A)
  | Err (kind : Kind).
Arguments Ok {A} a.
Arguments Err {A} kind.

Global Instance Result_ret : MRet Result := @Ok.
Global Instance Result_bind : MBind Result := fun A B k r =>
  match r with
  | Ok a => k a
  | Err kind => Err kind
  end.

(** The compiled executable: one pass of combinational evaluation over
    the value table; [None] is a fault of the executable. *)
Record Executable : Type := {
  evaluate : gmap string Z -> option (gmap string Z);
}.

(** The well-known paths resolved at bind time. *)
Record Bound : Type := {
  clk : string;
  rst : option string;
  hsync : string;
  vsync : string;
}.

(** One running binding of a [ModuleDef] to a compiled executable. *)
Record SimulationInstance : Type := {
  moddef : ModuleDef;
  exe : Executable;
  bound : Bound;
  (** the current signal-value cache *)
  values : gmap string Z;
  settled : bool;
  (** cycles stepped since the last reset *)
  cycle : nat;
}.

Definition with_values (v : gmap string Z) (s : bool) (i : SimulationInstance)
    : SimulationInstance :=
  {| moddef := moddef i; exe := exe i; bound := bound i;
     values := v; settled := s; cycle := cycle i |}.

Definition with_cycle (n : nat) (i : SimulationInstance) : SimulationInstance :=
  {| moddef := moddef i; exe := exe i; bound := bound i;
     values := values i; settled := settled i; cycle := n |}.

(** Modelled from the spec: [getSignal(path)] of the absent
    [HDLModuleWASM]; the value of a declared signal, [0] until it is
    written or computed. *)
Definition getSignal (p : string) (i : SimulationInstance) : Result Z :=
  match signals (moddef i) !! p with
  | None => Err BindError
  | Some _ => Ok (default 0 (values i !! p))
  end.

(** Modelled from the spec: [setSignal(path, value)] of the absent
    [HDLModuleWASM]; the write is masked to the declared width. *)
Definition setSignal (p : string) (v : Z) (i : SimulationInstance)
    : Result SimulationInstance :=
  match signals (moddef i) !! p with
  | None => Err BindError
  | Some s =>
      Ok (with_values (<[p := Z.land v (Z.ones (Z.of_N (width s)))]> (values i))
            false i)
  end.

(** Two instances of one design: the same module, executable and
    well-known paths. *)
Definition sameDesign (i j : SimulationInstance) : Prop :=
  moddef j = moddef i /\ exe j = exe i /\ bound j = bound i.

Section Limits.

(** The iteration cap of [eval], the number of cycles [reset] holds the
    reset input, and the cycle budget of the polarity detector. *)
Variable iterationCap : nat.
Variable resetCycles : nat.
Variable detectBudget : nat.

(** Recompute until no value changes, at most [fuel] times. *)
Fixpoint settle (fuel : nat) (x : Executable) (v : gmap string Z)
    : Result (gmap string Z) :=
  match fuel with
  | O => Err ConvergenceError
  | S fuel' =>
      match evaluate x v with
      | None => Err RuntimeFault
      | Some v' => if decide (v' = v) then Ok v else settle fuel' x v'
      end
  end.

(** The value table after [n] recomputations, if none of them faults. *)
Fixpoint recompute (n : nat) (x : Executable) (v : gmap string Z)
    : option (gmap string Z) :=
  match n with
  | O => Some v
  | S n' => evaluate x v ≫= recompute n' x
  end.

(** Modelled from the spec: [eval()] of the absent [HDLModuleWASM]. *)
Definition eval (i : SimulationInstance) : Result SimulationInstance :=
  v ← settle iterationCap (exe i) (values i);
  mret (with_values v true i).

(** Modelled from the spec: [clockEdge(level)] of the absent
    [HDLModuleWASM]: write the clock, then [eval()]. *)
Definition clockEdge (level : bool) (i : SimulationInstance)
    : Result SimulationInstance :=
  i' ← setSignal (clk (bound i)) (if level then 1 else 0) i;
  eval i'.

(** One clock cycle: a rising and a falling edge. *)
Definition tick (i : SimulationInstance) : Result SimulationInstance :=
  i1 ← clockEdge true i;
  i2 ← clockEdge false i1;
  mret (with_cycle (S (cycle i2)) i2).

Fixpoint ticks (n : nat) (i : SimulationInstance) : Result SimulationInstance :=
  match n with
  | O => Ok i
  | S n' => i' ← tick i; ticks n' i'
  end.

Definition driveReset (level : Z) (i : SimulationInstance)
    : Result SimulationInstance :=
  match rst (bound i) with
  | Some r => setSignal r level i
  | None => Ok i
  end.

(** The first half of [reset]: the reset input asserted and held. *)
Definition holdReset (i : SimulationInstance) : Result SimulationInstance :=
  i1 ← driveReset 1 i;
  ticks resetCycles i1.

(** The second half of [reset]: the reset input released, the logic
    settled; cycles are counted from here. *)
Definition release (i : SimulationInstance) : Result SimulationInstance :=
  i3 ← driveReset 0 i;
  i4 ← eval i3;
  mret (with_cycle 0 i4).

(** Modelled from the spec: [reset()] of the absent kernel: assert the
    reset input (if present) for a fixed number of cycles, release it,
    settle. *)
Definition reset (i : SimulationInstance) : Result SimulationInstance :=
  i2 ← holdReset i;
  release i2.

(** The level of a synchronization signal. *)
Definition level (p : string) (i : SimulationInstance) : bool :=
  negb (default 0 (values i !! p) =? 0)%Z.

(** One sample of the detector: the cycle it was taken at and the levels
    of hsync and vsync. *)
Definition Sample : Type := nat * bool * bool.

Definition sample (i : SimulationInstance) : Sample :=
  (cycle i, level (hsync (bound i)) i, level (vsync (bound i)) i).

(** Drive [n] cycles, sampling after each. *)
Fixpoint observe (n : nat) (i : SimulationInstance)
    : Result (SimulationInstance * list Sample) :=
  match n with
  | O => Ok (i, [])
  | S n' =>
      i' ← tick i;
      '(i'', rest) ← observe n' i';
      mret (i'', sample i' :: rest)
  end.

(** The level that fills the short bursts is the active one: active-low
    when the signal is low for fewer samples than it is high.  A signal
    seen at one level only has not toggled. *)
Definition classify (levels : list bool) : option bool :=
  let highs := length (filter (fun b => b = true) levels) in
  let lows := length (filter (fun b => b = false) levels) in
  if bool_decide (highs = 0%nat) || bool_decide (lows = 0%nat) then None
  else Some (bool_decide (lows < highs)%nat).

(** Modelled from the spec: [detectSyncPolarity] of the absent [./sim/vga]. *)
Definition detectSyncPolarity (i : SimulationInstance)
    : Result (SimulationInstance * SyncPolarity) :=
  '(i', samples) ← observe detectBudget i;
  match classify (map (fun s => s.1.2) samples),
        classify (map (fun s => s.2) samples) with
  | Some h, Some v =>
      Ok (i', {| hsyncActiveLow := h; vsyncActiveLow := v |})
  | _, _ => Err DetectionTimeout
  end.

(** A signal that does not toggle over the samples taken. *)
Definition noToggle (levels : list bool) : Prop :=
  forall a b, a ∈ levels -> b ∈ levels -> a = b.

End Limits.

(** Two instances of one design, with executable [x] and clock [c],
    both holding the reset input [r] at 1. *)
Definition held (x : Executable) (c r : string) (j j' : SimulationInstance) : Prop :=
  sameDesign j j' /\ exe j = x /\ clk (bound j) = c /\
  values j !! r = Some 1 /\ values j' !! r = Some 1.

(** The reset input overrides the design: evaluated with the reset input
    at 1, the table that results depends on the level of the clock only,
    and both inputs come out as they went in. *)
Definition resetOverrides (x : Executable) (c r : string) : Prop :=
  forall (v v' : gmap string Z) (lvl : Z),
    v !! r = Some 1 -> v' !! r = Some 1 ->
    v !! c = Some lvl -> v' !! c = Some lvl ->
    evaluate x v' = evaluate x v /\
    forall u, evaluate x v = Some u -> u !! r = Some 1 /\ u !! c = Some lvl.


End Sim.

(** ** Reading the event log *)

Section Logs.
Context {K : Kernel}.

(** A property of every event together with the events before it. *)
Fixpoint eachEvent (P : Event -> list Event -> Prop) (l : list Event) : Prop :=
  match l with
  | [] => True
  | e :: before => P e before /\ eachEvent P before
  end.

(** The module objects constructed and not yet disposed. *)
Fixpoint live (l : list Event) : list nat :=
  match l with
  | [] => []
  | Constructed id :: before => id :: live before
  | Disposed id :: before => filter (fun x => x <> id) (live before)
  | _ :: before => live before
  end.

Definition isRender (op : Op) : bool :=
  match op with
  | OpRender _ _ => true
  | _ => false
  end.

(** The calls of [renderVGAFrame] entered and not yet left. *)
Fixpoint inFlight (l : list Event) : nat :=
  match l with
  | [] => 0
  | Call op _ :: before =>
      if isRender op then S (inFlight before) else inFlight before
  | Return op :: before | Raise op _ :: before =>
      if isRender op then pred (inFlight before) else inFlight before
  | _ :: before => inFlight before
  end.

(** The value the latest completed detection returned, on whichever
    module it ran ([owner] below tells which). *)
Fixpoint polarityOf (l : list Event) : option SyncPolarity :=
  match l with
  | [] => None
  | Detected p :: _ => Some p
  | _ :: before => polarityOf before
  end.

(** Some [skipToFrameBoundary] has returned, on whichever module. *)
Fixpoint synced (l : list Event) : bool :=
  match l with
  | [] => false
  | Return (OpSkip _) :: _ => true
  | _ :: before => synced before
  end.

Definition established (l : list Event) : Prop :=
  is_Some (polarityOf l) /\ synced l = true.

(** The messages posted to the webview, oldest first. *)
Fixpoint posts (l : list Event) : list Message :=
  match l with
  | [] => []
  | Posted m :: before => posts before ++ [m]
  | _ :: before => posts before
  end.

(** At most one module object is live, and whatever the panel calls or
    disposes is live. *)
Definition oneLiveModule (e : Event) (before : list Event) : Prop :=
  (length (live (e :: before)) <= 1)%nat /\
  match e with
  | Call _ (Some id) | Disposed id => id ∈ live before
  | _ => True
  end.

(** A render is entered, and the next one queued, only while none is in
    flight. *)
Definition oneRenderInFlight (e : Event) (before : list Event) : Prop :=
  (inFlight (e :: before) <= 1)%nat /\
  match e with
  | Call (OpRender _ _) _ | SetImmediate => inFlight before = 0%nat
  | _ => True
  end.

(** A render is handed the polarity of the latest detection, after some
    frame-boundary synchronization; neither need have been made on the
    module rendered. *)
Definition renderHasPolarity (e : Event) (before : list Event) : Prop :=
  match e with
  | Call (OpRender p _) _ => polarityOf before = Some p /\ synced before = true
  | _ => True
  end.

(** A polarity handed to a render is one [detectSyncPolarity] returned. *)
Definition renderPolarityDetected (e : Event) (before : list Event) : Prop :=
  match e with
  | Call (OpRender p _) _ =>
      exists m m', detectSyncPolarity m = (m', Normal p)
  | _ => True
  end.

(** The module the nearest entered detection was called on. *)
Fixpoint detectTarget (l : list Event) : option nat :=
  match l with
  | [] => None
  | Call OpDetect t :: _ => t
  | _ :: before => detectTarget before
  end.

(** The module the latest completed detection ran on. *)
Fixpoint owner (l : list Event) : option nat :=
  match l with
  | [] => None
  | Detected _ :: before => detectTarget before
  | _ :: before => owner before
  end.

(** A render is made on the module the polarity was last detected on. *)
Definition renderOnDetected (e : Event) (before : list Event) : Prop :=
  match e with
  | Call (OpRender _ _) t => owner before = t
  | _ => True
  end.

(** The renders made on another module than the one the polarity was
    last detected on. *)
Fixpoint strayRenders (l : list Event) : nat :=
  match l with
  | [] => 0
  | Call (OpRender _ _) t :: before =>
      if decide (owner before = t) then strayRenders before
      else S (strayRenders before)
  | _ :: before => strayRenders before
  end.

(** The renders entered. *)
Fixpoint renders (l : list Event) : nat :=
  match l with
  | [] => 0
  | Call (OpRender _ _) _ :: before => S (renders before)
  | _ :: before => renders before
  end.

(** Whether the constructor was entered with a design and no constant
    pool. *)
Definition builtWithoutPool (e : Event) : bool :=
  match e with
  | New (Some _) None => true
  | _ => false
  end.

Definition isErrorMessage (m : Message) : bool :=
  match m with
  | error _ => true
  | _ => false
  end.

End Logs.

(** *** Kernel operations by module *)

Section ModuleLogs.
Context {K : Kernel}.

Definition isDetect (op : Op) : bool :=
  match op with
  | OpDetect => true
  | _ => false
  end.

Definition isSkip (op : Op) : bool :=
  match op with
  | OpSkip _ => true
  | _ => false
  end.

(** The kernel operations of kind [sel] entered on the module [id]. *)
Fixpoint enteredOn (sel : Op -> bool) (id : nat) (l : list Event) : nat :=
  match l with
  | [] => 0
  | Call op (Some t) :: before =>
      if sel op && bool_decide (t = id) then S (enteredOn sel id before)
      else enteredOn sel id before
  | _ :: before => enteredOn sel id before
  end.

(** A render is made on the module the latest completed detection ran
    on, with the polarity that detection returned. *)
Definition renderOwnsPolarity (e : Event) (before : list Event) : Prop :=
  match e with
  | Call (OpRender p _) t => owner before = t /\ polarityOf before = Some p
  | _ => True
  end.

(** The host's own [process.exit] ran with this code. *)
Fixpoint exitedWith (l : list Event) : option (option Z) :=
  match l with
  | [] => None
  | Exited code :: _ => Some code
  | _ :: before => exitedWith before
  end.

End ModuleLogs.

(** ** The invariant of the panel *)

Section Invariant.
Context {K : Kernel}.

(** The outcome and the final state of [m] started in [w] satisfy [Q]. *)
Definition wp {A} (m : Js A) (Q : Outcome A -> World -> Prop) (w : World) : Prop :=
  Q (m w).2 (m w).1.

(** [w] with one more event. *)
Definition push (e : Event) (w : World) : World := set_log (e :: log w) w.

(** What holds of the panel between any two callbacks. *)
Record Good (w : World) : Prop := {
  good_modules : eachEvent oneLiveModule (log w);
  good_renders : eachEvent oneRenderInFlight (log w);
  good_polarity : eachEvent renderHasPolarity (log w);
  good_detected : eachEvent renderPolarityDetected (log w);
  good_live : live (log w) = option_list (mod_ w);
  good_idle : inFlight (log w) = 0%nat;
  good_field : forall p, polarityOf (log w) = Some p ->
     syncPolarity w = p /\ exists m m', detectSyncPolarity m = (m', Normal p);
  good_running : running w = true -> established (log w);
}.

(** Events that touch neither the set of live modules, nor a render, nor
    the polarity. *)
Definition inert (e : Event) (w : World) : Prop :=
  match e with
  | Constructed _ | Disposed _ | Detected _ => False
  | Call op t => isRender op = false /\ forall id, t = Some id -> mod_ w = Some id
  | Return op | Raise op _ => isRender op = false
  | _ => True
  end.

(** The log only grows. *)
Definition grows (w w' : World) : Prop := exists evs, log w' = evs ++ log w.

(** The panel's own fields are untouched. *)
Definition sameFields (w w' : World) : Prop :=
  mod_ w' = mod_ w /\ running w' = running w /\ syncPolarity w' = syncPolarity w.

(** [m] keeps the invariant. *)
Definition keeps {A} (m : Js A) : Prop :=
  forall w, Good w -> wp m (fun _ w' => Good w' /\ grows w w') w.

(** What a suspended call still relies on. *)
Definition stageReady (st : Stage) (w : World) : Prop :=
  match st with
  | AwaitInitModule _ None => established (log w)
  | _ => True
  end.

(** The invariant of the event loop. *)
Definition Sound (sys : System) : Prop :=
  Good (world sys) /\
  forall c st, calls sys !! c = Some st -> stageReady st (world sys).

(** What belongs to the host process rather than to the panel. *)
Definition host (w : World) : Verilator.ExitFn * bool :=
  (process_exit w, hostGone w).

(** [m] leaves the host alone. *)
Definition hostFrame {A} (m : Js A) : Prop :=
  forall w, wp m (fun _ w' => host w' = host w) w.

(** How far a call of [compileSources] has come. *)
Definition rank (st : Stage) : nat :=
  match st with
  | AwaitReady _ _ _ => 0
  | AwaitCompile _ _ => 1
  | AwaitInit _ _ => 2
  | AwaitInitModule _ _ => 3
  | Finished => 4
  end.

(** Call [c], entered with [original] as [process.exit], has come at
    least to rank [n]: the host is alive, [process.exit] throws until
    the call has finished and is [original] again afterwards. *)
Definition onTrack (c : nat) (original : Verilator.ExitFn) (n : nat)
    (sys : System) : Prop :=
  hostGone (world sys) = false /\
  exists st, calls sys !! c = Some st /\ (n <= rank st)%nat /\
    match st with
    | Finished => process_exit (world sys) = original
    | AwaitReady o _ _ | AwaitCompile o _ | AwaitInit o _
    | AwaitInitModule o _ =>
        o = original /\ process_exit (world sys) = Verilator.throwingExit
    end.

(** *** Calls of [compileSources] that do not overlap *)

Definition isFinished (st : Stage) : bool :=
  match st with
  | Finished => true
  | _ => false
  end.

(** No call of [compileSources] is suspended. *)
Definition idle (sys : System) : bool := forallb isFinished (calls sys).

(** The command is invoked only when every earlier call of
    [compileSources] has finished; messages, queued callbacks and the
    disposal come at any time. *)
Fixpoint serial (sys : System) (inputs : list Input) : Prop :=
  match inputs with
  | [] => True
  | i :: rest =>
      match i with
      | Simulate _ _ => idle sys = true
      | _ => True
      end /\ serial (step sys i) rest
  end.

(** Events that neither complete a detection nor enter a render. *)
Definition quiet (e : Event) : Prop :=
  match e with
  | Detected _ => False
  | Call op _ => isRender op = false
  | _ => True
  end.

(** The polarity in use was detected on the module that is rendered. *)
Record Owned (w : World) : Prop := {
  owned_renders : eachEvent renderOnDetected (log w);
  owned_running : running w = true -> owner (log w) = mod_ w;
}.

(** What a suspended call finds of the panel when it resumes. *)
Definition suspended (st : Stage) (w : World) : Prop :=
  match st with
  | Finished => True
  | AwaitInitModule _ None =>
      running w = false /\ (mod_ w = None \/ owner (log w) = mod_ w)
  | _ => running w = false
  end.

(** What a suspended call has done to [process.exit]. *)
Definition intercepting (st : Stage) (w : World) : Prop :=
  match st with
  | Finished => True
  | AwaitReady o _ _ | AwaitCompile o _ | AwaitInit o _ | AwaitInitModule o _ =>
      o = Verilator.hostExit /\ process_exit w = Verilator.throwingExit
  end.

(** The invariant of the event loop under serial schedules. *)
Record Orderly (sys : System) : Prop := {
  ord_alive : hostGone (world sys) = false;
  ord_owned : Owned (world sys);
  ord_one : forall c1 c2 st1 st2,
    calls sys !! c1 = Some st1 -> calls sys !! c2 = Some st2 ->
    isFinished st1 = false -> isFinished st2 = false -> c1 = c2;
  ord_suspended : forall c st, calls sys !! c = Some st -> suspended st (world sys);
  ord_intercepting : forall c st,
    calls sys !! c = Some st -> intercepting st (world sys);
  ord_idle : idle sys = true -> process_exit (world sys) = Verilator.hostExit;
}.

(** What a handler of the host leaves of the panel. *)
Definition calm (w w' : World) : Prop :=
  Owned w' /\ host w' = host w /\
  (running w' = true -> running w = true) /\
  (mod_ w = None \/ owner (log w) = mod_ w ->
   mod_ w' = None \/ owner (log w') = mod_ w').

End Invariant.

(** ** What a callback leaves unchanged, and one call as a function *)

Section Observations.
Context {K : Kernel}.

(** [m] relates every state to the state it leaves, whatever the outcome. *)
Definition stable (R : World -> World -> Prop) {A} (m : Js A) : Prop :=
  forall w, wp m (fun _ w' => R w w') w.

(** Nothing the user or the host can observe has changed: no message was
    posted, no render entered, the loop and its queue are as they were,
    and the host is left alone. *)
Definition offstage (w w' : World) : Prop :=
  running w' = running w /\ immediates w' = immediates w /\
  posts (log w') = posts (log w) /\ renders (log w') = renders (log w) /\
  host w' = host w.

Definition sameModule (w w' : World) : Prop := mod_ w' = mod_ w.

(** Events that are neither a message nor the entry of a render. *)
Definition backstage (e : Event) : Prop :=
  match e with
  | Posted _ => False
  | Call op _ => isRender op = false
  | _ => True
  end.

(** What the host runs without a call of [compileSources] being entered
    or resumed. *)
Definition passive (i : Input) : bool :=
  match i with
  | Received _ | Immediate | DidDispose => true
  | _ => false
  end.

(** The kernel operations entered. *)
Fixpoint kernelCalls (l : list Event) : nat :=
  match l with
  | [] => 0
  | Call _ _ :: before | New _ _ :: before | Disposed _ :: before =>
      S (kernelCalls before)
  | _ :: before => kernelCalls before
  end.

(** A suspended call takes the segment [i] stands for, if it waits for it. *)
Definition advance (i : Input) (r : World * Stage) : World * Stage :=
  match segment i r.2 with
  | Some seg => seg r.1
  | None => r
  end.

(** One call of [compileSources] from its entry to its end, as a function
    of the panel's state. *)
Definition pipeline (sources : list (string * string)) (tc : Verilator.Toolchain)
    (w : World) : World * Stage :=
  advance (AfterInitModule 0)
    (advance (InitSettled 0)
       (advance (AfterCompile 0)
          (advance (Ready 0) (compileSources_begin sources tc w)))).

(** What [renderLoop] posts for one render: the frame, whole, or the
    error of the render. *)
Definition frameOrFault (m : Message) : Prop :=
  match m with
  | frame width height pixels =>
      width = VGA_WIDTH /\ height = VGA_HEIGHT /\
      length pixels = (VGA_WIDTH * VGA_HEIGHT * 4)%nat
  | error text => exists e, text = "Simulation error: " +:+ messageOf e
  | status _ => False
  end.

Definition isFrame (m : Message) : bool :=
  match m with
  | frame _ _ _ => true
  | _ => false
  end.

(** The text of the [error] message a call of [compileSources] posts when
    [compileVerilator] rejects or resolves without an output (lines
    94-106 and 120-124). *)
Definition failureText (tc : Verilator.Toolchain) (opts : Verilator.ICompileOptions)
    : option string :=
  match Verilator.compileVerilator feedLines parse Verilator.throwingExit tc opts with
  | Verilator.Settled (Throw e) => Some ("Error: " +:+ messageOf e)
  | Verilator.Settled (Normal r) =>
      match Verilator.output r with
      | None => Some ("Compilation Error:" +:+ newline
                        +:+ errorMessages (Verilator.errors r))
      | Some _ => None
      end
  | Verilator.HostTerminated _ => None
  end.

End Observations.

(** ** What the user is notified of *)

Section Notifications.
Context {K : Kernel}.

(** The texts given to [showWarningMessage], oldest first. *)
Fixpoint warned (l : list Event) : list string :=
  match l with
  | [] => []
  | Warned text :: before => warned before ++ [text]
  | _ :: before => warned before
  end.

Definition sameWarnings (w w' : World) : Prop := warned (log w') = warned (log w).

(** The entries of kind [warning] among the diagnostics. *)
Definition warnings (errs : list Verilator.ErrorEntry) : list Verilator.ErrorEntry :=
  filter (fun e => Verilator.type e = Verilator.warning) errs.

End Notifications.

(** *** The compiler binary (compile.ts, lines 7 and 16-22) *)

Module Wasm.
Section Binary.
Context {Buffer : Type}.

(** One call's resolution of [wasmBinary]: [given] is [opts.wasmBinary],
    [cached] the module-level [cachedWasmBinary], [disk] what
    [readFileSync] of verilator_bin.wasm does if it is called.  The result
    is the cache afterwards, whether the file was read, and the binary or
    the exception. *)
Definition wasmBinary (given cached : option Buffer) (disk : Outcome Buffer)
    : option Buffer * bool * Outcome Buffer :=
  match given with
  | Some b => (cached, false, Normal b)
  | None =>
      match cached with
      | Some c => (cached, false, Normal c)
      | None =>
          match disk with
          | Normal b => (Some b, true, Normal b)
          | Throw e => (None, true, Throw e)
          end
      end
  end.

(** What one call did. *)
Record Load : Type := {
  readFile : bool;
  binary : Outcome Buffer;
}.

(** Successive calls of [compileVerilator], each with its
    [opts.wasmBinary] and the state of the disk at that time. *)
Fixpoint loads (cached : option Buffer)
    (calls : list (option Buffer * Outcome Buffer)) : option Buffer * list Load :=
  match calls with
  | [] => (cached, [])
  | (given, disk) :: rest =>
      let '(cached', read, b) := wasmBinary given cached disk in
      let '(final, ls) := loads cached' rest in
      (final, {| readFile := read; binary := b |} :: ls)
  end.

(** The reads of the file that returned. *)
Definition goodRead (l : Load) : bool :=
  readFile l && match binary l with Normal _ => true | Throw _ => false end.

Definition goodReads (ls : list Load) : nat := length (List.filter goodRead ls).

End Binary.
End Wasm.

(** ** src/extension.ts and the panel's static side *)

Module Extension.

(** A [vscode.Uri] of a file, by its [fsPath]. *)
Record Uri : Type := { fsPath : string }.

(** [editor.document] *)
Record TextDocument : Type := {
  fileName : string;
  uri : Uri;
  getText : string;
}.

(** An item offered by [showQuickPick]. *)
Record Item : Type := {
  label : string;
  target : Uri;
}.

(** A [Record<string, string>] built by assignments: its own properties
    in the order they were created.  The keys assigned here are paths
    ending in .v or .sv, never array indices, so this is also the order
    of [Object.entries]. *)
Definition Sources : Type := list (string * string).

(** [obj[key] = value] *)
Fixpoint setProperty (key value : string) (obj : Sources) : Sources :=
  match obj with
  | [] => [(key, value)]
  | (k, v) :: rest =>
      if decide (k = key) then (k, value) :: rest
      else (k, v) :: setProperty key value rest
  end.

(** [obj[key]] *)
Fixpoint getProperty (key : string) (obj : Sources) : option string :=
  match obj with
  | [] => None
  | (k, v) :: rest => if decide (k = key) then Some v else getProperty key rest
  end.

(** The functions of Node's [path] and of JavaScript strings the
    extension calls. *)
Class Paths : Type := {
  extname : string -> string;
  basename : string -> string;
  relative : string -> string -> string;
  toLowerCase : string -> string;
}.

(** What VS Code and the file system answer during one run of the
    command. *)
Record Workspace : Type := {
  (** [vscode.window.activeTextEditor?.document] *)
  activeTextEditor : option TextDocument;
  (** [vscode.workspace.getWorkspaceFolder(uri)?.uri] *)
  getWorkspaceFolder : Uri -> option Uri;
  (** [findFiles] for the Verilog files of the whole workspace *)
  findFiles : Outcome (list Uri);
  (** the same search under a folder, through a [RelativePattern] *)
  findFilesIn : Uri -> Outcome (list Uri);
  (** [vscode.workspace.asRelativePath(uri)] *)
  asRelativePath : Uri -> string;
  (** [showQuickPick(items, ...)]: the item picked, or [undefined] *)
  showQuickPick : list Item -> Outcome (option Item);
  (** [fs.readFileSync(fsPath, 'utf-8')] *)
  readFileSync : string -> Outcome string;
  (** [(await vscode.workspace.fs.readFile(uri)).toString()] *)
  readFile : Uri -> Outcome string;
}.

(** What the user sees happen. *)
Inductive Shown : Type :=
  | ErrorMessage (text : string)
  | QuickPick (items : list Item)
  | Created (panel : nat)
  | Revealed (panel : nat)
  | Closed (panel : nat).

Section Code.
Context {P : Paths}.
Variable ws : Workspace.

(** Lines 76-80: the loop of [gatherVerilogFiles]. *)
Fixpoint readAll (folder : Uri) (files : list Uri) (sources : Sources)
    : Outcome Sources :=
  match files with
  | [] => Normal sources
  | file :: rest =>
      let relativePath := relative (fsPath folder) (fsPath file) in
      match readFileSync ws (fsPath file) with
      | Throw e => Throw e
      | Normal content => readAll folder rest (setProperty relativePath content sources)
      end
  end.

(** Lines 71-83. *)
Definition gatherVerilogFiles (folderUri : Uri) : Outcome Sources :=
  match findFilesIn ws folderUri with
  | Throw e => Throw e
  | Normal files => readAll folderUri files []
  end.

(** [ext === '.v' || ext === '.sv'] on the lowered extension, lines
    30-32. *)
Definition isVerilog (doc : TextDocument) : bool :=
  let ext := toLowerCase (extname (fileName doc)) in
  bool_decide (ext = ".v") || bool_decide (ext = ".sv").

Definition some {A} (o : Outcome A) : Outcome (option A) :=
  match o with
  | Normal a => Normal (Some a)
  | Throw e => Throw e
  end.

(** Lines 43-68: no active Verilog file. *)
Definition pickSources : list Shown * Outcome (option Sources) :=
  match findFiles ws with
  | Throw e => ([], Throw e)
  | Normal files =>
      if bool_decide (length files = 0%nat)
      then ([ErrorMessage "No Verilog (.v / .sv) files found in workspace."],
            Normal None)
      else
        let items := map (fun f => {| label := asRelativePath ws f; target := f |})
                         files in
        match showQuickPick ws items with
        | Throw e => ([QuickPick items], Throw e)
        | Normal None => ([QuickPick items], Normal None)
        | Normal (Some picked) =>
            ([QuickPick items],
             match getWorkspaceFolder ws (target picked) with
             | Some folder => some (gatherVerilogFiles folder)
             | None =>
                 match readFile ws (target picked) with
                 | Throw e => Throw e
                 | Normal content =>
                     Normal (Some [(basename (fsPath (target picked)), content)])
                 end
             end)
        end
  end.

(** Lines 24-69. *)
Definition collectVerilogSources : list Shown * Outcome (option Sources) :=
  match activeTextEditor ws with
  | Some doc =>
      if isVerilog doc then
        match getWorkspaceFolder ws (uri doc) with
        | Some folder => ([], some (gatherVerilogFiles folder))
        | None => ([], Normal (Some [(basename (fileName doc), getText doc)]))
        end
      else pickSources
  | None => pickSources
  end.

(** The static [VGASimulatorPanel.currentPanel], with the number of
    webview panels created so far. *)
Record Registry : Type := {
  currentPanel : option nat;
  created : nat;
}.

Definition noPanel : Registry := {| currentPanel := None; created := 0 |}.

(** [VGASimulatorPanel.createOrShow], lines 28-47 of the panel. *)
Definition createOrShow (r : Registry) : Registry * Shown * nat :=
  match currentPanel r with
  | Some p => (r, Revealed p, p)
  | None =>
      let p := created r in
      ({| currentPanel := Some p; created := S p |}, Created p, p)
  end.

(** Line 195, the first statement of [dispose]: whichever panel is
    disposed, the static reference is cleared. *)
Definition disposed (r : Registry) : Registry :=
  {| currentPanel := None; created := created r |}.

(** A call of [panel.compileSources(sources)] the command has made. *)
Record Launch : Type := {
  panel : nat;
  launched : Sources;
}.

(** The command [verilogvga.simulate], lines 7-19, up to its call of
    [compileSources]. *)
Definition simulate (r : Registry)
    : Registry * list Shown * Outcome (option Launch) :=
  match collectVerilogSources with
  | (shown, Throw e) => (r, shown, Throw e)
  | (shown, Normal None) => (r, shown, Normal None)
  | (shown, Normal (Some sources)) =>
      let '(r', s, p) := createOrShow r in
      (r', shown ++ [s], Normal (Some {| panel := p; launched := sources |}))
  end.

End Code.

(** The panels created and not closed, latest first, reading the
    events from the oldest. *)
Definition openPanels (shown : list Shown) : list nat :=
  foldl (fun open s =>
           match s with
           | Created p => p :: open
           | Closed p => filter (fun q => q <> p) open
           | _ => open
           end) [] shown.

(** What happens to the registry: the command is run in some workspace,
    or the user closes a panel that is open, which runs its [dispose].
    The command touches the registry only in [createOrShow], which runs
    to completion after the awaits of [collectVerilogSources]: a run of
    the command is taken at that point. *)
Inductive Action : Type :=
  | Command (ws : Workspace)
  | Close (p : nat).

Definition act {P : Paths} (st : Registry * list Shown) (a : Action)
    : Registry * list Shown :=
  match a with
  | Command ws =>
      let '(r', shown, _) := simulate ws st.1 in (r', st.2 ++ shown)
  | Close p =>
      if decide (p ∈ openPanels st.2)
      then (disposed st.1, st.2 ++ [Closed p])
      else st
  end.

(** Asking for the sources neither creates nor closes a panel. *)
Definition asking (s : Shown) : Prop :=
  match s with
  | ErrorMessage _ | QuickPick _ => True
  | _ => False
  end.

(** The file contents as a map, a later file replacing an earlier one of
    the same relative path. *)
Definition contents {P : Paths} (ws : Workspace) (folder : Uri)
    (files : list Uri) : gmap string (Outcome string) :=
  list_to_map
    (rev (map (fun f => (relative (fsPath folder) (fsPath f),
                         readFileSync ws (fsPath f))) files)).

(** The keys in the order of their first occurrence. *)
Fixpoint firstOccurrences (keys : list string) (seen : list string) : list string :=
  match keys with
  | [] => []
  | k :: rest =>
      if decide (k ∈ seen) then firstOccurrences rest seen
      else k :: firstOccurrences rest (k :: seen)
  end.

End Extension.

(** A byte of a typed array. *)
Definition isByte (b : Z) : Prop := 0 <= b < 256.

(** ** The script of the webview (lines 302-383 of the panel) *)

Module Webview.

(** The platform functions the two sides of the frame message call, and
    the clock of the page. *)
Class Platform : Type := {
  (** [Buffer.from(pixels.buffer).toString('base64')] of the bytes of
      [pixels], in the extension host *)
  toBase64 : list Z -> string;
  (** [atob(text)] in the webview: the character codes of the binary
      string, or the exception *)
  atob : string -> Outcome (list Z);
  (** a value of [performance.now()] *)
  Time : Type;
  (** [now - lastFpsTime >= 1000] *)
  aSecondSince : Time -> Time -> bool;
  (** what [createImageData] throws for a zero width or height, and
      [set] for a source longer than its target *)
  indexSizeError : JsThrown;
  rangeError : JsThrown;
}.

(** A message as the webview receives it. *)
Inductive Msg : Type :=
  | Frame (width height : nat) (pixels : string)
  | Status (text : string)
  | Error (text : string)
  | Other (command : string).

(** The message [postMessage] delivers for what the panel posted. *)
Definition wire {F : Platform} (m : Message) : Msg :=
  match m with
  | status text => Status text
  | error text => Error text
  | frame width height pixels => Frame width height (toBase64 pixels)
  end.

Record ImageData : Type := {
  width : nat;
  height : nat;
  data : list Z;
}.

Section Script.
Context {F : Platform}.

(** The variables of the script and the parts of the page it writes.
    [put] is the image last drawn by [putImageData] since the canvas was
    last cleared; the style of the canvas is left out. *)
Record View : Type := {
  canvasWidth : nat;
  canvasHeight : nat;
  put : option ImageData;
  imageData : option ImageData;
  statusText : string;
  errorText : string;
  errorShown : bool;
  fpsText : string;
  frameCount : nat;
  lastFpsTime : Time;
  (** the commands posted to the extension, oldest first *)
  outbox : list string;
}.

(** [ctx.createImageData(width, height)]: transparent black. *)
Definition createImageData (w h : nat) : Outcome ImageData :=
  if bool_decide (w = 0%nat) || bool_decide (h = 0%nat) then Throw indexSizeError
  else Normal {| width := w; height := h; data := replicate (w * h * 4) 0 |}.

(** Lines 315-326.  Assigning the size of a canvas clears it. *)
Definition resizeCanvas (w h : nat) (v : View) : View * option JsThrown :=
  let cleared :=
    {| canvasWidth := w; canvasHeight := h; put := None;
       imageData := imageData v; statusText := statusText v;
       errorText := errorText v; errorShown := errorShown v;
       fpsText := fpsText v; frameCount := frameCount v;
       lastFpsTime := lastFpsTime v; outbox := outbox v |} in
  match createImageData w h with
  | Throw e => (cleared, Some e)
  | Normal img =>
      ({| canvasWidth := w; canvasHeight := h; put := None;
          imageData := Some img; statusText := statusText v;
          errorText := errorText v; errorShown := errorShown v;
          fpsText := fpsText v; frameCount := frameCount v;
          lastFpsTime := lastFpsTime v; outbox := outbox v |}, None)
  end.

(** The page as the script leaves it when it has run (lines 304-328),
    loaded at time [t]. *)
Definition loaded (t : Time) : View :=
  (resizeCanvas 736 520
     {| canvasWidth := 300; canvasHeight := 150; put := None; imageData := None;
        statusText := "Waiting..."; errorText := ""; errorShown := false;
        fpsText := ""; frameCount := 0; lastFpsTime := t; outbox := [] |}).1.

(** Lines 347-353: decode, copy into [imageData.data], draw. *)
Definition draw (pixels : string) (v : View) : View * option JsThrown :=
  match atob pixels with
  | Throw e => (v, Some e)
  | Normal binary =>
      let bytes := map (fun code => code mod 256) binary in
      match imageData v with
      | None => (v, Some (JsError "TypeError" "Cannot read properties of null"))
      | Some img =>
          if bool_decide (length (data img) < length bytes)%nat
          then (v, Some rangeError)
          else
            let img' := {| width := width img; height := height img;
                           data := bytes ++ drop (length bytes) (data img) |} in
            ({| canvasWidth := canvasWidth v; canvasHeight := canvasHeight v;
                put := Some img'; imageData := Some img';
                statusText := statusText v; errorText := errorText v;
                errorShown := errorShown v; fpsText := fpsText v;
                frameCount := frameCount v; lastFpsTime := lastFpsTime v;
                outbox := outbox v |}, None)
      end
  end.

(** Lines 355-362. *)
Definition countFrame (now : Time) (v : View) : View :=
  let n := S (frameCount v) in
  if aSecondSince now (lastFpsTime v) then
    {| canvasWidth := canvasWidth v; canvasHeight := canvasHeight v;
       put := put v; imageData := imageData v; statusText := statusText v;
       errorText := errorText v; errorShown := errorShown v;
       fpsText := pretty n +:+ " fps"; frameCount := 0; lastFpsTime := now;
       outbox := outbox v |}
  else
    {| canvasWidth := canvasWidth v; canvasHeight := canvasHeight v;
       put := put v; imageData := imageData v; statusText := statusText v;
       errorText := errorText v; errorShown := errorShown v;
       fpsText := fpsText v; frameCount := n; lastFpsTime := lastFpsTime v;
       outbox := outbox v |}.

Definition fits (w h : nat) (v : View) : bool :=
  match imageData v with
  | None => false
  | Some img => bool_decide (width img = w) && bool_decide (height img = h)
  end.

(** Lines 339-375: the listener of [message]; [now] is what
    [performance.now()] returns if it is called. *)
Definition onMessage (m : Msg) (now : Time) (v : View) : View * option JsThrown :=
  match m with
  | Frame w h pixels =>
      let '(v1, resized) := if fits w h v then (v, None) else resizeCanvas w h v in
      match resized with
      | Some e => (v1, Some e)
      | None =>
          match draw pixels v1 with
          | (v2, Some e) => (v2, Some e)
          | (v2, None) => (countFrame now v2, None)
          end
      end
  | Status text =>
      ({| canvasWidth := canvasWidth v; canvasHeight := canvasHeight v;
          put := put v; imageData := imageData v; statusText := text;
          errorText := errorText v; errorShown := false;
          fpsText := fpsText v; frameCount := frameCount v;
          lastFpsTime := lastFpsTime v; outbox := outbox v |}, None)
  | Error text =>
      ({| canvasWidth := canvasWidth v; canvasHeight := canvasHeight v;
          put := put v; imageData := imageData v; statusText := "Error";
          errorText := text; errorShown := true;
          fpsText := fpsText v; frameCount := frameCount v;
          lastFpsTime := lastFpsTime v; outbox := outbox v |}, None)
  | Other _ => (v, None)
  end.

(** Lines 330-337: the two buttons. *)
Definition post (command : string) (text : option string) (v : View) : View :=
  {| canvasWidth := canvasWidth v; canvasHeight := canvasHeight v;
     put := put v; imageData := imageData v;
     statusText := default (statusText v) text;
     errorText := errorText v; errorShown := errorShown v;
     fpsText := fpsText v; frameCount := frameCount v;
     lastFpsTime := lastFpsTime v; outbox := outbox v ++ [command] |}.

(** What happens in the page. *)
Inductive Happening : Type :=
  | Receive (m : Msg) (now : Time)
  | ClickStop
  | ClickReset
  (** the window is resized, lines 377-381 *)
  | WindowResize.

(** One listener runs; an exception that leaves it is reported by the
    page and changes nothing more. *)
Definition happen (v : View) (e : Happening) : View :=
  match e with
  | Receive m now => (onMessage m now v).1
  | ClickStop => post "stop" (Some "Stopped") v
  | ClickReset => post "reset" None v
  | WindowResize =>
      match imageData v with
      | Some img => (resizeCanvas (width img) (height img) v).1
      | None => v
      end
  end.

Definition happenings (v : View) (es : list Happening) : View := foldl happen v es.

(** The latest [status] or [error] message among what happened. *)
Definition latestNote (es : list Happening) : option Msg :=
  foldl (fun note e =>
           match e with
           | Receive (Status text) _ => Some (Status text)
           | Receive (Error text) _ => Some (Error text)
           | _ => note
           end) None es.

(** Every image the script holds has four bytes per pixel, and the
    canvas has its size. *)
Definition wellSized (v : View) : Prop :=
  match imageData v with
  | Some img =>
      length (data img) = (width img * height img * 4)%nat /\
      canvasWidth v = width img /\ canvasHeight v = height img /\
      (0 < width img)%nat /\ (0 < height img)%nat
  | None => False
  end.

(** The status line as the latest message or click set it. *)
Definition latestStatus (es : list Happening) : option string :=
  foldl (fun text e =>
           match e with
           | Receive (Status t) _ => Some t
           | Receive (Error _) _ => Some "Error"
           | ClickStop => Some "Stopped"
           | _ => text
           end) None es.

(** The commands the buttons posted. *)
Definition clicks (es : list Happening) : list string :=
  omap (fun e => match e with
                 | ClickStop => Some "stop"
                 | ClickReset => Some "reset"
                 | _ => None
                 end) es.

Definition isFrameMsg (e : Happening) : bool :=
  match e with
  | Receive (Frame _ _ _) _ => true
  | _ => false
  end.

(** The part of the page that frames and resizes leave alone. *)
Definition notice (v : View) : bool * string * string * list string :=
  (errorShown v, statusText v, errorText v, outbox v).

(** The messages of the panel arriving in order, the [i]-th at time
    [clock i]. *)
Definition deliveries (clock : nat -> Time) (ms : list Message) : list Happening :=
  imap (fun i m => Receive (wire m) (clock i)) ms.

End Script.
End Webview.

(** ** A test bench

    A small design and a kernel over it, to run the definitions above on
    concrete inputs. *)

Module Fixture.

Definition rd (v : gmap string Z) (p : string) : Z := default 0 (v !! p).

(** A timing generator with 8 cycles per line and 4 lines per frame; both
    sync pulses are active-low, the reset is level-sensitive and the
    colour output follows the column. *)
Definition vgaEval (v : gmap string Z) : option (gmap string Z) :=
  let posedge :=
    bool_decide (rd v "clk" = 1) && bool_decide (rd v "clk_prev" = 0) in
  let h := rd v "hcount" in
  let l := rd v "vcount" in
  let '(h', l') :=
    if bool_decide (rd v "reset" = 1) then (0, 0)
    else if posedge then
      if bool_decide (h = 7)
      then (0, if bool_decide (l = 3) then 0 else l + 1)
      else (h + 1, l)
    else (h, l) in
  Some (list_to_map
          [("clk", rd v "clk"); ("reset", rd v "reset");
           ("clk_prev", rd v "clk"); ("hcount", h'); ("vcount", l');
           ("hsync", if bool_decide (h' = 6) then 0 else 1);
           ("vsync", if bool_decide (l' = 3) then 0 else 1);
           ("rgb", h')]).

Definition sig (p : string) (w : N) (d : Sim.Direction) : Sim.Signal :=
  {| Sim.path := p; Sim.width := w; Sim.direction := d |}.

Definition vgaDef : Sim.ModuleDef :=
  {| Sim.name := "TOP";
     Sim.ports := ["clk"; "reset"; "hsync"; "vsync"; "rgb"];
     Sim.signals := list_to_map (map (fun s => (Sim.path s, s))
       [sig "clk" 1 Sim.input; sig "reset" 1 Sim.input;
        sig "hsync" 1 Sim.output; sig "vsync" 1 Sim.output;
        sig "rgb" 3 Sim.output; sig "hcount" 3 Sim.internal;
        sig "vcount" 2 Sim.internal; sig "clk_prev" 1 Sim.internal]) |}.

Definition vgaExe : Sim.Executable := {| Sim.evaluate := vgaEval |}.

Definition vgaBound : Sim.Bound :=
  {| Sim.clk := "clk"; Sim.rst := Some "reset";
     Sim.hsync := "hsync"; Sim.vsync := "vsync" |}.

Definition instance (d : Sim.ModuleDef) : Sim.SimulationInstance :=
  {| Sim.moddef := d; Sim.exe := vgaExe; Sim.bound := vgaBound;
     Sim.values := ∅; Sim.settled := false; Sim.cycle := 0 |}.

(** An oscillator: its only signal changes at every evaluation. *)
Definition loopExe : Sim.Executable :=
  {| Sim.evaluate := fun v => Some (<["x" := 1 - rd v "x"]> v) |}.

Definition fault (k : Sim.Kind) : JsThrown :=
  JsError "Error"
    match k with
    | Sim.LoadError => "LoadError"
    | Sim.BindError => "BindError"
    | Sim.ConvergenceError => "ConvergenceError"
    | Sim.DetectionTimeout => "DetectionTimeout"
    | Sim.RuntimeFault => "RuntimeFault"
    end.

Definition lift (f : Sim.SimulationInstance -> Sim.Result Sim.SimulationInstance)
    (i : Sim.SimulationInstance) : Sim.SimulationInstance * option JsThrown :=
  match f i with
  | Sim.Ok i' => (i', None)
  | Sim.Err k => (i, Some (fault k))
  end.

(** Step to the next cycle at which vsync is at its active level. *)
Fixpoint toBoundary (fuel : nat) (p : SyncPolarity) (i : Sim.SimulationInstance)
    : Sim.Result Sim.SimulationInstance :=
  match fuel with
  | O => Sim.Err Sim.DetectionTimeout
  | S fuel' =>
      i' ← Sim.tick 8 i;
      if bool_decide (Sim.level "vsync" i' = negb (vsyncActiveLow p)) then Sim.Ok i'
      else toBoundary fuel' p i'
  end.

(** One opaque pixel stored per cycle. *)
Fixpoint paint (n : nat) (at_ : Z) (i : Sim.SimulationInstance)
    : Sim.SimulationInstance * list (Z * Z) * option JsThrown :=
  match n with
  | O => (i, [], None)
  | S n' =>
      match Sim.tick 8 i with
      | Sim.Err k => (i, [], Some (fault k))
      | Sim.Ok i' =>
          let c := 32 * rd (Sim.values i') "rgb" in
          let '(i'', ws, o) := paint n' (at_ + 4) i' in
          (i'', (at_, c) :: (at_ + 1, c) :: (at_ + 2, c) :: (at_ + 3, 255) :: ws, o)
      end
  end.

Definition diagnostic (l : string) : Verilator.ErrorEntry :=
  {| Verilator.type :=
       if String.prefix "%Error" l then Verilator.error else Verilator.warning;
     Verilator.file := ""; Verilator.line := 1; Verilator.column := 1;
     Verilator.message := l |}.

Definition kernel : Kernel := {|
  HDLModuleDef := Sim.ModuleDef;
  HDLModuleWASM := Sim.SimulationInstance;
  VGA_WIDTH := 8;
  VGA_HEIGHT := 4;
  detectTopModule := fun _ => "top";
  feedLines := map diagnostic;
  parse := fun xml =>
    if decide (xml = "<top/>") then Normal {["TOP" := vgaDef]}
    else if decide (xml = "<top/><pool/>")
    then Normal (<["@CONST-POOL@" := vgaDef]> {["TOP" := vgaDef]})
    else Throw (JsError "Error" "unexpected token");
  construct := fun top _ =>
    match top with
    | Some d => Normal (instance d)
    | None => Throw (JsError "TypeError" "moddef is undefined")
    end;
  init := fun i => (i, None);
  dispose := fun i => i;
  resetModule := lift (Sim.reset 8 2);
  detectSyncPolarity := fun i =>
    match Sim.detectSyncPolarity 8 64 i with
    | Sim.Ok (i', p) => (i', Normal p)
    | Sim.Err k => (i, Throw (fault k))
    end;
  skipToFrameBoundary := fun i p => lift (toBoundary 64 p) i;
  renderVGAFrame := fun i len p => paint (len / 4) 0 i;
  nullFault := JsError "TypeError" "Cannot read properties of null";
|}.

Definition sources : list (string * string) :=
  [("top.v", "module top; endmodule")].

Definition compiler (run : Verilator.MainRun) : Verilator.Toolchain :=
  {| Verilator.loadFault := None; Verilator.readyFault := None;
     Verilator.fsFault := None; Verilator.callMain := fun _ _ => run |}.

(** A compilation that succeeds, of a design without a constant pool. *)
Definition good : Verilator.Toolchain :=
  compiler {| Verilator.stderr := []; Verilator.ending := Verilator.MainReturns;
              Verilator.xmlFile := Normal "<top/>" |}.

(** A compilation the compiler leaves through [process.exit(1)]. *)
Definition bad : Verilator.Toolchain :=
  compiler {| Verilator.stderr := ["%Error: syntax error"];
              Verilator.ending := Verilator.MainExits (Some 1);
              Verilator.xmlFile := Throw (JsError "ErrnoError" "FS error") |}.

(** A session in which no two calls of [compileSources] overlap: a
    design is compiled and runs, is reset from the webview, a compilation
    fails, the design is compiled again and the panel is closed. *)
Definition session : list Input :=
  [Simulate sources good; Ready 0; AfterCompile 0; InitSettled 0;
   AfterInitModule 0; Immediate; Received "reset"; Immediate;
   Simulate sources bad; Immediate; Ready 1; AfterCompile 1;
   Simulate sources good; Ready 2; Received "reset"; AfterCompile 2;
   InitSettled 2; AfterInitModule 2; Immediate; DidDispose].

(** The command invoked twice before the first compilation is through. *)
Definition twice (first second : Verilator.Toolchain) : list Input :=
  [Simulate sources first; Simulate sources second;
   Ready 0; AfterCompile 0; InitSettled 0; AfterInitModule 0].

(** The value table of the design while its reset is asserted. *)
Definition resetTable (c : Z) : gmap string Z :=
  list_to_map
    [("clk", c); ("reset", 1); ("clk_prev", c); ("hcount", 0); ("vcount", 0);
     ("hsync", 1); ("vsync", 1); ("rgb", 0)].

(** An instance of the design, whatever it holds. *)
Definition fixtureDesign (i : Sim.SimulationInstance) : Prop :=
  Sim.moddef i = vgaDef /\ Sim.exe i = vgaExe /\ Sim.bound i = vgaBound.

(** A compilation in which the compiler reports an error and returns,
    leaving a well-formed XML file behind. *)
Definition flagged : Verilator.Toolchain :=
  compiler {| Verilator.stderr := ["%Error: top.v:1: syntax error"];
                      Verilator.ending := Verilator.MainReturns;
                      Verilator.xmlFile := Normal "<top/>" |}.

(** The design compiled and running. *)
Definition started : list Input :=
  [Simulate sources good; Ready 0; AfterCompile 0; InitSettled 0;
   AfterInitModule 0].

Definition options : Verilator.ICompileOptions :=
  {| Verilator.topModule := "top"; Verilator.sources := sources |}.


End Fixture.

(** ** A page and a workspace for the test bench

    Base64 as RFC 4648 defines it, with [atob] decoding as the HTML
    standard prescribes. *)

Module Base64.
Import Stdlib.Strings.Ascii.

Definition alphabet : list ascii :=
  String.list_ascii_of_string
    "ABCDEFGHIJKLMNOPQRSTUVWXYZabcdefghijklmnopqrstuvwxyz0123456789+/".

Definition pad : ascii := "="%char.

Definition letter (n : Z) : ascii := nth (Z.to_nat n) alphabet pad.

Fixpoint indexOf (c : ascii) (l : list ascii) (at_ : Z) : option Z :=
  match l with
  | [] => None
  | x :: rest => if Ascii.eqb x c then Some at_ else indexOf c rest (at_ + 1)
  end.

Definition value (c : ascii) : option Z := indexOf c alphabet 0.

(** Three bytes as four sextets; a last group of one or two bytes is
    padded. *)
Fixpoint encode (bytes : list Z) : list ascii :=
  match bytes with
  | [] => []
  | [a] => [letter (a / 4); letter (a mod 4 * 16); pad; pad]
  | [a; b] =>
      [letter (a / 4); letter (a mod 4 * 16 + b / 16); letter (b mod 16 * 4); pad]
  | a :: b :: c :: rest =>
      letter (a / 4) :: letter (a mod 4 * 16 + b / 16)
      :: letter (b mod 16 * 4 + c / 64) :: letter (c mod 64) :: encode rest
  end.

Definition toBase64 (bytes : list Z) : string := String.string_of_list_ascii (encode bytes).

Definition isSpace (c : ascii) : bool :=
  let n := Ascii.nat_of_ascii c in
  (n =? 9)%nat || (n =? 10)%nat || (n =? 12)%nat || (n =? 13)%nat || (n =? 32)%nat.

(** One or two padding characters at the very end are dropped. *)
Fixpoint unpad (cs : list ascii) : list ascii :=
  match cs with
  | [] => []
  | [x] => if Ascii.eqb x pad then [] else [x]
  | [x; y] =>
      if Ascii.eqb y pad then (if Ascii.eqb x pad then [] else [x]) else [x; y]
  | x :: rest => x :: unpad rest
  end.

(** Four sextets as three bytes; the bits left over in a last group of
    two or three are dropped. *)
Fixpoint decode (sextets : list Z) : list Z :=
  match sextets with
  | s1 :: s2 :: s3 :: s4 :: rest =>
      (s1 * 4 + s2 / 16) :: (s2 mod 16 * 16 + s3 / 4) :: (s3 mod 4 * 64 + s4)
      :: decode rest
  | [s1; s2; s3] => [s1 * 4 + s2 / 16; s2 mod 16 * 16 + s3 / 4]
  | [s1; s2] => [s1 * 4 + s2 / 16]
  | _ => []
  end.

Definition invalidCharacter : JsThrown :=
  JsError "InvalidCharacterError" "The string to be decoded is not correctly encoded.".

Definition atob (text : string) : Outcome (list Z) :=
  let cs := List.filter (fun c => negb (isSpace c)) (String.list_ascii_of_string text) in
  let cs := if (length cs mod 4 =? 0)%nat then unpad cs else cs in
  if (length cs mod 4 =? 1)%nat then Throw invalidCharacter
  else
    match mapM value cs with
    | None => Throw invalidCharacter
    | Some sextets => Normal (decode sextets)
    end.

(** The sextets of the bytes, without padding. *)
Fixpoint sextets (bytes : list Z) : list Z :=
  match bytes with
  | [] => []
  | [a] => [a / 4; a mod 4 * 16]
  | [a; b] => [a / 4; a mod 4 * 16 + b / 16; b mod 16 * 4]
  | a :: b :: c :: rest =>
      a / 4 :: a mod 4 * 16 + b / 16 :: b mod 16 * 4 + c / 64 :: c mod 64
      :: sextets rest
  end.

End Base64.

Module Desk.
Import Stdlib.Strings.Ascii Extension.

Definition platform : Webview.Platform := {|
  Webview.toBase64 := Base64.toBase64;
  Webview.atob := Base64.atob;
  Webview.Time := Z;
  Webview.aSecondSince := fun now last => bool_decide (1000 <= now - last);
  Webview.indexSizeError :=
    JsError "IndexSizeError" "The source width or height is zero.";
  Webview.rangeError := JsError "RangeError" "offset is out of bounds";
|}.

(** What follows the last [sep] of a string. *)
Fixpoint afterLast (sep : ascii) (s : string) : option string :=
  match s with
  | EmptyString => None
  | String c rest =>
      match afterLast sep rest with
      | Some t => Some t
      | None => if Ascii.eqb c sep then Some rest else None
      end
  end.

Definition lower (c : ascii) : ascii :=
  let n := Ascii.nat_of_ascii c in
  if (65 <=? n)%nat && (n <=? 90)%nat then Ascii.ascii_of_nat (n + 32) else c.

Fixpoint lowered (s : string) : string :=
  match s with
  | EmptyString => EmptyString
  | String c rest => String (lower c) (lowered rest)
  end.

(** Node's [path] on the POSIX paths of this bench, which have no
    trailing separator and no dot segments. *)
Definition paths : Paths := {|
  basename := fun p => default p (afterLast "/" p);
  extname := fun p =>
    match default p (afterLast "/" p) with
    | String _ rest =>
        match afterLast "." rest with
        | Some e => String "." e
        | None => EmptyString
        end
    | EmptyString => EmptyString
    end;
  relative := fun from to =>
    let root := from +:+ "/" in
    if String.prefix root to
    then String.substring (String.length root)
                          (String.length to - String.length root)%nat to
    else to;
  toLowerCase := lowered;
|}.

Definition folder : Uri := {| fsPath := "/work" |}.
Definition top : Uri := {| fsPath := "/work/top.v" |}.
Definition sync : Uri := {| fsPath := "/work/lib/sync.sv" |}.

Definition disk (p : string) : Outcome string :=
  if decide (p = "/work/top.v") then Normal "module top; endmodule"
  else if decide (p = "/work/lib/sync.sv") then Normal "module sync; endmodule"
  else Throw (JsError "Error" "ENOENT: no such file or directory").

(** A folder of two files, the editor on one of them. *)
Definition editing : Workspace := {|
  activeTextEditor :=
    Some {| fileName := "/work/top.v"; uri := top;
            getText := "module top; endmodule" |};
  getWorkspaceFolder := fun _ => Some folder;
  findFiles := Normal [top; sync];
  findFilesIn := fun _ => Normal [top; sync];
  asRelativePath := fun u => @relative paths "/work" (fsPath u);
  showQuickPick := fun _ => Normal None;
  readFileSync := disk;
  readFile := fun u => disk (fsPath u);
|}.

(** No editor and no Verilog file. *)
Definition bare : Workspace := {|
  activeTextEditor := None;
  getWorkspaceFolder := fun _ => None;
  findFiles := Normal [];
  findFilesIn := fun _ => Normal [];
  asRelativePath := fsPath;
  showQuickPick := fun _ => Normal None;
  readFileSync := disk;
  readFile := fun u => disk (fsPath u);
|}.

(** What the command hands to [compileSources] in [editing]. *)
Definition gathered : Sources :=
  [("top.v", "module top; endmodule"); ("lib/sync.sv", "module sync; endmodule")].

(** A compilation that succeeds with one warning. *)
Definition cautious : Verilator.Toolchain :=
  Fixture.compiler
    {| Verilator.stderr := ["%Warning-WIDTH: top.v:1: Operator ASSIGN expects 8 bits"];
       Verilator.ending := Verilator.MainReturns;
       Verilator.xmlFile := Normal "<top/>" |}.

(** A second design: its signals never change, so neither sync signal
    ever toggles. *)
Definition flatDef : Sim.ModuleDef :=
  {| Sim.name := "FLAT"; Sim.ports := Sim.ports Fixture.vgaDef;
     Sim.signals := Sim.signals Fixture.vgaDef |}.

Definition flatExe : Sim.Executable := {| Sim.evaluate := fun v => Some v |}.

(** The kernel of the test bench over both designs. *)
Definition twoDesigns : Kernel := {|
  HDLModuleDef := Sim.ModuleDef;
  HDLModuleWASM := Sim.SimulationInstance;
  VGA_WIDTH := 8;
  VGA_HEIGHT := 4;
  detectTopModule := fun _ => "top";
  feedLines := map Fixture.diagnostic;
  parse := fun xml =>
    if decide (xml = "<top/>") then Normal {["TOP" := Fixture.vgaDef]}
    else if decide (xml = "<flat/>") then Normal {["TOP" := flatDef]}
    else Throw (JsError "Error" "unexpected token");
  construct := fun top _ =>
    match top with
    | Some d =>
        Normal {| Sim.moddef := d;
                  Sim.exe := if decide (Sim.name d = "FLAT") then flatExe
                             else Fixture.vgaExe;
                  Sim.bound := Fixture.vgaBound;
                  Sim.values := ∅; Sim.settled := false; Sim.cycle := 0 |}
    | None => Throw (JsError "TypeError" "moddef is undefined")
    end;
  init := fun i => (i, None);
  dispose := fun i => i;
  resetModule := Fixture.lift (Sim.reset 8 2);
  detectSyncPolarity := fun i =>
    match Sim.detectSyncPolarity 8 64 i with
    | Sim.Ok (i', p) => (i', Normal p)
    | Sim.Err k => (i, Throw (Fixture.fault k))
    end;
  skipToFrameBoundary := fun i p => Fixture.lift (Fixture.toBoundary 64 p) i;
  renderVGAFrame := fun i len p => Fixture.paint (len / 4) 0 i;
  nullFault := JsError "TypeError" "Cannot read properties of null";
|}.

(** A compilation of the second design that succeeds. *)
Definition flat : Verilator.Toolchain :=
  Fixture.compiler {| Verilator.stderr := []; Verilator.ending := Verilator.MainReturns;
                      Verilator.xmlFile := Normal "<flat/>" |}.

(** The command is run on the first design and, before that compilation
    is through, on the second.  The first call runs to its end and starts
    the loop; the second builds its module, and a queued [renderLoop]
    runs before and after the second call's [initModule] has settled. *)
Definition overlapping : list Input :=
  [Simulate Fixture.sources Fixture.good; Simulate Fixture.sources flat;
   Ready 0; AfterCompile 0; InitSettled 0; AfterInitModule 0;
   Ready 1; AfterCompile 1; Immediate; InitSettled 1; AfterInitModule 1;
   Immediate].

(** The command is run while an earlier call awaits [this.mod.init()],
    on sources the compiler leaves through [process.exit(1)]. *)
Definition reentered : list Input :=
  [Simulate Fixture.sources Fixture.good; Ready 0; AfterCompile 0;
   Simulate Fixture.sources Fixture.bad; InitSettled 0; AfterInitModule 0;
   Ready 1].

(** The design of the bench bound without its reset input, as it is
    after binding: every signal reads 0. *)
Definition unresettable : Sim.SimulationInstance :=
  {| Sim.moddef := Fixture.vgaDef; Sim.exe := Fixture.vgaExe;
     Sim.bound := {| Sim.clk := "clk"; Sim.rst := None;
                     Sim.hsync := "hsync"; Sim.vsync := "vsync" |};
     Sim.values := ∅; Sim.settled := false; Sim.cycle := 0 |}.

(** A single opaque pixel. *)
Definition pixel : list Z := [1; 2; 3; 255].

End Desk.


(** * Proofs *)

(** ** Weakest preconditions of synchronous code *)

Section WP.
Context {K : Kernel}.

Lemma wp_bind {A B} (m : Js A) (k : A -> Js B) Q w :
  wp (m ≫= k) Q w <->
  wp m (fun o w' => match o with
                    | Normal a => wp (k a) Q w'
                    | Throw e => Q (Throw e) w'
                    end) w.
Proof.
  unfold wp, mbind, Js_bind, bind. destruct (m w) as [w' [a|e]]; reflexivity.
Qed.

Lemma wp_ret {A} (a : A) Q w : wp (mret a) Q w <-> Q (Normal a) w.
Proof. reflexivity. Qed.
Lemma wp_ret' {A} (a : A) Q w : wp (ret a) Q w <-> Q (Normal a) w.
Proof. reflexivity. Qed.
Lemma wp_throw {A} e (Q : Outcome A -> World -> Prop) w : wp (throw e) Q w <-> Q (Throw e) w.
Proof. reflexivity. Qed.
Lemma wp_read {A} (f : World -> A) Q w : wp (read f) Q w <-> Q (Normal (f w)) w.
Proof. reflexivity. Qed.
Lemma wp_write f Q w : wp (write f) Q w <-> Q (Normal tt) (f w).
Proof. reflexivity. Qed.
Lemma wp_emit e Q w : wp (emit e) Q w <-> Q (Normal tt) (set_log (e :: log w) w).
Proof. reflexivity. Qed.
Lemma wp_tryCatch {A} (m : Js A) h Q w :
  wp (tryCatch m h) Q w <->
  wp m (fun o w' => match o with
                    | Normal a => Q (Normal a) w'
                    | Throw e => wp (h e) Q w'
                    end) w.
Proof.
  unfold wp, tryCatch. destruct (m w) as [w' [a|e]]; reflexivity.
Qed.
Lemma wp_mono {A} (m : Js A) (Q Q' : Outcome A -> World -> Prop) w :
  wp m Q w -> (forall o w', Q o w' -> Q' o w') -> wp m Q' w.
Proof. unfold wp. auto. Qed.


End WP.

Ltac wp_go :=
  repeat first
    [ rewrite wp_bind | rewrite wp_emit | rewrite wp_read | rewrite wp_write
    | rewrite wp_ret | rewrite wp_ret' | rewrite wp_throw | rewrite wp_tryCatch
    | progress cbn beta iota ].

Ltac wp_apply H :=
  eapply wp_mono;
  [eapply H; try first [assumption | reflexivity] | cbn beta; intros [?|?] ?].
Ltac wp_use H := wp_go; wp_apply H.

(** ** The invariant is kept by every callback *)

Section Kept.
Context {K : Kernel}.

Lemma established_push e l : established l -> established (e :: l).
Proof.
  intros [[p Hp] Hs]. split.
  - destruct e; simpl; eauto.
  - destruct e as [| | | | | | op | | | | | |]; simpl; auto. destruct op; auto.
Qed.

Lemma established_app evs l : established l -> established (evs ++ l).
Proof. induction evs; simpl; auto using established_push. Qed.

Lemma live_inert e w l : inert e w -> live (e :: l) = live l.
Proof. destruct e; simpl; tauto. Qed.

Lemma inFlight_inert e w l : inert e w -> inFlight (e :: l) = inFlight l.
Proof.
  destruct e as [| | | | |op t|op|op ?| | | | |]; simpl; try tauto.
  - intros [-> _]. reflexivity.
  - intros ->. reflexivity.
  - intros ->. reflexivity.
Qed.

Lemma polarityOf_inert e w l : inert e w -> polarityOf (e :: l) = polarityOf l.
Proof. destruct e; simpl; tauto. Qed.

Lemma notRender_inert e w :
  inert e w ->
  match e with Call op _ => isRender op = false | _ => True end.
Proof. destruct e; simpl; tauto. Qed.

Lemma Good_push e w : Good w -> inert e w -> Good (push e w).
Proof.
  intros [] He.
  pose proof (live_inert e w (log w) He) as Hl.
  pose proof (inFlight_inert e w (log w) He) as Hf.
  pose proof (polarityOf_inert e w (log w) He) as Hp.
  pose proof (notRender_inert e w He) as Hn.
  split; cbn [push log set_log mod_ syncPolarity running eachEvent].
  - split; [|assumption]. split.
    + rewrite Hl, good_live0. destruct (mod_ w); simpl; lia.
    + destruct e as [| | | | |op [id|]| | | | | | |]; simpl in He; try tauto.
      destruct He as [_ He]. rewrite good_live0, (He id eq_refl). simpl. left.
  - split; [|assumption]. split.
    + rewrite Hf. lia.
    + destruct e as [| | | | |op t| | | | | | |]; auto.
      destruct op; auto; discriminate.
  - split; [|assumption].
    destruct e as [| | | | |op t| | | | | | |]; simpl; auto.
    destruct op; auto; discriminate.
  - split; [|assumption].
    destruct e as [| | | | |op t| | | | | | |]; simpl; auto.
    destruct op; auto; discriminate.
  - rewrite Hl. assumption.
  - rewrite Hf. assumption.
  - rewrite Hp. assumption.
  - intros Hr. apply established_push; auto.
Qed.

Lemma Good_same w w' :
  log w' = log w -> mod_ w' = mod_ w -> syncPolarity w' = syncPolarity w ->
  running w' = running w -> Good w -> Good w'.
Proof.
  intros Hl Hm Hp Hr []. split; rewrite ?Hl, ?Hm, ?Hp, ?Hr; assumption.
Qed.

Lemma Good_set_heap h w : Good w -> Good (set_heap h w).
Proof. apply Good_same; reflexivity. Qed.
Lemma Good_set_immediates n w : Good w -> Good (set_immediates n w).
Proof. apply Good_same; reflexivity. Qed.
Lemma Good_set_process_exit x w : Good w -> Good (set_process_exit x w).
Proof. apply Good_same; reflexivity. Qed.
Lemma Good_set_hostGone x w : Good w -> Good (set_hostGone x w).
Proof. apply Good_same; reflexivity. Qed.

Lemma Good_stop w : Good w -> Good (set_running false w).
Proof. intros []. split; simpl; auto. discriminate. Qed.

Lemma Good_start w : Good w -> established (log w) -> Good (set_running true w).
Proof. intros [] He. split; simpl; auto. Qed.

Lemma Good_detect p m m' w :
  Good w -> detectSyncPolarity m = (m', Normal p) ->
  Good (set_syncPolarity p (push (Detected p) w)).
Proof.
  intros [] Hd. split; cbn [push log set_log set_syncPolarity mod_ syncPolarity running eachEvent].
  - split; [|assumption]. split; [|exact I].
    simpl. rewrite good_live0. destruct (mod_ w); simpl; lia.
  - split; [|assumption]. split; [|exact I]. simpl. lia.
  - split; [exact I|assumption].
  - split; [exact I|assumption].
  - assumption.
  - assumption.
  - simpl. intros q [= <-]. eauto.
  - intros Hr. apply established_push; auto.
Qed.

Lemma Good_render (ending : Event) p n id w :
  Good w -> running w = true -> mod_ w = Some id -> syncPolarity w = p ->
  (ending = Return (OpRender p n) \/ exists e, ending = Raise (OpRender p n) e) ->
  Good (push ending (push (Call (OpRender p n) (Some id)) w)).
Proof.
  intros [] Hr Hm Hp He.
  destruct (good_running0 Hr) as [[q Hq] Hs].
  destruct (good_field0 q Hq) as [Hq' Hk]. rewrite Hp in Hq'. subst q.
  assert (Hlive : live (ending :: Call (OpRender p n) (Some id) :: log w) = [id]).
  { destruct He as [-> | [e ->]]; simpl; rewrite good_live0, Hm; reflexivity. }
  assert (Hfl : inFlight (ending :: Call (OpRender p n) (Some id) :: log w) = 0%nat).
  { destruct He as [-> | [e ->]]; simpl; rewrite good_idle0; reflexivity. }
  split; cbn [push log set_log mod_ syncPolarity running eachEvent].
  - split; [|split; [|assumption]].
    + split; [rewrite Hlive; simpl; lia|]. destruct He as [-> | [e ->]]; exact I.
    + split; simpl; rewrite good_live0, Hm; simpl; [lia|left].
  - split; [|split; [|assumption]].
    + split; [rewrite Hfl; lia|]. destruct He as [-> | [e ->]]; exact I.
    + split; simpl; rewrite good_idle0; auto.
  - split; [|split; [|assumption]].
    + destruct He as [-> | [e ->]]; exact I.
    + simpl. auto.
  - split; [|split; [|assumption]].
    + destruct He as [-> | [e ->]]; exact I.
    + simpl. assumption.
  - rewrite Hlive, Hm. reflexivity.
  - assumption.
  - destruct He as [-> | [e ->]]; simpl; assumption.
  - intros _. do 2 apply established_push. split; eauto.
Qed.

Lemma Good_dispose id w :
  Good w -> mod_ w = Some id ->
  Good (set_mod_ None (push (Disposed id) w)).
Proof.
  intros [] Hm.
  assert (Hlive : live (Disposed id :: log w) = []).
  { cbn [live]. rewrite good_live0, Hm. change (option_list (Some id)) with [id]. rewrite filter_cons_False by tauto. reflexivity. }
  split; cbn [push log set_log set_mod_ mod_ syncPolarity running eachEvent].
  - split; [|assumption]. split; [rewrite Hlive; simpl; lia|].
    rewrite good_live0, Hm. simpl. left.
  - split; [|assumption]. split; [|exact I]. simpl. lia.
  - split; [exact I|assumption].
  - split; [exact I|assumption].
  - rewrite Hlive. reflexivity.
  - assumption.
  - assumption.
  - intros Hr. apply established_push; auto.
Qed.

Lemma Good_construct id w :
  Good w -> mod_ w = None ->
  Good (set_mod_ (Some id) (push (Constructed id) w)).
Proof.
  intros [] Hm.
  assert (Hlive : live (Constructed id :: log w) = [id]).
  { simpl. rewrite good_live0, Hm. reflexivity. }
  split; cbn [push log set_log set_mod_ mod_ syncPolarity running eachEvent].
  - split; [|assumption]. split; [rewrite Hlive; simpl; lia|exact I].
  - split; [|assumption]. split; [|exact I]. simpl. lia.
  - split; [exact I|assumption].
  - split; [exact I|assumption].
  - rewrite Hlive. reflexivity.
  - assumption.
  - assumption.
  - intros Hr. apply established_push; auto.
Qed.

Lemma grows_refl w : grows w w.
Proof. exists []. reflexivity. Qed.

Lemma grows_trans w1 w2 w3 : grows w1 w2 -> grows w2 w3 -> grows w1 w3.
Proof.
  intros [a Ha] [b Hb]. exists (b ++ a). rewrite Hb, Ha. apply app_assoc.
Qed.

Lemma grows_push e w : grows w (push e w).
Proof. exists [e]. reflexivity. Qed.

Lemma grows_same w w' w'' : log w'' = log w' -> grows w w' -> grows w w''.
Proof. intros E [a Ha]. exists a. congruence. Qed.

Lemma grows_from w0 w w' : log w0 = log w -> grows w0 w' -> grows w w'.
Proof. intros E [a Ha]. exists a. congruence. Qed.

Lemma grows_established w w' : grows w w' -> established (log w) -> established (log w').
Proof. intros [evs ->]. apply established_app. Qed.

Lemma polarityOf_app evs l : is_Some (polarityOf l) -> is_Some (polarityOf (evs ++ l)).
Proof.
  intros H. induction evs as [|e evs IH]; simpl; auto. destruct e; simpl; eauto.
Qed.

Lemma synced_app evs l : synced l = true -> synced (evs ++ l) = true.
Proof.
  intros H. induction evs as [|e evs IH]; simpl; auto.
  destruct e as [| | | | | |op| | | | | |]; simpl; auto. destruct op; auto.
Qed.

(** A kernel operation other than a render, on [this.mod]. *)
Lemma onModule_keeps {A} op (f : HDLModuleWASM -> HDLModuleWASM * Outcome A) w :
  Good w -> isRender op = false ->
  wp (onModule op (mod_ w) f)
     (fun o w' => Good w' /\ grows w w' /\ sameFields w w' /\
        match o with
        | Normal a => log w' = Return op :: Call op (mod_ w) :: log w /\
                      exists x x', f x = (x', Normal a)
        | Throw _ => True
        end) w.
Proof.
  intros Hg Hop. unfold onModule. wp_go.
  assert (Hc : Good (push (Call op (mod_ w)) w)).
  { apply Good_push; [assumption|]. split; auto. }
  assert (Hraise : forall e h,
    let w' := set_log (Raise op e :: log (set_heap h (push (Call op (mod_ w)) w)))
                (set_heap h (push (Call op (mod_ w)) w)) in
    Good w' /\ grows w w' /\ sameFields w w' /\ True).
  { intros e h. split; [|split; [|split]]; auto.
    - apply (Good_push (Raise op e)); [apply Good_set_heap; assumption | exact Hop].
    - exists [Raise op e; Call op (mod_ w)]. reflexivity.
    - repeat split. }
  destruct (mod_ w) as [id|] eqn:Hm.
  - destruct (heap (set_log _ w) !! id) as [m|] eqn:Hh.
    + destruct (f m) as [m' [a|e]] eqn:Hf; wp_go.
      * split; [|split; [|split; [|split]]].
        -- apply (Good_push (Return op)); [apply Good_set_heap; assumption | exact Hop].
        -- exists [Return op; Call op (Some id)]. reflexivity.
        -- repeat split.
        -- reflexivity.
        -- eauto.
      * apply (Hraise e).
    + wp_go. pose proof (Hraise nullFault (heap w)) as H. exact H.
  - wp_go. pose proof (Hraise nullFault (heap w)) as H. exact H.
Qed.

Lemma call_resetModule_keeps w :
  Good w ->
  wp call_resetModule (fun _ w' => Good w' /\ grows w w' /\ sameFields w w') w.
Proof.
  intros Hg. unfold call_resetModule. wp_go.
  wp_use @onModule_keeps; tauto.
Qed.

Lemma call_detectSyncPolarity_keeps w :
  Good w ->
  wp call_detectSyncPolarity
     (fun o w' => Good w' /\ grows w w' /\ mod_ w' = mod_ w /\ running w' = running w /\
        match o with
        | Normal _ => is_Some (polarityOf (log w'))
        | Throw _ => True
        end) w.
Proof.
  intros Hg. unfold call_detectSyncPolarity. wp_go.
  wp_use @onModule_keeps.
  - intros (Hg' & Hgr & (Hm & Hr & Hp) & Hl & (x & x' & Hx)). wp_go.
    split; [|split; [|split; [|split]]].
    + eapply Good_detect; eauto.
    + eapply grows_trans; [exact Hgr|]. apply grows_push.
    + exact Hm.
    + exact Hr.
    + simpl. eauto.
  - intros (Hg' & Hgr & (Hm & Hr & Hp) & _). auto.
Qed.

Lemma call_skipToFrameBoundary_keeps w :
  Good w ->
  wp call_skipToFrameBoundary
     (fun o w' => Good w' /\ grows w w' /\ sameFields w w' /\
        match o with
        | Normal _ => synced (log w') = true
        | Throw _ => True
        end) w.
Proof.
  intros Hg. unfold call_skipToFrameBoundary. wp_go.
  wp_use @onModule_keeps.
  - intros (Hg' & Hgr & Hs & Hl & _). rewrite Hl. auto.
  - intros (Hg' & Hgr & Hs & _). auto.
Qed.

Lemma grows_polarity w w' :
  grows w w' -> is_Some (polarityOf (log w)) -> is_Some (polarityOf (log w')).
Proof. intros [evs ->]. apply polarityOf_app. Qed.

Lemma establishPolarity_keeps w :
  Good w ->
  wp establishPolarity
     (fun o w' => Good w' /\ grows w w' /\
        match o with
        | Normal _ => established (log w')
        | Throw _ => True
        end) w.
Proof.
  intros Hg. unfold establishPolarity. wp_go.
  wp_use call_resetModule_keeps; intros (Hg1 & Hgr1 & _); [|auto].
  wp_use call_detectSyncPolarity_keeps; intros (Hg2 & Hgr2 & _ & _ & Hp); [|eauto using grows_trans].
  wp_use call_resetModule_keeps; intros (Hg3 & Hgr3 & _); [|eauto 6 using grows_trans].
  wp_use call_skipToFrameBoundary_keeps; intros (Hg4 & Hgr4 & _ & Hs); [|eauto 8 using grows_trans].
  split; [assumption|]. split; [eauto 8 using grows_trans|].
  split; [|assumption].
  eapply grows_polarity; [|exact Hp]. eauto using grows_trans.
Qed.

Lemma call_renderVGAFrame_keeps px w :
  Good w -> running w = true -> is_Some (mod_ w) ->
  wp (call_renderVGAFrame px)
     (fun o w' => Good w' /\ grows w w' /\
        match o with
        | Normal px' => exists ws, px' = stores px ws
        | Throw _ => True
        end) w.
Proof.
  intros Hg Hr [id Hm]. unfold call_renderVGAFrame, onModule. wp_go.
  rewrite Hm.
  set (op := OpRender (syncPolarity w) (length px)).
  assert (Hend : forall ending h,
    ending = Return op \/ (exists e, ending = Raise op e) ->
    let w' := set_log (ending :: log (set_heap h (push (Call op (Some id)) w)))
                (set_heap h (push (Call op (Some id)) w)) in
    Good w' /\ grows w w').
  { intros ending h He. split.
    - apply (Good_same (push ending (push (Call op (Some id)) w))); try reflexivity.
      eapply Good_render; eauto.
    - exists [ending; Call op (Some id)]. reflexivity. }
  destruct (heap (set_log _ w) !! id) as [m|] eqn:Hh.
  - destruct (renderVGAFrame m (length px) (syncPolarity w)) as [[m' ws] [e|]] eqn:Hf; wp_go.
    + destruct (Hend (Raise op e) (<[id:=m']> (heap w))) as [H1 H2]; eauto.
    + destruct (Hend (Return op) (<[id:=m']> (heap w))) as [H1 H2]; eauto.
  - wp_go. destruct (Hend (Raise op nullFault) (heap w)) as [H1 H2]; eauto.
Qed.

Lemma renderLoop_keeps : keeps renderLoop.
Proof.
  intros w Hg. unfold renderLoop. wp_go.
  destruct (running w) eqn:Hr; cbn [negb orb]; [|wp_go; auto using grows_refl].
  destruct (mod_ w) as [id|] eqn:Hm;
    [|rewrite bool_decide_eq_false_2 by (intros [? ?]; discriminate);
      cbn [negb]; wp_go; auto using grows_refl].
  rewrite bool_decide_eq_true_2 by eauto. cbn [negb]. wp_go.
  wp_use call_renderVGAFrame_keeps.
  - rewrite Hm. eauto.
  - intros (Hg1 & Hgr1 & _). wp_go. unfold postMessage. wp_go.
    assert (Hg2 : Good (push (Posted (frame VGA_WIDTH VGA_HEIGHT a)) w')).
    { apply Good_push; [auto|exact I]. }
    cbn [running set_log]. destruct (running w'); wp_go.
    + split.
      * apply Good_set_immediates. apply (Good_push SetImmediate); [auto|exact I].
      * eapply grows_trans; [exact Hgr1|]. eapply grows_trans; apply grows_push.
    + split; auto. eapply grows_trans; [exact Hgr1|]. apply grows_push.
  - intros (Hg1 & Hgr1 & _). unfold postMessage. wp_go. split.
    + apply Good_stop. apply Good_push; [auto|exact I].
    + eapply grows_trans; [exact Hgr1|]. apply grows_push.
Qed.

Lemma startSimulation_keeps w :
  Good w -> established (log w) ->
  wp startSimulation (fun _ w' => Good w' /\ grows w w') w.
Proof.
  intros Hg He. unfold startSimulation. wp_go.
  destruct (negb (bool_decide (is_Some (mod_ w))) || running w); wp_go.
  - auto using grows_refl.
  - wp_use renderLoop_keeps.
    + apply Good_start; assumption.
    + intros [? Hgr]. split; [assumption|]. exact (grows_from _ w _ eq_refl Hgr).
    + intros [? Hgr]. split; [assumption|]. exact (grows_from _ w _ eq_refl Hgr).
Qed.

Lemma disposeModule_keeps id w :
  Good w -> mod_ w = Some id ->
  wp (disposeModule id;; write (set_mod_ None))
     (fun _ w' => Good w' /\ grows w w' /\ mod_ w' = None) w.
Proof.
  intros Hg Hm. unfold disposeModule. wp_go. split; [|split].
  - apply (Good_same (set_mod_ None (push (Disposed id) w))); try reflexivity.
    apply Good_dispose; assumption.
  - exists [Disposed id]. reflexivity.
  - reflexivity.
Qed.

Lemma disposePanel_keeps : keeps disposePanel.
Proof.
  intros w Hg. unfold disposePanel. wp_go.
  destruct (mod_ (set_running false w)) as [id|] eqn:Hm; cbn [mod_ set_running] in Hm.
  - wp_apply disposeModule_keeps.
    + apply Good_stop; assumption.
    + intros (Hg1 & Hgr1 & _). wp_go. split.
      * apply Good_push; [auto|exact I].
      * eapply grows_trans; [|apply grows_push]. exact (grows_from _ w _ eq_refl Hgr1).
    + intros (Hg1 & Hgr1 & _). split; auto.
  - wp_go. split.
    + apply (Good_push PanelDispose); [apply Good_stop; assumption|exact I].
    + exists [PanelDispose]. reflexivity.
Qed.

Lemma onDidReceiveMessage_keeps command : keeps (onDidReceiveMessage command).
Proof.
  intros w Hg. unfold onDidReceiveMessage, stopSimulation.
  destruct (decide (command = "stop")).
  { wp_go. split; [apply Good_stop; assumption|exists []; reflexivity]. }
  destruct (decide (command = "reset")); [|wp_go; auto using grows_refl].
  wp_go. destruct (bool_decide (is_Some (mod_ w))); [|wp_go; auto using grows_refl].
  wp_use establishPolarity_keeps; tauto.
Qed.

Lemma new_HDLModuleWASM_keeps top constpool w :
  Good w -> mod_ w = None ->
  wp (new_HDLModuleWASM top constpool ≫= fun id => write (set_mod_ (Some id));; mret id)
     (fun o w' => Good w' /\ grows w w' /\
        match o with
        | Normal id => mod_ w' = Some id
        | Throw _ => True
        end) w.
Proof.
  intros Hg Hm. unfold new_HDLModuleWASM. wp_go.
  assert (Hn : Good (push (New top constpool) w)) by (apply Good_push; [auto|exact I]).
  destruct (construct top constpool) as [m|e]; wp_go.
  - split; [|split].
    + apply (Good_same (set_mod_ (Some (length (heap w)))
                          (push (Constructed (length (heap w))) (push (New top constpool) w))));
        try reflexivity.
      apply Good_construct; assumption.
    + exists [Constructed (length (heap w)); New top constpool]. reflexivity.
    + reflexivity.
  - split; [assumption|]. split; [apply grows_push|exact I].
Qed.

Lemma initModule_start_keeps modules w :
  Good w ->
  wp (initModule_start modules) (fun _ w' => Good w' /\ grows w w') w.
Proof.
  intros Hg. unfold initModule_start. wp_go.
  assert (Hrest : forall w1, Good w1 -> grows w w1 -> mod_ w1 = None ->
    wp (new_HDLModuleWASM (modules !! "TOP")
          (orElse (modules !! "@CONST-POOL@") (modules !! "__Vconst"))
        ≫= fun id => write (set_mod_ (Some id));;
                     emit (Call OpInit (Some id));; ret id)
       (fun _ w' => Good w' /\ grows w w') w1).
  { intros w1 Hg1 Hgr1 Hm1.
    pose proof (new_HDLModuleWASM_keeps (modules !! "TOP")
      (orElse (modules !! "@CONST-POOL@") (modules !! "__Vconst")) w1 Hg1 Hm1) as H.
    rewrite wp_bind in H. rewrite wp_bind.
    eapply wp_mono; [exact H|]. cbn beta. intros [id|e] w2; wp_go.
    - intros (Hg2 & Hgr2 & Hm2). split.
      + apply Good_push; [assumption|]. split; [reflexivity|]. intros ? [= <-]. exact Hm2.
      + eapply grows_trans; [exact Hgr1|]. eapply grows_trans; [exact Hgr2|]. apply grows_push.
    - intros (Hg2 & Hgr2 & _). split; [assumption|]. eapply grows_trans; eassumption. }
  destruct (mod_ w) as [id|] eqn:Hm.
  - wp_apply disposeModule_keeps.
    + intros (Hg1 & Hgr1 & Hm1). apply Hrest; assumption.
    + intros (Hg1 & Hgr1 & Hm1). auto.
  - rewrite wp_ret'. cbn beta iota. apply Hrest; auto using grows_refl.
Qed.

Lemma initModule_resume_keeps id w :
  Good w ->
  wp (initModule_resume id)
     (fun o w' => Good w' /\ grows w w' /\
        match o with
        | Normal _ => established (log w')
        | Throw _ => True
        end) w.
Proof.
  intros Hg. unfold initModule_resume. wp_go.
  destruct (heap w !! id) as [m|]; [|wp_go; auto using grows_refl].
  destruct (init m) as [m' [e|]]; wp_go.
  - split; [|split; [|exact I]].
    + apply (Good_push (Raise OpInit e)); [apply Good_set_heap; assumption|reflexivity].
    + exists [Raise OpInit e]. reflexivity.
  - wp_apply establishPolarity_keeps.
    + apply (Good_push (Return OpInit)); [apply Good_set_heap; assumption|reflexivity].
    + intros (Hg1 & Hgr1 & He). split; [assumption|]. split; [|assumption].
      eapply grows_trans; [|exact Hgr1]. exists [Return OpInit]. reflexivity.
    + intros (Hg1 & Hgr1 & _). split; [assumption|]. split; [|exact I].
      eapply grows_trans; [|exact Hgr1]. exists [Return OpInit]. reflexivity.
Qed.

Lemma catch_finally_keeps e o : keeps (catch_ e;; finally_ o).
Proof.
  intros w Hg. unfold catch_, finally_, postMessage. wp_go. split.
  - apply Good_set_process_exit. apply Good_push; [auto|exact I].
  - exists [Posted (error ("Error: " +:+ messageOf e))]. reflexivity.
Qed.

Lemma stageReady_grows st w w' : grows w w' -> stageReady st w -> stageReady st w'.
Proof.
  destruct st as [| | |o [e|]|]; simpl; auto. apply grows_established.
Qed.

Lemma begin_keeps sources tc w :
  Good w ->
  let r := compileSources_begin sources tc w in
  Good r.1 /\ grows w r.1 /\ stageReady r.2 r.1.
Proof.
  intros Hg. unfold compileSources_begin.
  assert (Hw : Good (set_process_exit Verilator.throwingExit
                 (push (Posted (status "Compiling...")) (set_running false w)))).
  { apply Good_set_process_exit. apply Good_push; [apply Good_stop; assumption|exact I]. }
  assert (Hgr : grows w (set_process_exit Verilator.throwingExit
                 (push (Posted (status "Compiling...")) (set_running false w)))).
  { exists [Posted (status "Compiling...")]. reflexivity. }
  change ((stopSimulation;; postMessage (status "Compiling...")) w)
    with (push (Posted (status "Compiling...")) (set_running false w), @Normal unit tt).
  cbv beta iota zeta.
  destruct (Verilator.compileVerilator_start tc); cbn [fst snd stageReady]; auto.
Qed.

Lemma settle_keeps o tc opts w :
  Good w ->
  let r := compileVerilator_settle o tc opts w in
  Good r.1 /\ grows w r.1 /\ stageReady r.2 r.1.
Proof.
  intros Hg. unfold compileVerilator_settle.
  destruct (Verilator.compileVerilator_resume _ _ _ _ _) as [r|code]; cbn.
  - auto using grows_refl.
  - split; [|split; [|exact I]].
    + apply Good_set_hostGone. apply (Good_push (Exited code)); [auto|exact I].
    + exists [Exited code]. reflexivity.
Qed.

Lemma afterCompile_keeps o res w :
  Good w ->
  let r := compileSources_afterCompile o res w in
  Good r.1 /\ grows w r.1 /\ stageReady r.2 r.1.
Proof.
  intros Hg. unfold compileSources_afterCompile.
  destruct res as [res|e].
  - destruct (Verilator.output res) as [modules|].
    + match goal with |- context [initModule_start modules ?w1] =>
        assert (Hw1 : Good w1 /\ grows w w1) end.
      { case_bool_decide.
        - split; [apply Good_push; [auto|exact I]|]. eexists [_]. reflexivity.
        - auto using grows_refl. }
      destruct Hw1 as [Hg1 Hgr1].
      pose proof (initModule_start_keeps modules _ Hg1) as H. unfold wp in H.
      destruct (initModule_start modules _) as [w2 [id|e]]; cbn in *;
        destruct H as [Hg2 Hgr2]; eauto using grows_trans.
    + cbn. unfold postMessage, finally_.
      match goal with |- context [(?m w).1] =>
        assert (H : wp m (fun _ w' => Good w' /\ grows w w') w) end.
      { wp_go. split.
        - apply Good_set_process_exit. apply Good_push; [auto|exact I].
        - eexists [_]. reflexivity. }
      unfold wp in H. tauto.
  - cbn. pose proof (catch_finally_keeps e o w Hg) as H. unfold wp in H. tauto.
Qed.

Lemma initSettle_keeps o id w :
  Good w ->
  let r := initModule_settle o id w in
  Good r.1 /\ grows w r.1 /\ stageReady r.2 r.1.
Proof.
  intros Hg. unfold initModule_settle.
  pose proof (initModule_resume_keeps id w Hg) as H. unfold wp in H.
  destruct (initModule_resume id w) as [w' [a|e]]; cbn in *; tauto.
Qed.

Lemma afterInitModule_keeps o res w :
  Good w -> stageReady (AwaitInitModule o res) w ->
  let r := compileSources_afterInitModule o res w in
  Good r.1 /\ grows w r.1 /\ stageReady r.2 r.1.
Proof.
  intros Hg Hs. unfold compileSources_afterInitModule. cbn [fst snd].
  match goal with |- context [(?m w).1] =>
    assert (H : wp m (fun _ w' => Good w' /\ grows w w') w) end.
  { destruct res as [e|]; wp_go.
    - unfold catch_, finally_, postMessage. wp_go. split.
      + apply Good_set_process_exit. apply Good_push; [auto|exact I].
      + eexists [_]. reflexivity.
    - unfold postMessage. wp_go.
      wp_apply startSimulation_keeps.
      + apply Good_push; [auto|exact I].
      + intros [Hg1 Hgr1]. unfold finally_. wp_go. split.
        * apply Good_set_process_exit; assumption.
        * eapply grows_trans; [|exact Hgr1]. eexists [_]. reflexivity.
      + intros [Hg1 Hgr1]. unfold catch_, finally_, postMessage. wp_go. split.
        * apply Good_set_process_exit. apply Good_push; [auto|exact I].
        * eapply grows_trans; [|apply grows_push].
          eapply grows_trans; [|exact Hgr1]. eexists [_]. reflexivity. }
  unfold wp in H. cbn. tauto.
Qed.

Lemma segment_keeps i st seg w :
  segment i st = Some seg -> Good w -> stageReady st w ->
  Good (seg w).1 /\ grows w (seg w).1 /\ stageReady (seg w).2 (seg w).1.
Proof.
  intros Hseg Hg Hs.
  destruct i, st; simpl in Hseg; try discriminate; injection Hseg as <-.
  - apply settle_keeps; assumption.
  - apply afterCompile_keeps; assumption.
  - apply initSettle_keeps; assumption.
  - apply afterInitModule_keeps; assumption.
Qed.

Lemma handler_keeps (m : Js unit) w :
  keeps m -> Good w -> Good (handler m w) /\ grows w (handler m w).
Proof.
  intros Hm Hg. unfold handler. pose proof (Hm w Hg) as H. unfold wp in H.
  destruct (m w) as [w' [a|e]]; cbn in *; [tauto|].
  destruct H as [Hg' Hgr]. split.
  - apply (Good_push (Uncaught e)); [auto|exact I].
  - eapply grows_trans; [exact Hgr|]. apply grows_push.
Qed.

Lemma Sound_boot : Sound boot.
Proof.
  split.
  - split; simpl; auto; try discriminate.
  - intros c st H. discriminate.
Qed.

Lemma Sound_onWorld f sys :
  Sound sys -> Good (f (world sys)) -> grows (world sys) (f (world sys)) ->
  Sound (onWorld f sys).
Proof.
  intros [Hg Hc] Hg' Hgr. split; [exact Hg'|].
  intros c st H. eapply stageReady_grows; [exact Hgr|]. eauto.
Qed.

Lemma Sound_step sys i : Sound sys -> Sound (step sys i).
Proof.
  intros Hs. pose proof Hs as [Hg Hc]. unfold step.
  destruct (hostGone (world sys)); [assumption|].
  assert (Hres : forall c, Sound (resume i c sys)).
  { intros c. unfold resume.
    destruct (calls sys !! c) as [st|] eqn:Hst; simpl; [|assumption].
    destruct (segment i st) as [seg|] eqn:Hseg; [|assumption].
    destruct (segment_keeps i st seg (world sys) Hseg Hg (Hc c st Hst)) as (Hg' & Hgr & Hs').
    destruct (seg (world sys)) as [w' st']. cbn in *. split; [assumption|].
    intros c' st'' H. cbn in H.
    destruct (decide (c = c')) as [<-|Hne].
    - rewrite list_lookup_insert_eq in H by (eapply lookup_lt_Some; eassumption).
      injection H as <-. assumption.
    - rewrite list_lookup_insert_ne in H by assumption.
      eapply stageReady_grows; [exact Hgr|]. eauto. }
  destruct i; auto.
  - pose proof (begin_keeps sources tc (world sys) Hg) as (Hg' & Hgr & Hs').
    destruct (compileSources_begin sources tc (world sys)) as [w' st]. cbn in *.
    split; [assumption|]. intros c st' H. cbn in H.
    apply lookup_app_Some in H as [H|[_ H]].
    + eapply stageReady_grows; [exact Hgr|]. eauto.
    + apply list_lookup_singleton_Some in H as [_ <-]. assumption.
  - destruct (handler_keeps (onDidReceiveMessage command) (world sys)
                (onDidReceiveMessage_keeps command) Hg).
    apply Sound_onWorld; assumption.
  - destruct (immediates (world sys)) as [|n] eqn:Hn; [assumption|].
    destruct (handler_keeps renderLoop (set_immediates n (world sys))
                renderLoop_keeps (Good_set_immediates n _ Hg)) as [Hg' Hgr].
    apply (Sound_onWorld (fun w => handler renderLoop (set_immediates n w)));
      [assumption|assumption|].
    exact (grows_from _ (world sys) _ eq_refl Hgr).
  - destruct (handler_keeps disposePanel (world sys) disposePanel_keeps Hg).
    apply Sound_onWorld; assumption.
Qed.

Lemma Sound_run inputs sys : Sound sys -> Sound (run sys inputs).
Proof.
  revert sys. induction inputs as [|i inputs IH]; intros sys Hs; [assumption|].
  apply IH. apply Sound_step. assumption.
Qed.


End Kept.

(** ** The host process is left alone *)

Section HostFrame.
Context {K : Kernel}.

Lemma hostFrame_bind {A B} (m : Js A) (k : A -> Js B) :
  hostFrame m -> (forall a, hostFrame (k a)) -> hostFrame (m ≫= k).
Proof.
  intros Hm Hk w. rewrite wp_bind. eapply wp_mono; [apply Hm|].
  cbn beta. intros [a|e] w' H; [|exact H].
  eapply wp_mono; [apply Hk|]. cbn beta. intros _ w'' H'. congruence.
Qed.

Lemma hostFrame_ret {A} (a : A) : hostFrame (ret a).
Proof. intros w. reflexivity. Qed.
Lemma hostFrame_mret {A} (a : A) : hostFrame (mret a).
Proof. intros w. reflexivity. Qed.
Lemma hostFrame_throw {A} e : hostFrame (@throw _ A e).
Proof. intros w. reflexivity. Qed.
Lemma hostFrame_read {A} (f : World -> A) : hostFrame (read f).
Proof. intros w. reflexivity. Qed.
Lemma hostFrame_emit e : hostFrame (emit e).
Proof. intros w. reflexivity. Qed.
Lemma hostFrame_tryCatch {A} (m : Js A) h :
  hostFrame m -> (forall e, hostFrame (h e)) -> hostFrame (tryCatch m h).
Proof.
  intros Hm Hh w. rewrite wp_tryCatch. eapply wp_mono; [apply Hm|].
  cbn beta. intros [a|e] w' H; [exact H|].
  eapply wp_mono; [apply Hh|]. cbn beta. intros _ w'' H'. congruence.
Qed.
Lemma hostFrame_write f : (forall w, host (f w) = host w) -> hostFrame (write f).
Proof. intros H w. apply H. Qed.

End HostFrame.

Ltac host_frame :=
  repeat first
    [ apply hostFrame_bind; [|intros ?]
    | apply hostFrame_ret | apply hostFrame_mret | apply hostFrame_throw
    | apply hostFrame_read | apply hostFrame_emit
    | apply hostFrame_tryCatch; [|intros ?]
    | apply hostFrame_write; intros ?; reflexivity
    | match goal with
      | |- hostFrame (match ?x with _ => _ end) => destruct x
      | |- hostFrame (if ?x then _ else _) => destruct x
      | |- hostFrame (let '(_, _) := ?x in _) => destruct x
      end
    | assumption ].

Section HostFrames.
Context {K : Kernel}.

Lemma onModule_host {A} op target (f : HDLModuleWASM -> HDLModuleWASM * Outcome A) :
  hostFrame (onModule op target f).
Proof. unfold onModule. host_frame. Qed.

Lemma establishPolarity_host : hostFrame establishPolarity.
Proof.
  unfold establishPolarity, call_resetModule, call_detectSyncPolarity,
    call_skipToFrameBoundary.
  host_frame; try apply onModule_host.
Qed.

Lemma renderLoop_host : hostFrame renderLoop.
Proof.
  unfold renderLoop, call_renderVGAFrame, postMessage.
  host_frame; try apply onModule_host.
Qed.

Lemma startSimulation_host : hostFrame startSimulation.
Proof. unfold startSimulation. host_frame; try apply renderLoop_host. Qed.

Lemma initModule_start_host modules : hostFrame (initModule_start modules).
Proof.
  unfold initModule_start, disposeModule, new_HDLModuleWASM. host_frame.
Qed.

Lemma initModule_resume_host id : hostFrame (initModule_resume id).
Proof.
  unfold initModule_resume. host_frame; try apply establishPolarity_host.
Qed.

End HostFrames.

(** ** compile.ts *)

Section CompileTs.
Context {X : Type}.
Variable feedLines : list string -> list Verilator.ErrorEntry.
Variable parse : string -> Outcome X.
Import Verilator.

Lemma filter_errors_nil errs :
  filter (fun e => type e = error) errs = [] <-> noErrors errs.
Proof.
  unfold noErrors. induction errs as [|d errs IH]; [split; constructor|].
  rewrite filter_cons. case_decide as Hd.
  - split; [discriminate|]. intros H. inversion H; subst. contradiction.
  - rewrite IH. split.
    + intros H. constructor; assumption.
    + intros H. inversion H; assumption.
Qed.

Lemma noErrors_crash errs prefix e : ~ noErrors (errs ++ [crashEntry prefix e]).
Proof.
  unfold noErrors. rewrite Forall_app, Forall_singleton. intros [_ H]. apply H. reflexivity.
Qed.

Lemma finish_spec errs run :
  let r := finish parse errs run in
  (is_Some (output r) <-> noErrors (errors r)) /\
  (forall d, d ∈ errs -> d ∈ errors r) /\
  (noErrors errs ->
     match xmlFile run with
     | Throw e => errors r = errs ++ [crashEntry "XML parsing failed: " e]
     | Normal xmlContent =>
         match parse xmlContent with
         | Throw e => errors r = errs ++ [crashEntry "XML parsing failed: " e]
         | Normal x => errors r = errs /\ output r = Some x
         end
     end).
Proof.
  unfold finish.
  destruct (length (filter _ errs) =? 0)%nat eqn:Hlen; cbn [negb].
  - apply Nat.eqb_eq, length_zero_iff_nil, filter_errors_nil in Hlen.
    destruct (xmlFile run) as [xmlContent|e]; [destruct (parse xmlContent) as [x|e]|];
      cbn [errors output]; (split; [|split]); auto.
    + split; [auto|eauto].
    + split; [intros [? [=]]|]. intros H. destruct (noErrors_crash _ _ _ H).
    + intros d Hd. apply elem_of_app. auto.
    + split; [intros [? [=]]|]. intros H. destruct (noErrors_crash _ _ _ H).
    + intros d Hd. apply elem_of_app. auto.
  - apply Nat.eqb_neq in Hlen. cbn [errors output].
    assert (Hn : ~ noErrors errs).
    { intros H. apply Hlen. apply filter_errors_nil in H. rewrite H. reflexivity. }
    split; [|split]; auto.
    + split; [intros [? [=]]|contradiction].
    + contradiction.
Qed.

End CompileTs.

(** ** One call of [compileSources], awaited *)

Section Awaited.
Context {K : Kernel}.

Lemma resume_never_exits tc opts :
  match Verilator.compileVerilator_resume feedLines parse Verilator.throwingExit tc opts with
  | Verilator.HostTerminated _ => False
  | Verilator.Settled _ => True
  end.
Proof.
  unfold Verilator.compileVerilator_resume, Verilator.runMain.
  destruct (Verilator.readyFault tc); [exact I|].
  destruct (Verilator.fsFault tc); [exact I|].
  destruct (Verilator.ending _); exact I.
Qed.

Lemma host_of {A} (m : Js A) w : hostFrame m -> host (m w).1 = host w.
Proof. intros H. exact (H w). Qed.

Lemma segment_onTrack i st seg w original :
  segment i st = Some seg ->
  hostGone w = false ->
  match st with
  | Finished => True
  | AwaitReady o _ _ | AwaitCompile o _ | AwaitInit o _ | AwaitInitModule o _ =>
      o = original /\ process_exit w = Verilator.throwingExit
  end ->
  hostGone (seg w).1 = false /\ (S (rank st) <= rank (seg w).2)%nat /\
  match (seg w).2 with
  | Finished => process_exit (seg w).1 = original
  | AwaitReady o _ _ | AwaitCompile o _ | AwaitInit o _ | AwaitInitModule o _ =>
      o = original /\ process_exit (seg w).1 = Verilator.throwingExit
  end.
Proof.
  intros Hseg Hgone Hst.
  destruct i, st; simpl in Hseg; try discriminate; injection Hseg as <-;
    destruct Hst as [-> Hexit]; cbn [rank].
  - unfold compileVerilator_settle. rewrite Hexit.
    pose proof (resume_never_exits tc opts) as H.
    destruct (Verilator.compileVerilator_resume _ _ _ _ _); [|contradiction].
    cbn. auto.
  - unfold compileSources_afterCompile.
    destruct res as [res|e]; [destruct (Verilator.output res) as [modules|]|].
    + match goal with |- context [initModule_start modules ?w1] =>
        assert (Hw1 : host w1 = host w) by (case_bool_decide; reflexivity);
        pose proof (host_of (initModule_start modules) w1
                      (initModule_start_host modules)) as H;
        destruct (initModule_start modules w1) as [w2 [id|e]] end;
        cbn in *; rewrite Hw1 in H; injection H as H1 H2;
        repeat split; try congruence; lia.
    + cbn. repeat split; [assumption|lia].
    + cbn. repeat split; [assumption|lia].
  - unfold initModule_settle.
    pose proof (host_of (initModule_resume id) w (initModule_resume_host id)) as H.
    destruct (initModule_resume id w) as [w' [a|e]]; cbn in *;
      injection H as H1 H2; repeat split; try congruence; lia.
  - unfold compileSources_afterInitModule. cbn [fst snd rank].
    split; [|split; [lia|]].
    + match goal with |- hostGone (?m w).1 = false =>
        assert (H : wp m (fun _ w' => hostGone w' = hostGone w) w) end.
      { unfold finally_, catch_, postMessage. wp_go.
        destruct res as [e|]; wp_go; [reflexivity|].
        eapply wp_mono; [apply startSimulation_host|]. cbn beta.
        intros [a|e] w' [= _ H]; wp_go; exact H. }
      unfold wp in H. congruence.
    + match goal with |- process_exit (?m w).1 = original =>
        assert (H : wp m (fun _ w' => process_exit w' = original) w) end.
      { unfold finally_, catch_, postMessage. wp_go.
        destruct res as [e|]; wp_go; [reflexivity|].
        eapply wp_mono; [apply startSimulation_host|]. cbn beta.
        intros [a|e] w' _; wp_go; reflexivity. }
      exact H.
Qed.

Lemma resume_onTrack i c original n sys :
  onTrack c original n sys ->
  onTrack c original n (resume i c sys) /\
  (forall st seg, calls sys !! c = Some st -> segment i st = Some seg ->
     onTrack c original (S (rank st)) (resume i c sys)).
Proof.
  intros (Hgone & st & Hst & Hn & Hex). unfold resume. rewrite Hst. simpl.
  destruct (segment i st) as [seg|] eqn:Hseg.
  - assert (Hpre : match st with
      | Finished => True
      | AwaitReady o _ _ | AwaitCompile o _ | AwaitInit o _ | AwaitInitModule o _ =>
          o = original /\ process_exit (world sys) = Verilator.throwingExit
      end) by (destruct st; auto).
    destruct (segment_onTrack i st seg (world sys) original Hseg Hgone Hpre)
      as (Hg' & Hr' & He').
    destruct (seg (world sys)) as [w' st'] eqn:Hrun. cbn in *.
    assert (Hlook : <[c:=st']> (calls sys) !! c = Some st').
    { apply list_lookup_insert_eq. eapply lookup_lt_Some. eassumption. }
    split.
    + split; [assumption|]. exists st'. repeat split; [assumption|lia|assumption].
    + intros st0 seg0 [= <-] Hs0. split; [assumption|].
      exists st'. repeat split; [assumption|lia|assumption].
  - split.
    + split; [assumption|]. exists st. auto.
    + intros st0 seg0 [= <-] Hs0. congruence.
Qed.

Lemma step_onTrack i c original sys :
  (i = Ready c \/ i = AfterCompile c \/ i = InitSettled c \/ i = AfterInitModule c) ->
  forall n, onTrack c original n sys ->
  let need := match i with
              | Ready _ => 0 | AfterCompile _ => 1 | InitSettled _ => 2
              | _ => 3
              end%nat in
  (need <= n)%nat -> onTrack c original (S need) (step sys i).
Proof.
  intros Hi n Ht need Hneed.
  pose proof Ht as (Hgone & st & Hst & Hn & Hex).
  assert (Hstep : step sys i = resume i c sys).
  { unfold step. rewrite Hgone. destruct Hi as [->|[->|[->| ->]]]; reflexivity. }
  rewrite Hstep.
  destruct (resume_onTrack i c original n sys Ht) as [Hsame Hadv].
  destruct (segment i st) as [seg|] eqn:Hseg.
  - specialize (Hadv st seg Hst Hseg).
    destruct Hadv as (Hg & st' & Hst' & Hr & He). split; [assumption|].
    exists st'. repeat split; try assumption.
    destruct Hi as [->|[->|[->| ->]]]; destruct st; simpl in Hseg; try discriminate;
      subst need; cbn [rank] in *; lia.
  - destruct Hsame as (Hg & st' & Hst' & Hr & He). split; [assumption|].
    assert (st' = st).
    { unfold resume in Hst'. rewrite Hst in Hst'. simpl in Hst'. rewrite Hseg in Hst'.
      congruence. }
    subst st'. exists st. repeat split; try assumption.
    destruct Hi as [->|[->|[->| ->]]]; destruct st; simpl in Hseg; try discriminate;
      subst need; cbn [rank] in *; lia.
Qed.

Lemma compileSources_completes sources tc sys :
  hostGone (world sys) = false ->
  onTrack (length (calls sys)) (process_exit (world sys)) 4
    (compileSources sources tc sys).
Proof.
  intros Hgone. unfold compileSources.
  set (c := length (calls sys)). set (original := process_exit (world sys)).
  cbn [run fold_left].
  assert (H0 : onTrack c original 0 (step sys (Simulate sources tc))).
  { unfold step. rewrite Hgone. unfold compileSources_begin.
    change ((stopSimulation;; postMessage (status "Compiling...")) (world sys))
      with (push (Posted (status "Compiling...")) (set_running false (world sys)),
            @Normal unit tt).
    cbv beta iota zeta.
    destruct (Verilator.compileVerilator_start tc) as [e|]; cbn [world calls];
      (split; [exact Hgone|]); eexists;
      (split; [apply list_lookup_middle; reflexivity|]);
      cbn [rank]; (split; [lia|]); split; reflexivity. }
  apply (step_onTrack (Ready c) c original) in H0; [|auto|lia].
  apply (step_onTrack (AfterCompile c) c original) in H0; [|auto|lia].
  apply (step_onTrack (InitSettled c) c original) in H0; [|auto|lia].
  apply (step_onTrack (AfterInitModule c) c original) in H0; [|auto|lia].
  exact H0.
Qed.

End Awaited.

(** ** Calls of [compileSources] that do not overlap *)

Section Serial.
Context {K : Kernel}.

Lemma owner_quiet evs l : Forall quiet evs -> owner (evs ++ l) = owner l.
Proof.
  induction 1 as [|e evs He _ IH]; [reflexivity|].
  destruct e; simpl in *; tauto.
Qed.

Lemma renders_quiet evs l :
  Forall quiet evs -> eachEvent renderOnDetected l ->
  eachEvent renderOnDetected (evs ++ l).
Proof.
  induction 1 as [|e evs He _ IH]; intros Hl; [assumption|].
  split; [|auto]. destruct e as [| | | | |op t| | | | | | |]; simpl; auto.
  destruct op; simpl in *; auto. discriminate.
Qed.

Lemma Owned_quiet evs w w' :
  Owned w -> log w' = evs ++ log w -> Forall quiet evs ->
  mod_ w' = mod_ w -> (running w' = true -> running w = true) ->
  Owned w' /\ owner (log w') = owner (log w).
Proof.
  intros [Hr Hrun] Hl Hq Hm Hrn. split; [split|]; rewrite Hl.
  - apply renders_quiet; assumption.
  - intros H. rewrite owner_quiet, Hm by assumption. auto.
  - apply owner_quiet; assumption.
Qed.

Lemma onModule_owned {A} op (f : HDLModuleWASM -> HDLModuleWASM * Outcome A) w :
  Owned w -> isRender op = false ->
  wp (onModule op (mod_ w) f)
     (fun o w' => Owned w' /\ sameFields w w' /\ owner (log w') = owner (log w) /\
        match o with
        | Normal a => log w' = Return op :: Call op (mod_ w) :: log w
        | Throw _ => True
        end) w.
Proof.
  intros Ho Hop. unfold onModule. wp_go.
  assert (Hend : forall ending w',
    quiet ending -> log w' = [ending; Call op (mod_ w)] ++ log w ->
    sameFields w w' ->
    Owned w' /\ sameFields w w' /\ owner (log w') = owner (log w)).
  { intros ending w' Hq Hl Hs.
    destruct (Owned_quiet [ending; Call op (mod_ w)] w w' Ho Hl) as [H1 H2].
    - repeat constructor; assumption.
    - apply Hs.
    - destruct Hs as (_ & -> & _). auto.
    - auto. }
  assert (Hq : forall ending, quiet ending -> forall h,
    let w' := set_log (ending :: log (set_heap h (push (Call op (mod_ w)) w)))
                (set_heap h (push (Call op (mod_ w)) w)) in
    Owned w' /\ sameFields w w' /\ owner (log w') = owner (log w)).
  { intros ending Hq h. apply (Hend ending); [assumption|reflexivity|repeat split]. }
  destruct (mod_ w) as [id|] eqn:Hm.
  - destruct (heap (set_log _ w) !! id) as [m|] eqn:Hh.
    + destruct (f m) as [m' [a|e]] eqn:Hf; wp_go.
      * destruct (Hq (Return op) I (<[id:=m']> (heap w))) as (H1 & H2 & H3).
        split; [exact H1|]. split; [exact H2|]. split; [exact H3|reflexivity].
      * destruct (Hq (Raise op e) I (<[id:=m']> (heap w))) as (H1 & H2 & H3).
        split; [exact H1|]. split; [exact H2|]. split; [exact H3|exact I].
    + wp_go. destruct (Hq (Raise op nullFault) I (heap w)) as (H1 & H2 & H3).
      split; [exact H1|]. split; [exact H2|]. split; [exact H3|exact I].
  - wp_go. destruct (Hq (Raise op nullFault) I (heap w)) as (H1 & H2 & H3).
    split; [exact H1|]. split; [exact H2|]. split; [exact H3|exact I].
Qed.

Lemma call_resetModule_owned w :
  Owned w ->
  wp call_resetModule
     (fun _ w' => Owned w' /\ sameFields w w' /\ owner (log w') = owner (log w)) w.
Proof.
  intros Ho. unfold call_resetModule. wp_go.
  wp_use @onModule_owned; tauto.
Qed.

Lemma call_skipToFrameBoundary_owned w :
  Owned w ->
  wp call_skipToFrameBoundary
     (fun _ w' => Owned w' /\ sameFields w w' /\ owner (log w') = owner (log w)) w.
Proof.
  intros Ho. unfold call_skipToFrameBoundary. wp_go.
  wp_use @onModule_owned; tauto.
Qed.

Lemma call_detectSyncPolarity_owned w :
  Owned w ->
  wp call_detectSyncPolarity
     (fun o w' => Owned w' /\ mod_ w' = mod_ w /\ running w' = running w /\
        match o with
        | Normal _ => owner (log w') = mod_ w
        | Throw _ => owner (log w') = owner (log w)
        end) w.
Proof.
  intros Ho. unfold call_detectSyncPolarity. wp_go.
  wp_use @onModule_owned.
  - intros (Ho' & (Hm & Hr & Hp) & Hown & Hl). wp_go.
    cbn [log set_log set_syncPolarity mod_ running].
    assert (Hd : owner (Detected a :: log w') = mod_ w) by (rewrite Hl; reflexivity).
    split; [|auto]. split; cbn [log set_log set_syncPolarity mod_ running].
    + split; [exact I|apply Ho'].
    + intros _. rewrite Hd. auto.
  - intros (Ho' & (Hm & Hr & Hp) & Hown & _). auto.
Qed.

Lemma establishPolarity_owned w :
  Owned w ->
  wp establishPolarity
     (fun o w' => Owned w' /\ mod_ w' = mod_ w /\ running w' = running w /\
        (owner (log w') = mod_ w \/ owner (log w') = owner (log w)) /\
        match o with
        | Normal _ => owner (log w') = mod_ w
        | Throw _ => True
        end) w.
Proof.
  intros Ho. unfold establishPolarity. wp_go.
  wp_use call_resetModule_owned; intros (Ho1 & (Hm1 & Hr1 & _) & Hw1);
    [|split; [assumption|]; auto].
  wp_use call_detectSyncPolarity_owned; intros (Ho2 & Hm2 & Hr2 & Hw2);
    [|split; [assumption|]; repeat split; try congruence; right; congruence].
  wp_use call_resetModule_owned; intros (Ho3 & (Hm3 & Hr3 & _) & Hw3);
    [|split; [assumption|]; repeat split; try congruence; left; congruence].
  wp_use call_skipToFrameBoundary_owned; intros (Ho4 & (Hm4 & Hr4 & _) & Hw4);
    (split; [assumption|]; repeat split; try congruence; try left; congruence).
Qed.


Lemma call_renderVGAFrame_owned px w :
  Owned w -> running w = true ->
  wp (call_renderVGAFrame px)
     (fun _ w' => Owned w' /\ sameFields w w' /\ owner (log w') = owner (log w)) w.
Proof.
  intros Ho Hr. unfold call_renderVGAFrame, onModule. wp_go.
  set (op := OpRender (syncPolarity w) (length px)).
  assert (Hc : Owned (push (Call op (mod_ w)) w)).
  { destruct Ho as [H1 H2]. split; cbn [push log set_log running mod_]; [|auto].
    split; [|assumption]. apply H2, Hr. }
  assert (Hq : forall ending, quiet ending -> forall h,
    let w' := set_log (ending :: log (set_heap h (push (Call op (mod_ w)) w)))
                (set_heap h (push (Call op (mod_ w)) w)) in
    Owned w' /\ sameFields w w' /\ owner (log w') = owner (log w)).
  { intros ending Hq h w'.
    destruct (Owned_quiet [ending] (push (Call op (mod_ w)) w) w' Hc) as [H1 H2];
      try reflexivity; [repeat constructor; assumption|auto|].
    split; [exact H1|]. split; [repeat split|exact H2]. }
  destruct (mod_ w) as [id|] eqn:Hm.
  - destruct (heap (set_log _ w) !! id) as [m|] eqn:Hh.
    + destruct (renderVGAFrame m (length px) (syncPolarity w)) as [[m' ws] [e|]] eqn:Hf; wp_go.
      * exact (Hq (Raise op e) I (<[id:=m']> (heap w))).
      * exact (Hq (Return op) I (<[id:=m']> (heap w))).
    + wp_go. exact (Hq (Raise op nullFault) I (heap w)).
  - wp_go. exact (Hq (Raise op nullFault) I (heap w)).
Qed.

Lemma Owned_post e w : quiet e -> Owned w -> Owned (push e w).
Proof.
  intros Hq Ho.
  destruct (Owned_quiet [e] w (push e w) Ho) as [H _]; auto.
Qed.

Lemma Owned_stop w : Owned w -> Owned (set_running false w).
Proof. intros [H1 H2]. split; [exact H1|]. discriminate. Qed.

Lemma renderLoop_owned w :
  Owned w ->
  wp renderLoop
     (fun _ w' => Owned w' /\ mod_ w' = mod_ w /\ owner (log w') = owner (log w) /\
                  (running w' = true -> running w = true)) w.
Proof.
  intros Ho. unfold renderLoop. wp_go.
  destruct (running w) eqn:Hr; cbn [negb orb]; [|wp_go; rewrite Hr; auto].
  destruct (negb (bool_decide (is_Some (mod_ w)))); [wp_go; auto|].
  wp_go. wp_use call_renderVGAFrame_owned.
  - intros (Ho1 & (Hm1 & Hr1 & _) & Hw1). wp_go. unfold postMessage. wp_go.
    cbn [running set_log].
    destruct (running w'); wp_go; cbn [log set_log set_immediates mod_ running].
    + split; [|auto].
      apply (Owned_quiet [SetImmediate; Posted (frame VGA_WIDTH VGA_HEIGHT a)] w');
        auto. repeat constructor.
    + split; [|auto]. apply (Owned_post (Posted (frame VGA_WIDTH VGA_HEIGHT a))); auto.
      exact I.
  - intros (Ho1 & (Hm1 & Hr1 & _) & Hw1). unfold postMessage. wp_go.
    cbn [log set_log set_running mod_ running]. split; [|auto].
    apply Owned_stop. apply Owned_post; [exact I|assumption].
Qed.

Lemma startSimulation_owned w :
  Owned w -> (mod_ w = None \/ owner (log w) = mod_ w) ->
  wp startSimulation
     (fun _ w' => Owned w' /\ mod_ w' = mod_ w /\ owner (log w') = owner (log w)) w.
Proof.
  intros Ho Hw. unfold startSimulation. wp_go.
  destruct (mod_ w) as [id|] eqn:Hm.
  2:{ rewrite bool_decide_eq_false_2 by (intros [? ?]; discriminate).
      cbn [negb orb]. wp_go. auto. }
  destruct (negb (bool_decide (is_Some (Some id))) || running w); wp_go; [auto|].
  wp_apply renderLoop_owned.
  - destruct Ho as [H1 H2]. split; [exact H1|]. intros _.
    cbn [log set_running mod_]. destruct Hw as [Hw|Hw]; congruence.
  - intros (H1 & H2 & H3 & _). cbn [log set_running mod_] in *. split; [assumption|].
    split; congruence.
  - intros (H1 & H2 & H3 & _). cbn [log set_running mod_] in *. split; [assumption|].
    split; congruence.
Qed.

Lemma Owned_unbound w w' evs :
  Owned w -> running w = false -> log w' = evs ++ log w -> Forall quiet evs ->
  running w' = false -> Owned w'.
Proof.
  intros [H1 _] Hr Hl Hq Hr'. split.
  - rewrite Hl. apply renders_quiet; assumption.
  - rewrite Hr'. discriminate.
Qed.

Lemma disposePanel_owned w :
  Owned w ->
  wp disposePanel (fun _ w' => Owned w' /\ running w' = false /\ mod_ w' = None) w.
Proof.
  intros Ho. unfold disposePanel, disposeModule. wp_go.
  cbn [mod_ set_running].
  destruct (mod_ w) as [id|] eqn:Hm; wp_go; cbn [running mod_ set_log set_mod_ set_heap set_running].
  - split; [|auto].
    apply (Owned_unbound (set_running false w) _ [PanelDispose; Disposed id]);
      auto using Owned_stop. repeat constructor.
  - split; [|auto].
    apply (Owned_unbound (set_running false w) _ [PanelDispose]);
      auto using Owned_stop. repeat constructor.
Qed.

Lemma onDidReceiveMessage_owned command w :
  Owned w ->
  wp (onDidReceiveMessage command)
     (fun _ w' => Owned w' /\ mod_ w' = mod_ w /\
        (running w' = true -> running w = true) /\
        (owner (log w') = mod_ w \/ owner (log w') = owner (log w))) w.
Proof.
  intros Ho. unfold onDidReceiveMessage, stopSimulation.
  destruct (decide (command = "stop")).
  { wp_go. cbn [log running mod_ set_running]. split; [apply Owned_stop; assumption|].
    split; [reflexivity|]. split; [discriminate|auto]. }
  destruct (decide (command = "reset")); [|wp_go; auto].
  wp_go. destruct (bool_decide (is_Some (mod_ w))); [|wp_go; auto].
  wp_use establishPolarity_owned; intros (H1 & H2 & H3 & H4 & _);
    (split; [assumption|]; split; [assumption|]; split; [congruence|assumption]).
Qed.

Lemma initModule_start_owned modules w :
  Owned w -> running w = false ->
  wp (initModule_start modules) (fun _ w' => Owned w' /\ running w' = false) w.
Proof.
  intros Ho Hr. unfold initModule_start, disposeModule, new_HDLModuleWASM. wp_go.
  assert (Hu : forall w' evs, log w' = evs ++ log w -> Forall quiet evs ->
                 running w' = false -> Owned w' /\ running w' = false).
  { intros w' evs Hl Hq Hr'. split; [|assumption].
    eapply Owned_unbound; eauto. }
  destruct (mod_ w) as [id|] eqn:Hm; wp_go;
    destruct (construct _ _) as [m|e]; wp_go.
  - apply (Hu _ [Call OpInit (Some (length (alter dispose id (heap w))));
                 Constructed (length (alter dispose id (heap w)));
                 New (modules !! "TOP") (orElse (modules !! "@CONST-POOL@") (modules !! "__Vconst"));
                 Disposed id]); [reflexivity| |exact Hr].
    repeat constructor.
  - apply (Hu _ [New (modules !! "TOP") (orElse (modules !! "@CONST-POOL@") (modules !! "__Vconst"));
                 Disposed id]); [reflexivity| |exact Hr].
    repeat constructor.
  - apply (Hu _ [Call OpInit (Some (length (heap w)));
                 Constructed (length (heap w));
                 New (modules !! "TOP") (orElse (modules !! "@CONST-POOL@") (modules !! "__Vconst"))]);
      [reflexivity| |exact Hr].
    repeat constructor.
  - apply (Hu _ [New (modules !! "TOP") (orElse (modules !! "@CONST-POOL@") (modules !! "__Vconst"))]);
      [reflexivity| |exact Hr].
    repeat constructor.
Qed.

Lemma initModule_resume_owned id w :
  Owned w -> running w = false ->
  wp (initModule_resume id)
     (fun o w' => Owned w' /\ running w' = false /\
        match o with
        | Normal _ => owner (log w') = mod_ w'
        | Throw _ => True
        end) w.
Proof.
  intros Ho Hr. unfold initModule_resume. wp_go.
  destruct (heap w !! id) as [m|]; [|wp_go; auto].
  destruct (init m) as [m' [e|]]; wp_go.
  - split; [|auto].
    apply (Owned_unbound w _ [Raise OpInit e]); auto. repeat constructor.
  - wp_apply establishPolarity_owned.
    + apply (Owned_unbound w _ [Return OpInit]); auto. repeat constructor.
    + intros (H1 & H2 & H3 & H4 & H5). cbn [log set_log set_heap mod_ running] in *.
      split; [assumption|]. split; congruence.
    + intros (H1 & H2 & H3 & H4 & H5). cbn [log set_log set_heap mod_ running] in *.
      split; [assumption|]. split; [congruence|exact I].
Qed.


Lemma idle_lookup sys :
  idle sys = true <-> forall c st, calls sys !! c = Some st -> st = Finished.
Proof.
  unfold idle. rewrite forallb_forall. split.
  - intros H c st Hc. specialize (H st).
    destruct st; try reflexivity;
      (discriminate H; apply list_elem_of_In, list_elem_of_lookup; eauto).
  - intros H st Hin. apply list_elem_of_In, list_elem_of_lookup in Hin as [c Hc].
    rewrite (H c st Hc). reflexivity.
Qed.

Lemma settle_owned o tc opts w :
  Owned w -> running w = false ->
  let r := compileVerilator_settle o tc opts w in
  Owned r.1 /\ suspended r.2 r.1.
Proof.
  intros Ho Hr. unfold compileVerilator_settle.
  destruct (Verilator.compileVerilator_resume _ _ _ _ _) as [r|code]; cbn.
  - auto.
  - split; [|exact I]. apply (Owned_unbound w _ [Exited code]); auto.
    repeat constructor.
Qed.

Lemma afterCompile_owned o res w :
  Owned w -> running w = false ->
  let r := compileSources_afterCompile o res w in
  Owned r.1 /\ suspended r.2 r.1.
Proof.
  intros Ho Hr. unfold compileSources_afterCompile.
  destruct res as [res|e].
  - destruct (Verilator.output res) as [modules|].
    + match goal with |- context [initModule_start modules ?w1] =>
        assert (Hw1 : Owned w1 /\ running w1 = false) end.
      { case_bool_decide; [|auto]. split; [|exact Hr].
        eapply (Owned_unbound w _ [_]); eauto. repeat constructor. }
      destruct Hw1 as [Ho1 Hr1].
      pose proof (initModule_start_owned modules _ Ho1 Hr1) as H. unfold wp in H.
      destruct (initModule_start modules _) as [w2 [id|e]]; cbn in *; tauto.
    + cbn. split; [|exact I].
      eapply (Owned_unbound w _ [_]); eauto. repeat constructor.
  - cbn. split; [|exact I].
    eapply (Owned_unbound w _ [_]); eauto. repeat constructor.
Qed.

Lemma initSettle_owned o id w :
  Owned w -> running w = false ->
  let r := initModule_settle o id w in
  Owned r.1 /\ suspended r.2 r.1.
Proof.
  intros Ho Hr. unfold initModule_settle.
  pose proof (initModule_resume_owned id w Ho Hr) as H. unfold wp in H.
  destruct (initModule_resume id w) as [w' [a|e]]; cbn in *; tauto.
Qed.

Lemma afterInitModule_owned o res w :
  Owned w -> suspended (AwaitInitModule o res) w ->
  let r := compileSources_afterInitModule o res w in
  Owned r.1 /\ suspended r.2 r.1.
Proof.
  intros Ho Hs. unfold compileSources_afterInitModule. cbn [fst snd].
  split; [|exact I].
  match goal with |- Owned (?m w).1 =>
    assert (H : wp m (fun _ w' => Owned w') w) end.
  { destruct res as [e|]; wp_go.
    - unfold catch_, finally_, postMessage. wp_go.
      eapply (Owned_unbound w _ [_]); eauto. repeat constructor.
    - destruct Hs as [Hr Hw]. unfold postMessage. wp_go.
      wp_apply startSimulation_owned.
      + eapply (Owned_unbound w _ [_]); eauto. repeat constructor.
      + intros (H1 & _). unfold finally_. wp_go.
        eapply (Owned_quiet [] w'); eauto.
      + intros (H1 & _). unfold catch_, finally_, postMessage. wp_go.
        eapply (Owned_quiet [_] w'); eauto. repeat constructor. }
  exact H.
Qed.

Lemma segment_owned i st seg w :
  segment i st = Some seg -> Owned w -> suspended st w ->
  Owned (seg w).1 /\ suspended (seg w).2 (seg w).1.
Proof.
  intros Hseg Ho Hs.
  destruct i, st; simpl in Hseg; try discriminate; injection Hseg as <-.
  - apply settle_owned; assumption.
  - apply afterCompile_owned; assumption.
  - apply initSettle_owned; assumption.
  - apply afterInitModule_owned; assumption.
Qed.


Lemma onDidReceiveMessage_host command : hostFrame (onDidReceiveMessage command).
Proof.
  unfold onDidReceiveMessage, stopSimulation.
  host_frame; try apply establishPolarity_host.
Qed.

Lemma disposePanel_host : hostFrame disposePanel.
Proof. unfold disposePanel, disposeModule. host_frame. Qed.

Lemma handler_calm (m : Js unit) w0 w :
  hostFrame m -> host w = host w0 ->
  wp m (fun _ w' => Owned w' /\ (running w' = true -> running w0 = true) /\
          (mod_ w0 = None \/ owner (log w0) = mod_ w0 ->
           mod_ w' = None \/ owner (log w') = mod_ w')) w ->
  calm w0 (handler m w).
Proof.
  intros Hh Hw H. unfold handler. pose proof (Hh w) as Hhost. unfold wp in *.
  destruct (m w) as [w' [a|e]]; cbn in *; destruct H as (H1 & H2 & H3).
  - split; [assumption|]. split; [congruence|]. auto.
  - split; [|split; [|split]].
    + apply (Owned_post (Uncaught e)); [exact I|assumption].
    + unfold host in *. cbn in *. congruence.
    + exact H2.
    + exact H3.
Qed.

Lemma received_calm command w : Owned w -> calm w (handler (onDidReceiveMessage command) w).
Proof.
  intros Ho. apply handler_calm; [apply onDidReceiveMessage_host|reflexivity|].
  eapply wp_mono; [apply onDidReceiveMessage_owned; assumption|]. cbn beta.
  intros _ w' (H1 & H2 & H3 & H4). split; [assumption|]. split; [assumption|].
  intros [Hn|Hw]; [left; congruence|]. right. destruct H4; congruence.
Qed.

Lemma immediate_calm n w :
  Owned w -> calm w (handler renderLoop (set_immediates n w)).
Proof.
  intros Ho. apply handler_calm; [apply renderLoop_host|reflexivity|].
  eapply wp_mono; [apply renderLoop_owned|].
  - destruct Ho. split; assumption.
  - cbn beta. intros _ w' (H1 & H2 & H3 & H4). cbn [mod_ log running set_immediates] in *.
    split; [assumption|]. split; [assumption|].
    intros [Hn|Hw]; [left; congruence|]. right. congruence.
Qed.

Lemma dispose_calm w : Owned w -> calm w (handler disposePanel w).
Proof.
  intros Ho. apply handler_calm; [apply disposePanel_host|reflexivity|].
  eapply wp_mono; [apply disposePanel_owned; assumption|]. cbn beta.
  intros _ w' (H1 & H2 & H3). split; [assumption|]. split; [congruence|]. auto.
Qed.

Lemma Orderly_boot : Orderly boot.
Proof.
  split; try (intros; discriminate); try reflexivity.
  split; [exact I|discriminate].
Qed.

Lemma Orderly_onWorld f sys :
  Orderly sys -> calm (world sys) (f (world sys)) -> Orderly (onWorld f sys).
Proof.
  intros [Ha Ho H1 Hs Hi Hd] (Ho' & Hh & Hr & Hw). injection Hh as He Hg.
  split; cbn [onWorld world calls].
  - congruence.
  - assumption.
  - exact H1.
  - intros c st Hc. specialize (Hs c st Hc).
    destruct st as [| | |o [e|]|]; cbn in *; try exact I;
      try (destruct (running (f (world sys))); [discriminate (Hr eq_refl)|reflexivity]);
      try (destruct (running (f (world sys))); [rewrite Hr in Hs by reflexivity; discriminate|reflexivity]).
    destruct Hs as [Hs1 Hs2]. split; [|auto].
    destruct (running (f (world sys))); [rewrite Hr in Hs1 by reflexivity; discriminate|reflexivity].
  - intros c st Hc. specialize (Hi c st Hc).
    destruct st; cbn in *; try exact I; destruct Hi; split; congruence.
  - intros Hidle. rewrite He. apply Hd. exact Hidle.
Qed.


Lemma segment_unfinished i st seg : segment i st = Some seg -> isFinished st = false.
Proof. destruct i, st; simpl; intros [=]; reflexivity. Qed.

Lemma Orderly_resume i c sys : Orderly sys -> Orderly (resume i c sys).
Proof.
  intros Hord. pose proof Hord as [Ha Ho H1 Hs Hi Hd]. unfold resume.
  destruct (calls sys !! c) as [st|] eqn:Hst; simpl; [|assumption].
  destruct (segment i st) as [seg|] eqn:Hseg; [|assumption].
  pose proof (segment_unfinished i st seg Hseg) as Hun.
  assert (Hpre : match st with
    | Finished => True
    | AwaitReady o _ _ | AwaitCompile o _ | AwaitInit o _ | AwaitInitModule o _ =>
        o = Verilator.hostExit /\ process_exit (world sys) = Verilator.throwingExit
    end) by exact (Hi c st Hst).
  destruct (segment_onTrack i st seg (world sys) Verilator.hostExit Hseg Ha Hpre)
    as (Ha' & _ & Hi').
  destruct (segment_owned i st seg (world sys) Hseg Ho (Hs c st Hst)) as [Ho' Hs'].
  destruct (seg (world sys)) as [w' st'] eqn:Hrun. cbn [fst snd] in *.
  assert (Hlen : (c < length (calls sys))%nat) by (eapply lookup_lt_Some; eassumption).
  assert (Hother : forall c' st'', c' <> c ->
            <[c:=st']> (calls sys) !! c' = Some st'' -> st'' = Finished).
  { intros c' st'' Hne Hl. rewrite list_lookup_insert_ne in Hl by auto.
    destruct (isFinished st'') eqn:Hf; [destruct st''; try discriminate; reflexivity|].
    destruct Hne. exact (H1 c' c st'' st Hl Hst Hf Hun). }
  split; cbn [world calls].
  - assumption.
  - assumption.
  - intros c1 c2 st1 st2 Hl1 Hl2 Hf1 Hf2.
    destruct (decide (c1 = c)) as [->|Hn1]; destruct (decide (c2 = c)) as [->|Hn2];
      try reflexivity.
    + rewrite (Hother c2 st2 Hn2 Hl2) in Hf2. discriminate.
    + rewrite (Hother c1 st1 Hn1 Hl1) in Hf1. discriminate.
    + rewrite (Hother c2 st2 Hn2 Hl2) in Hf2. discriminate.
  - intros c' st'' Hl. destruct (decide (c' = c)) as [->|Hne].
    + rewrite list_lookup_insert_eq in Hl by assumption. injection Hl as <-. assumption.
    + rewrite (Hother c' st'' Hne Hl). exact I.
  - intros c' st'' Hl. destruct (decide (c' = c)) as [->|Hne].
    + rewrite list_lookup_insert_eq in Hl by assumption. injection Hl as <-.
      destruct st'; auto.
    + rewrite (Hother c' st'' Hne Hl). exact I.
  - intros Hidle. rewrite idle_lookup in Hidle. cbn [calls] in Hidle.
    assert (st' = Finished) as ->.
    { apply (Hidle c). apply list_lookup_insert_eq. assumption. }
    exact Hi'.
Qed.

Lemma Orderly_simulate sources tc sys :
  Orderly sys -> idle sys = true ->
  hostGone (world sys) = false ->
  Orderly (step sys (Simulate sources tc)).
Proof.
  intros [Ha Ho H1 Hs Hi Hd] Hidle _. unfold step. rewrite Ha.
  unfold compileSources_begin.
  change ((stopSimulation;; postMessage (status "Compiling...")) (world sys))
    with (push (Posted (status "Compiling...")) (set_running false (world sys)),
          @Normal unit tt).
  cbv beta iota zeta.
  set (w' := set_process_exit Verilator.throwingExit
               (push (Posted (status "Compiling...")) (set_running false (world sys)))).
  cbn [process_exit push set_log set_running].
  rewrite (Hd Hidle).
  assert (Hfin : forall c st, calls sys !! c = Some st -> st = Finished)
    by (apply idle_lookup; assumption).
  assert (Hgen : forall st,
    isFinished st = false -> suspended st w' -> intercepting st w' ->
    Orderly {| world := w'; calls := calls sys ++ [st] |}).
  { intros st Hun Hsus Hint.
    assert (Hl : forall c st', (calls sys ++ [st]) !! c = Some st' ->
              st' = Finished \/ (c = length (calls sys) /\ st' = st)).
    { intros c st' Hc. apply lookup_app_Some in Hc as [Hc|[Hge Hc]].
      - left. eauto.
      - right. apply list_lookup_singleton_Some in Hc as [Hz <-]. split; [lia|reflexivity]. }
    split; cbn [world calls].
    - exact Ha.
    - apply (Owned_unbound (set_running false (world sys)) w'
               [Posted (status "Compiling...")]); auto using Owned_stop.
      repeat constructor.
    - intros c1 c2 st1 st2 Hc1 Hc2 Hf1 Hf2.
      destruct (Hl c1 st1 Hc1) as [->|[-> _]]; [discriminate|].
      destruct (Hl c2 st2 Hc2) as [->|[-> _]]; [discriminate|]. reflexivity.
    - intros c st' Hc. destruct (Hl c st' Hc) as [->|[_ ->]]; [exact I|assumption].
    - intros c st' Hc. destruct (Hl c st' Hc) as [->|[_ ->]]; [exact I|assumption].
    - intros Hid. rewrite idle_lookup in Hid. cbn [calls] in Hid.
      rewrite (Hid (length (calls sys)) st) in Hun; [discriminate|].
      apply list_lookup_middle. reflexivity. }
  destruct (Verilator.compileVerilator_start tc) as [e|]; apply Hgen;
    try reflexivity; split; reflexivity.
Qed.

Lemma Orderly_step sys i :
  Orderly sys ->
  match i with
  | Simulate _ _ => idle sys = true
  | _ => True
  end ->
  Orderly (step sys i).
Proof.
  intros Hord Hi. pose proof Hord as [Ha Ho _ _ _ _].
  destruct i; try (unfold step; rewrite Ha; apply Orderly_resume; assumption).
  - apply Orderly_simulate; assumption.
  - unfold step. rewrite Ha. apply Orderly_onWorld; [assumption|].
    apply received_calm; assumption.
  - unfold step. rewrite Ha.
    destruct (immediates (world sys)) as [|n]; [assumption|].
    apply (Orderly_onWorld (fun w => handler renderLoop (set_immediates n w)));
      [assumption|].
    apply immediate_calm; assumption.
  - unfold step. rewrite Ha. apply Orderly_onWorld; [assumption|].
    apply dispose_calm; assumption.
Qed.

Lemma Orderly_run inputs sys :
  Orderly sys -> serial sys inputs -> Orderly (run sys inputs).
Proof.
  revert sys. induction inputs as [|i inputs IH]; intros sys Hord Hser; [assumption|].
  destruct Hser as [Hi Hrest]. apply IH; [|exact Hrest].
  apply Orderly_step; assumption.
Qed.

End Serial.

(** ** The simulation kernel *)

Module SimFacts.
Import Sim.

Lemma bind_Ok {A B} (r : Result A) (k : A -> Result B) b :
  r ≫= k = Ok b <-> exists a, r = Ok a /\ k a = Ok b.
Proof.
  destruct r as [a|kind]; simpl; split.
  - eauto.
  - intros (a' & [= <-] & H). exact H.
  - discriminate.
  - intros (a' & [=] & _).
Qed.

Section Settle.
Variable x : Executable.

Lemma settle_Ok fuel v v' :
  settle fuel x v = Ok v' ->
  evaluate x v' = Some v' /\
  exists n, (n < fuel)%nat /\ recompute n x v = Some v'.
Proof.
  revert v. induction fuel as [|fuel IH]; intros v; simpl; [discriminate|].
  destruct (evaluate x v) as [u|] eqn:Hu; [|discriminate].
  destruct (decide (u = v)) as [->|Hne].
  - intros [= <-]. split; [assumption|]. exists 0%nat. split; [lia|reflexivity].
  - intros H. destruct (IH _ H) as (Hfix & n & Hn & Hrec). split; [assumption|].
    exists (S n). split; [lia|]. simpl. rewrite Hu. exact Hrec.
Qed.

Lemma settle_Convergence fuel v :
  settle fuel x v = Err ConvergenceError <->
  forall n, (n < fuel)%nat ->
    exists u u', recompute n x v = Some u /\ evaluate x u = Some u' /\ u' <> u.
Proof.
  revert v. induction fuel as [|fuel IH]; intros v; simpl.
  - split; [intros _ n Hn; lia|reflexivity].
  - destruct (evaluate x v) as [u|] eqn:Hu.
    + destruct (decide (u = v)) as [->|Hne].
      * split; [discriminate|]. intros H.
        destruct (H 0%nat ltac:(lia)) as (a & a' & [= <-] & Ha & Hne).
        congruence.
      * rewrite IH. split.
        -- intros H [|n] Hn.
           ++ exists v, u. simpl. auto.
           ++ simpl. rewrite Hu. apply H. lia.
        -- intros H n Hn. specialize (H (S n) ltac:(lia)). simpl in H.
           rewrite Hu in H. exact H.
    + split; [discriminate|]. intros H.
      destruct (H 0%nat ltac:(lia)) as (a & a' & [= <-] & Ha & _). congruence.
Qed.

Lemma settle_total fuel v :
  (exists v', settle fuel x v = Ok v') \/
  settle fuel x v = Err ConvergenceError \/
  settle fuel x v = Err RuntimeFault.
Proof.
  revert v. induction fuel as [|fuel IH]; intros v; simpl; [auto|].
  destruct (evaluate x v) as [u|]; [|auto].
  destruct (decide (u = v)); eauto.
Qed.

Lemma settle_loop fuel v :
  (forall u, exists u', evaluate x u = Some u' /\ u' <> u) ->
  settle fuel x v = Err ConvergenceError.
Proof.
  intros Hloop. revert v. induction fuel as [|fuel IH]; intros v; simpl; [reflexivity|].
  destruct (Hloop v) as (u' & -> & Hne). rewrite decide_False by assumption. apply IH.
Qed.

End Settle.

Section Reset.
Variables iterationCap resetCycles : nat.

Lemma sameDesign_refl i : sameDesign i i.
Proof. repeat split. Qed.

Lemma sameDesign_trans i j k : sameDesign i j -> sameDesign j k -> sameDesign i k.
Proof. unfold sameDesign. intros (-> & -> & ->) (-> & -> & ->). repeat split. Qed.

Lemma setSignal_design p v i i' : setSignal p v i = Ok i' -> sameDesign i i'.
Proof.
  unfold setSignal. destruct (_ !! p); [|discriminate]. intros [= <-]. repeat split.
Qed.

Lemma eval_design i i' : eval iterationCap i = Ok i' -> sameDesign i i'.
Proof.
  unfold eval. intros H. apply bind_Ok in H as (v & _ & [= <-]). repeat split.
Qed.

Lemma clockEdge_design l i i' : clockEdge iterationCap l i = Ok i' -> sameDesign i i'.
Proof.
  unfold clockEdge. intros H. apply bind_Ok in H as (i1 & H1 & H2).
  eauto using sameDesign_trans, setSignal_design, eval_design.
Qed.

Lemma tick_design i i' : tick iterationCap i = Ok i' -> sameDesign i i'.
Proof.
  unfold tick. intros H. apply bind_Ok in H as (i1 & H1 & H).
  apply bind_Ok in H as (i2 & H2 & [= <-]).
  apply clockEdge_design in H1, H2.
  destruct H1 as (? & ? & ?), H2 as (? & ? & ?). repeat split; simpl; congruence.
Qed.

Lemma ticks_design n i i' : ticks iterationCap n i = Ok i' -> sameDesign i i'.
Proof.
  revert i. induction n as [|n IH]; intros i; simpl.
  - intros [= <-]. apply sameDesign_refl.
  - intros H. apply bind_Ok in H as (i1 & H1 & H2).
    eauto using sameDesign_trans, tick_design.
Qed.

Lemma driveReset_design l i i' : driveReset l i = Ok i' -> sameDesign i i'.
Proof.
  unfold driveReset. destruct (rst (bound i)).
  - apply setSignal_design.
  - intros [= <-]. apply sameDesign_refl.
Qed.

Lemma holdReset_design i i' :
  holdReset iterationCap resetCycles i = Ok i' -> sameDesign i i'.
Proof.
  unfold holdReset. intros H. apply bind_Ok in H as (i1 & H1 & H2).
  eauto using sameDesign_trans, driveReset_design, ticks_design.
Qed.

Lemma reset_design i i' :
  reset iterationCap resetCycles i = Ok i' -> sameDesign i i'.
Proof.
  unfold reset. intros H. apply bind_Ok in H as (i2 & H2 & H).
  apply bind_Ok in H as (i3 & H3 & H). apply bind_Ok in H as (i4 & H4 & [= <-]).
  apply holdReset_design in H2. apply driveReset_design in H3. apply eval_design in H4.
  destruct H2 as (? & ? & ?), H3 as (? & ? & ?), H4 as (? & ? & ?).
  repeat split; simpl; congruence.
Qed.

Lemma release_values i j :
  sameDesign i j -> values j = values i -> release iterationCap j = release iterationCap i.
Proof.
  intros (Hm & Hx & Hb) Hv. unfold release, driveReset, setSignal, eval.
  rewrite Hb, Hm, Hv. destruct (rst (bound i)) as [r|]; simpl.
  - destruct (signals (moddef i) !! r); simpl; [|reflexivity]. rewrite Hx.
    destruct (settle _ _ _); simpl; [|reflexivity].
    unfold with_cycle, with_values; simpl. rewrite Hm, Hx, Hb. reflexivity.
  - rewrite Hx, Hv. destruct (settle _ _ _); simpl; [|reflexivity].
    unfold with_cycle, with_values; simpl. rewrite Hm, Hx, Hb. reflexivity.
Qed.

End Reset.

Section Overridden.
Variables iterationCap resetCycles : nat.
Variable x : Executable.
Variables c r : string.
Hypothesis Hover : resetOverrides x c r.
Hypothesis Hrc : r <> c.
Hypothesis Hcap : (2 <= iterationCap)%nat.

Lemma settle_overridden fuel v u lvl :
  v !! r = Some 1 -> v !! c = Some lvl -> evaluate x v = Some u ->
  settle (S (S fuel)) x v = Ok u.
Proof.
  intros Hr Hc Hu. cbn [settle]. rewrite Hu.
  destruct (decide (u = v)) as [->|Hne]; [reflexivity|].
  destruct (Hover v v lvl Hr Hr Hc Hc) as [_ Hkeep].
  destruct (Hkeep u Hu) as [Hur Huc].
  destruct (Hover v u lvl Hr Hur Hc Huc) as [-> _]. rewrite Hu.
  rewrite decide_True by reflexivity. reflexivity.
Qed.

Lemma clockEdge_overridden l j j' k :
  held x c r j j' -> clockEdge iterationCap l j = Ok k ->
  exists k', clockEdge iterationCap l j' = Ok k' /\
             values k' = values k /\ held x c r k k' /\ cycle k = cycle j /\
             cycle k' = cycle j'.
Proof.
  intros ((Hm & Hx & Hb) & Hxj & Hcj & Hr & Hr') H.
  unfold clockEdge, setSignal in *. rewrite Hb, Hm, Hcj in *.
  destruct (signals (moddef j) !! c) as [sc|]; [|discriminate].
  cbn [mbind Result_bind] in *. unfold eval in *.
  cbn [exe values with_values] in *. rewrite Hx, Hxj in *.
  set (lvl := Z.land (if l then 1 else 0) (Z.ones (Z.of_N (width sc)))) in *.
  destruct iterationCap as [|[|fuel]]; [lia|lia|].
  assert (Hv : forall t : gmap string Z, t !! r = Some 1 ->
            <[c := lvl]> t !! r = Some 1 /\ <[c := lvl]> t !! c = Some lvl).
  { intros t Ht. rewrite lookup_insert_ne by congruence.
    rewrite lookup_insert_eq. auto. }
  destruct (Hv _ Hr) as [H1 H2]. destruct (Hv _ Hr') as [H1' H2'].
  destruct (evaluate x (<[c := lvl]> (values j))) as [u|] eqn:Hu.
  2:{ cbn [settle] in H. rewrite Hu in H. discriminate. }
  rewrite (settle_overridden fuel _ u lvl H1 H2 Hu) in H.
  cbn [mbind Result_bind mret Result_ret] in H. injection H as <-.
  destruct (Hover _ _ lvl H1 H1' H2 H2') as [Heq Hkeep].
  rewrite Hu in Heq. destruct (Hkeep u Hu) as [Hur Huc].
  rewrite (settle_overridden fuel _ u lvl H1' H2' Heq).
  cbn [mbind Result_bind mret Result_ret].
  eexists. split; [reflexivity|]. cbn.
  repeat split; auto; cbn; congruence.
Qed.

Lemma tick_overridden j j' k :
  held x c r j j' -> tick iterationCap j = Ok k ->
  exists k', tick iterationCap j' = Ok k' /\ values k' = values k /\ held x c r k k'.
Proof.
  intros Hh H. unfold tick in *.
  apply bind_Ok in H as (j1 & H1 & H). apply bind_Ok in H as (j2 & H2 & [= <-]).
  destruct (clockEdge_overridden true j j' j1 Hh H1) as (j1' & -> & _ & Hh1 & _).
  cbn [mbind Result_bind].
  destruct (clockEdge_overridden false j1 j1' j2 Hh1 H2) as (j2' & -> & Hv2 & Hh2 & _).
  cbn [mbind Result_bind mret Result_ret].
  eexists. split; [reflexivity|]. split; [exact Hv2|].
  destruct Hh2 as ((? & ? & ?) & ? & ? & ? & ?). repeat split; assumption.
Qed.

Lemma ticks_overridden n j j' k :
  held x c r j j' -> ticks iterationCap (S n) j = Ok k ->
  exists k', ticks iterationCap (S n) j' = Ok k' /\ values k' = values k /\
             sameDesign k k'.
Proof.
  revert j j'. induction n as [|n IH]; intros j j' Hh H;
    cbn [ticks] in H; apply bind_Ok in H as (j1 & H1 & H);
    destruct (tick_overridden j j' j1 Hh H1) as (j1' & Hj1' & Hv1 & Hh1).
  - cbn [ticks] in *. rewrite Hj1'. cbn [mbind Result_bind]. injection H as <-.
    exists j1'. split; [reflexivity|]. split; [exact Hv1|apply Hh1].
  - destruct (IH j1 j1' Hh1 H) as (k' & Hk' & Hv & Hd).
    exists k'. split; [|auto]. cbn [ticks]. rewrite Hj1'. exact Hk'.
Qed.

End Overridden.

Section ResetTwice.
Variables iterationCap resetCycles : nat.

Lemma land_one (w : N) : w <> 0%N -> Z.land 1 (Z.ones (Z.of_N w)) = 1.
Proof.
  intros Hw. rewrite Z.land_ones by lia. apply Z.mod_small.
  split; [lia|]. apply (Z.pow_gt_1 2); lia.
Qed.

Lemma holdReset_overridden i j i2 r s :
  rst (bound i) = Some r ->
  signals (moddef i) !! r = Some s -> width s <> 0%N ->
  r <> clk (bound i) ->
  resetOverrides (exe i) (clk (bound i)) r ->
  (2 <= iterationCap)%nat -> (1 <= resetCycles)%nat ->
  sameDesign i j ->
  holdReset iterationCap resetCycles i = Ok i2 ->
  exists j2, holdReset iterationCap resetCycles j = Ok j2 /\
             values j2 = values i2 /\ sameDesign i2 j2.
Proof.
  intros Hrst Hs Hw Hrc Hover Hcap Hcyc (Hm & Hx & Hb) H.
  unfold holdReset, driveReset, setSignal in *. rewrite Hb, Hm, Hrst, Hs in *.
  cbn [mbind Result_bind] in *. rewrite (land_one _ Hw) in *.
  destruct resetCycles as [|n]; [lia|].
  eapply (ticks_overridden iterationCap (exe i) (clk (bound i)) r Hover Hrc Hcap);
    [|exact H].
  repeat split; cbn; auto; apply lookup_insert_eq.
Qed.

End ResetTwice.

Section Detect.
Variables iterationCap detectBudget : nat.

Lemma filter_level_other (b : bool) (levels : list bool) :
  Forall (fun c => c = b) levels ->
  filter (fun c => c = negb b) levels = [].
Proof.
  induction 1 as [|c levels -> _ IH]; [reflexivity|].
  rewrite filter_cons_False by (destruct b; discriminate). exact IH.
Qed.

Lemma noToggle_count (levels : list bool) :
  noToggle levels ->
  length (filter (fun b => b = true) levels) = 0%nat \/
  length (filter (fun b => b = false) levels) = 0%nat.
Proof.
  intros H. destruct levels as [|b levels]; [left; reflexivity|].
  assert (Hall : Forall (fun c => c = b) (b :: levels)).
  { apply Forall_forall. intros c Hc. apply H; [exact Hc|left]. }
  apply filter_level_other in Hall.
  destruct b; [right|left]; simpl in Hall; rewrite Hall; reflexivity.
Qed.

Lemma classify_noToggle levels : noToggle levels -> classify levels = None.
Proof.
  intros H. unfold classify.
  destruct (noToggle_count levels H) as [-> | ->]; simpl.
  - reflexivity.
  - rewrite orb_true_r. reflexivity.
Qed.

Lemma classify_Some levels a : classify levels = Some a -> ~ noToggle levels.
Proof.
  intros H Hn. rewrite (classify_noToggle _ Hn) in H. discriminate.
Qed.

Lemma detect_spec (i : SimulationInstance) :
  match observe iterationCap detectBudget i with
  | Ok (i', samples) =>
      let hs := map (fun s : Sample => s.1.2) samples in
      let vs := map (fun s : Sample => s.2) samples in
      (noToggle hs \/ noToggle vs ->
       detectSyncPolarity iterationCap detectBudget i = Err DetectionTimeout) /\
      (forall r, detectSyncPolarity iterationCap detectBudget i = Ok r ->
         ~ noToggle hs /\ ~ noToggle vs)
  | Err k => detectSyncPolarity iterationCap detectBudget i = Err k
  end.
Proof.
  unfold detectSyncPolarity.
  destruct (observe iterationCap detectBudget i) as [[i' samples]|k];
    [|reflexivity].
  cbn [mbind Result_bind]. cbv zeta.
  change (nat * bool * bool)%type with Sample.
  set (hs := map (fun s : Sample => s.1.2) samples).
  set (vs := map (fun s : Sample => s.2) samples).
  split.
  - intros [H|H]; rewrite (classify_noToggle _ H); [reflexivity|].
    destruct (classify hs); reflexivity.
  - intros r.
    destruct (classify hs) as [h|] eqn:Hh; [|discriminate].
    destruct (classify vs) as [v|] eqn:Hv; [|discriminate].
    intros _. eauto using classify_Some.
Qed.

End Detect.


End SimFacts.

(** ** The test bench *)

Module FixtureFacts.
Import Fixture.

Lemma vgaEval_reset v c :
  rd v "reset" = 1 -> rd v "clk" = c -> vgaEval v = Some (resetTable c).
Proof.
  intros Hr Hc. unfold vgaEval. rewrite Hr, Hc. reflexivity.
Qed.

Lemma settle_reset fuel v c :
  rd v "reset" = 1 -> rd v "clk" = c ->
  Sim.settle (S (S fuel)) vgaExe v = Sim.Ok (resetTable c).
Proof.
  intros Hr Hc. cbn [Sim.settle Sim.evaluate vgaExe].
  rewrite (vgaEval_reset v c Hr Hc).
  destruct (decide (resetTable c = v)) as [<-|Hne]; [reflexivity|].
  rewrite (vgaEval_reset (resetTable c) c) by reflexivity.
  rewrite decide_True by reflexivity. reflexivity.
Qed.

Lemma clockEdge_reset (l : bool) i :
  fixtureDesign i -> rd (Sim.values i) "reset" = 1 ->
  exists i', Sim.clockEdge 8 l i = Sim.Ok i' /\ fixtureDesign i' /\
             Sim.values i' = resetTable (if l then 1 else 0).
Proof.
  intros (Hm & Hx & Hb) Hr. unfold Sim.clockEdge, Sim.setSignal, Sim.eval.
  rewrite Hb, Hm. cbn [Sim.clk vgaBound].
  replace (Sim.signals vgaDef !! "clk") with (Some (sig "clk" 1 Sim.input))
    by (vm_compute; reflexivity).
  cbn [mbind Sim.Result_bind Sim.exe Sim.values Sim.with_values Sim.width sig].
  rewrite Hx.
  rewrite (settle_reset 6 _ (if l then 1 else 0)).
  - eexists. split; [reflexivity|]. split; [|reflexivity].
    repeat split; assumption.
  - unfold rd. rewrite lookup_insert_ne by discriminate. exact Hr.
  - unfold rd. rewrite lookup_insert_eq. destruct l; reflexivity.
Qed.

Lemma rd_resetTable c : rd (resetTable c) "reset" = 1.
Proof. reflexivity. Qed.

Lemma tick_reset i :
  fixtureDesign i -> rd (Sim.values i) "reset" = 1 ->
  exists i', Sim.tick 8 i = Sim.Ok i' /\ fixtureDesign i' /\
             Sim.values i' = resetTable 0.
Proof.
  intros Hd Hr. unfold Sim.tick.
  destruct (clockEdge_reset true i Hd Hr) as (i1 & -> & Hd1 & Hv1).
  cbn [mbind Sim.Result_bind].
  destruct (clockEdge_reset false i1 Hd1) as (i2 & -> & Hd2 & Hv2).
  { rewrite Hv1. reflexivity. }
  cbn [mbind Sim.Result_bind mret Sim.Result_ret].
  eexists. split; [reflexivity|]. split; [exact Hd2|exact Hv2].
Qed.

Lemma holdReset_fixture i :
  fixtureDesign i ->
  exists i', Sim.holdReset 8 2 i = Sim.Ok i' /\ Sim.values i' = resetTable 0.
Proof.
  intros (Hm & Hx & Hb). unfold Sim.holdReset, Sim.driveReset, Sim.setSignal.
  rewrite Hb, Hm. cbn [Sim.rst vgaBound].
  replace (Sim.signals vgaDef !! "reset") with (Some (sig "reset" 1 Sim.input))
    by (vm_compute; reflexivity).
  cbn [mbind Sim.Result_bind Sim.ticks].
  match goal with |- context [Sim.tick 8 ?j] =>
    destruct (tick_reset j) as (i1 & -> & Hd1 & Hv1) end.
  { repeat split; assumption. }
  { unfold rd. cbn [Sim.values Sim.with_values Sim.width sig].
    rewrite lookup_insert_eq. reflexivity. }
  cbn [mbind Sim.Result_bind].
  destruct (tick_reset i1 Hd1) as (i2 & -> & Hd2 & Hv2).
  { rewrite Hv1. reflexivity. }
  eexists. split; [reflexivity|exact Hv2].
Qed.

Lemma fixture_overridden : Sim.resetOverrides vgaExe "clk" "reset".
Proof.
  intros v v' lvl Hr Hr' Hc Hc'.
  assert (E : forall t : gmap string Z,
            t !! "reset" = Some 1 -> t !! "clk" = Some lvl ->
            vgaEval t = Some (resetTable lvl)).
  { intros t H1 H2. apply vgaEval_reset; unfold rd; [rewrite H1|rewrite H2]; reflexivity. }
  cbn [Sim.evaluate vgaExe]. rewrite (E v Hr Hc), (E v' Hr' Hc').
  split; [reflexivity|]. intros u [= <-]. split; reflexivity.
Qed.

End FixtureFacts.

(** ** Typed arrays *)

Lemma length_store px w : length (store px w) = length px.
Proof. unfold store. case_decide; [apply length_insert|reflexivity]. Qed.

Lemma length_stores ws px : length (stores px ws) = length px.
Proof.
  unfold stores. revert px. induction ws as [|w ws IH]; intros px; simpl; [reflexivity|].
  rewrite IH. apply length_store.
Qed.

Lemma length_Uint8Array n : length (Uint8Array n) = n.
Proof. apply length_replicate. Qed.


(** ** What a callback leaves unchanged *)

Section StableRules.
Context {K : Kernel}.
Variable R : World -> World -> Prop.
Hypothesis R_refl : forall w, R w w.
Hypothesis R_trans : forall w1 w2 w3, R w1 w2 -> R w2 w3 -> R w1 w3.

Lemma stable_bind {A B} (m : Js A) (k : A -> Js B) :
  stable R m -> (forall a, stable R (k a)) -> stable R (m ≫= k).
Proof.
  intros Hm Hk w. rewrite wp_bind. eapply wp_mono; [apply Hm|].
  cbn beta. intros [a|e] w' H; [|exact H].
  eapply wp_mono; [apply Hk|]. cbn beta. intros _ w'' H'. eauto.
Qed.
Lemma stable_ret {A} (a : A) : stable R (ret a).
Proof. intros w. apply R_refl. Qed.
Lemma stable_mret {A} (a : A) : stable R (mret a).
Proof. intros w. apply R_refl. Qed.
Lemma stable_throw {A} e : stable R (@throw _ A e).
Proof. intros w. apply R_refl. Qed.
Lemma stable_read {A} (f : World -> A) : stable R (read f).
Proof. intros w. apply R_refl. Qed.
Lemma stable_write f : (forall w, R w (f w)) -> stable R (write f).
Proof. intros H w. apply H. Qed.
Lemma stable_emit e : (forall w, R w (push e w)) -> stable R (emit e).
Proof. intros H w. apply H. Qed.
Lemma stable_tryCatch {A} (m : Js A) h :
  stable R m -> (forall e, stable R (h e)) -> stable R (tryCatch m h).
Proof.
  intros Hm Hh w. rewrite wp_tryCatch. eapply wp_mono; [apply Hm|].
  cbn beta. intros [a|e] w' H; [exact H|].
  eapply wp_mono; [apply Hh|]. cbn beta. intros _ w'' H'. eauto.
Qed.

End StableRules.

Ltac stable_go side :=
  repeat first
    [ apply stable_bind; [solve [side]| |intros ?]
    | apply stable_ret; solve [side] | apply stable_mret; solve [side]
    | apply stable_throw; solve [side] | apply stable_read; solve [side]
    | apply stable_tryCatch; [solve [side]| |intros ?]
    | match goal with
      | |- stable _ (match ?x with _ => _ end) => destruct x
      | |- stable _ (if ?x then _ else _) => destruct x
      | |- stable _ (let '(_, _) := ?x in _) => destruct x
      end ].

Section Offstage.
Context {K : Kernel}.

Lemma offstage_refl w : offstage w w.
Proof. repeat split. Qed.
Lemma offstage_trans w1 w2 w3 : offstage w1 w2 -> offstage w2 w3 -> offstage w1 w3.
Proof. unfold offstage. intros (?&?&?&?&?) (?&?&?&?&?). repeat split; congruence. Qed.
Lemma sameModule_refl w : sameModule w w.
Proof. reflexivity. Qed.
Lemma sameModule_trans w1 w2 w3 : sameModule w1 w2 -> sameModule w2 w3 -> sameModule w1 w3.
Proof. unfold sameModule. congruence. Qed.

Lemma offstage_push e w : backstage e -> offstage w (push e w).
Proof.
  intros He. unfold offstage. cbn [push log set_log running immediates].
  repeat split; destruct e as [| | | | |op t| | | | | | |]; simpl in *; try tauto.
  destruct op; simpl in *; try reflexivity; discriminate.
Qed.

End Offstage.

Ltac offstage_side := first [exact offstage_refl | exact offstage_trans].
Ltac sameModule_side := first [exact sameModule_refl | exact sameModule_trans].

Section Offstage2.
Context {K : Kernel}.

Lemma onModule_offstage {A} op target (f : HDLModuleWASM -> HDLModuleWASM * Outcome A) :
  isRender op = false -> stable offstage (onModule op target f).
Proof.
  intros Hop. unfold onModule.
  stable_go ltac:(offstage_side); try (apply stable_emit; intros ?; apply offstage_push; simpl; auto);
    try (apply stable_write; intros ?; repeat split).
Qed.

Lemma onModule_sameModule {A} op target (f : HDLModuleWASM -> HDLModuleWASM * Outcome A) :
  stable sameModule (onModule op target f).
Proof.
  unfold onModule.
  stable_go ltac:(sameModule_side); try (apply stable_emit; intros ?; reflexivity);
    try (apply stable_write; intros ?; reflexivity).
Qed.

Lemma establishPolarity_offstage : stable offstage establishPolarity.
Proof.
  unfold establishPolarity, call_resetModule, call_detectSyncPolarity,
    call_skipToFrameBoundary.
  stable_go ltac:(offstage_side); try (apply onModule_offstage; reflexivity);
    try (apply stable_emit; intros ?; apply offstage_push; exact I);
    try (apply stable_write; intros ?; repeat split).
Qed.

Lemma establishPolarity_sameModule : stable sameModule establishPolarity.
Proof.
  unfold establishPolarity, call_resetModule, call_detectSyncPolarity,
    call_skipToFrameBoundary.
  stable_go ltac:(sameModule_side); try apply onModule_sameModule;
    try (apply stable_emit; intros ?; reflexivity);
    try (apply stable_write; intros ?; reflexivity).
Qed.

Lemma initModule_start_offstage modules : stable offstage (initModule_start modules).
Proof.
  unfold initModule_start, disposeModule, new_HDLModuleWASM.
  stable_go ltac:(offstage_side); try (apply stable_emit; intros ?; apply offstage_push; simpl; auto);
    try (apply stable_write; intros ?; repeat split).
Qed.

Lemma initModule_resume_offstage id : stable offstage (initModule_resume id).
Proof.
  unfold initModule_resume.
  stable_go ltac:(offstage_side); try apply establishPolarity_offstage;
    try (apply stable_emit; intros ?; apply offstage_push; simpl; auto);
    try (apply stable_write; intros ?; repeat split).
Qed.

End Offstage2.


(** ** One call of [compileSources] as a function of the panel *)

Section Pipeline.
Context {K : Kernel}.

Lemma advance_index i c c' r :
  (i = Ready c \/ i = AfterCompile c \/ i = InitSettled c \/ i = AfterInitModule c) ->
  advance i r = advance (match i with
                         | Ready _ => Ready c' | AfterCompile _ => AfterCompile c'
                         | InitSettled _ => InitSettled c' | _ => AfterInitModule c'
                         end) r.
Proof. intros [->|[->|[->| ->]]]; reflexivity. Qed.

Lemma step_advance i c original n sys st :
  (i = Ready c \/ i = AfterCompile c \/ i = InitSettled c \/ i = AfterInitModule c) ->
  onTrack c original n sys -> calls sys !! c = Some st ->
  world (step sys i) = (advance i (world sys, st)).1 /\
  calls (step sys i) !! c = Some (advance i (world sys, st)).2.
Proof.
  intros Hi (Hgone & _) Hst.
  assert (Hstep : step sys i = resume i c sys).
  { unfold step. rewrite Hgone. destruct Hi as [->|[->|[->| ->]]]; reflexivity. }
  rewrite Hstep. unfold resume, advance. rewrite Hst. cbn [mbind option_bind fst snd].
  destruct (segment i st) as [seg|]; [|auto].
  destruct (seg (world sys)) as [w' st']. cbn.
  split; [reflexivity|]. apply list_lookup_insert_eq. eapply lookup_lt_Some. eassumption.
Qed.

Lemma compileSources_pipeline sources tc sys :
  hostGone (world sys) = false ->
  world (compileSources sources tc sys) = (pipeline sources tc (world sys)).1 /\
  (pipeline sources tc (world sys)).2 = Finished.
Proof.
  intros Hgone. unfold compileSources, pipeline.
  set (c := length (calls sys)). set (original := process_exit (world sys)).
  cbn [run fold_left].
  set (s0 := step sys (Simulate sources tc)).
  assert (H0 : onTrack c original 0 s0 /\
               world s0 = (compileSources_begin sources tc (world sys)).1 /\
               calls s0 !! c = Some (compileSources_begin sources tc (world sys)).2).
  { subst s0. unfold step. rewrite Hgone.
    destruct (compileSources_begin sources tc (world sys)) as [w' st] eqn:Hb.
    cbn [world calls fst snd].
    assert (Hl : (calls sys ++ [st]) !! c = Some st) by (apply list_lookup_middle; reflexivity).
    split; [|auto]. split; [|exists st; split; [exact Hl|split; [lia|]]].
    - unfold compileSources_begin in Hb.
      change ((stopSimulation;; postMessage (status "Compiling...")) (world sys))
        with (push (Posted (status "Compiling...")) (set_running false (world sys)),
              @Normal unit tt) in Hb.
      cbv beta iota zeta in Hb.
      destruct (Verilator.compileVerilator_start tc); injection Hb as <- <-; exact Hgone.
    - unfold compileSources_begin in Hb.
      change ((stopSimulation;; postMessage (status "Compiling...")) (world sys))
        with (push (Posted (status "Compiling...")) (set_running false (world sys)),
              @Normal unit tt) in Hb.
      cbv beta iota zeta in Hb.
      destruct (Verilator.compileVerilator_start tc); injection Hb as <- <-;
        split; reflexivity. }
  destruct H0 as (T0 & W0 & C0).
  assert (Hnext : forall i s r n,
    (i = Ready c \/ i = AfterCompile c \/ i = InitSettled c \/ i = AfterInitModule c) ->
    onTrack c original n s -> world s = r.1 -> calls s !! c = Some r.2 ->
    world (step s i) = (advance i r).1 /\ calls (step s i) !! c = Some (advance i r).2).
  { intros i s r n Hi Ht Hw Hc.
    destruct (step_advance i c original n s r.2 Hi Ht Hc) as [E1 E2].
    rewrite Hw in E1, E2. destruct r; auto. }
  pose proof (step_onTrack (Ready c) c original s0 (or_introl eq_refl) 0 T0 (le_n _)) as T1.
  destruct (Hnext (Ready c) s0 _ 0%nat (or_introl eq_refl) T0 W0 C0) as [W1 C1].
  pose proof (step_onTrack (AfterCompile c) c original _ (or_intror (or_introl eq_refl)) 1 T1 (le_n _)) as T2.
  destruct (Hnext (AfterCompile c) _ _ 1%nat (or_intror (or_introl eq_refl)) T1 W1 C1) as [W2 C2].
  pose proof (step_onTrack (InitSettled c) c original _
                (or_intror (or_intror (or_introl eq_refl))) 2 T2 (le_n _)) as T3.
  destruct (Hnext (InitSettled c) _ _ 2%nat (or_intror (or_intror (or_introl eq_refl))) T2 W2 C2)
    as [W3 C3].
  pose proof (step_onTrack (AfterInitModule c) c original _
                (or_intror (or_intror (or_intror eq_refl))) 3 T3 (le_n _)) as T4.
  destruct (Hnext (AfterInitModule c) _ _ 3%nat (or_intror (or_intror (or_intror eq_refl))) T3 W3 C3)
    as [W4 C4].
  split; [exact W4|].
  destruct T4 as (_ & st & Hst & Hr & _).
  change (advance (AfterInitModule c)) with (advance (AfterInitModule 0)) in C4.
  change (advance (InitSettled c)) with (advance (InitSettled 0)) in C4.
  change (advance (AfterCompile c)) with (advance (AfterCompile 0)) in C4.
  change (advance (Ready c)) with (advance (Ready 0)) in C4.
  rewrite C4 in Hst. injection Hst as <-.
  match goal with |- ?x = Finished => destruct x end; cbn [rank] in Hr; try lia.
  reflexivity.
Qed.

End Pipeline.

(** ** What the webview is sent *)

Section Protocol.
Context {K : Kernel}.

Lemma posts_app evs l : posts (evs ++ l) = posts l ++ posts evs.
Proof.
  induction evs as [|e evs IH]; simpl; [rewrite app_nil_r; reflexivity|].
  destruct e; simpl; rewrite ?IH, ?app_assoc; reflexivity.
Qed.

Lemma renderLoop_started w id :
  running w = true -> mod_ w = Some id ->
  exists m, posts (log (renderLoop w).1) = posts (log w) ++ [m] /\
    frameOrFault m /\ running (renderLoop w).1 = isFrame m /\
    mod_ (renderLoop w).1 = mod_ w /\ host (renderLoop w).1 = host w /\
    immediates (renderLoop w).1
    = (if isFrame m then S (immediates w) else immediates w).
Proof.
  intros Hr Hm.
  unfold renderLoop, call_renderVGAFrame, onModule, postMessage, emit,
    mbind, Js_bind, bind, tryCatch, read, write, ret, throw.
  rewrite Hr, Hm. rewrite bool_decide_eq_true_2 by eauto.
  cbn -[Uint8Array stores Nat.mul]. rewrite Hm.
  destruct (heap w !! id) as [m|]; cbn -[Uint8Array stores Nat.mul].
  - match goal with |- context [renderVGAFrame ?a ?b ?c] =>
      destruct (renderVGAFrame a b c) as [[m' ws] [e|]] end;
      cbn -[Uint8Array stores Nat.mul].
    + eexists (error _). repeat split; simpl; eauto.
    + rewrite Hr. cbn -[Uint8Array stores Nat.mul].
      eexists (frame _ _ _). repeat split; simpl; auto.
      rewrite length_stores. apply length_Uint8Array.
  - eexists (error _). repeat split; simpl; eauto.
Qed.

Lemma renderLoop_returns w : (renderLoop w).2 = Normal tt.
Proof.
  unfold renderLoop, call_renderVGAFrame, onModule, postMessage, emit,
    mbind, Js_bind, bind, tryCatch, read, write, ret, throw.
  destruct (negb (running w) || negb (bool_decide (is_Some (mod_ w)))); [reflexivity|].
  cbn -[Uint8Array stores Nat.mul].
  destruct (mod_ w) as [id|]; [|reflexivity].
  destruct (heap _ !! id) as [m|]; [|reflexivity].
  match goal with |- context [renderVGAFrame ?a ?b ?c] =>
    destruct (renderVGAFrame a b c) as [[m' ws] [e|]] end; [reflexivity|].
  cbn -[Uint8Array stores Nat.mul]. destruct (running w); reflexivity.
Qed.

Lemma initModule_start_binds modules w :
  wp (initModule_start modules)
     (fun o w' => match o with
                  | Normal id => mod_ w' = Some id
                  | Throw _ => True
                  end) w.
Proof.
  unfold initModule_start, disposeModule, new_HDLModuleWASM. wp_go.
  destruct (mod_ w); wp_go; destruct (construct _ _); wp_go; auto.
Qed.

Lemma initModule_resume_sameModule id : stable sameModule (initModule_resume id).
Proof.
  unfold initModule_resume.
  stable_go ltac:(sameModule_side); try apply establishPolarity_sameModule;
    try (apply stable_emit; intros ?; reflexivity);
    try (apply stable_write; intros ?; reflexivity).
Qed.

(** The state a call is in when the promise of [compileVerilator] has
    settled. *)
Lemma pipeline_compiled sources tc w :
  let opts := {| Verilator.topModule := detectTopModule sources;
                 Verilator.sources := sources |} in
  let w0 := set_process_exit Verilator.throwingExit
              (push (Posted (status "Compiling...")) (set_running false w)) in
  exists res,
    Verilator.compileVerilator feedLines parse Verilator.throwingExit tc opts
    = Verilator.Settled res /\
    advance (Ready 0) (compileSources_begin sources tc w)
    = (w0, AwaitCompile (process_exit w) res).
Proof.
  intros opts w0. unfold compileSources_begin.
  change ((stopSimulation;; postMessage (status "Compiling...")) w)
    with (push (Posted (status "Compiling...")) (set_running false w), @Normal unit tt).
  cbv beta iota zeta. fold w0. fold opts.
  unfold Verilator.compileVerilator, Verilator.compileVerilator_start.
  destruct (Verilator.loadFault tc) as [e|]; [exists (Throw e); auto|].
  unfold advance. cbn [segment snd fst]. unfold compileVerilator_settle.
  change (process_exit w0) with Verilator.throwingExit.
  pose proof (resume_never_exits tc opts) as H.
  destruct (Verilator.compileVerilator_resume _ _ _ _ _) as [r|]; [|contradiction].
  exists r. auto.
Qed.


Lemma afterInitModule_posts o res w :
  running w = false -> (res = None -> is_Some (mod_ w)) ->
  let r := compileSources_afterInitModule o res w in
  (exists text, posts (log r.1) = posts (log w) ++ [error text] /\
                running r.1 = false) \/
  (exists m, posts (log r.1) = posts (log w) ++ [status "Running"; m] /\
             frameOrFault m /\ running r.1 = isFrame m).
Proof.
  intros Hr Hm. unfold compileSources_afterInitModule. cbn [fst snd].
  destruct res as [e|].
  - left. exists ("Error: " +:+ messageOf e). split; [reflexivity|exact Hr].
  - right. destruct (Hm eq_refl) as [id Hid].
    unfold postMessage, emit, finally_, catch_, startSimulation,
      mbind, Js_bind, bind, tryCatch, read, write.
    cbn [fst snd mod_ running set_log]. rewrite Hid, Hr.
    rewrite bool_decide_eq_true_2 by eauto. cbn [negb orb].
    set (w1 := set_running true (set_log (Posted (status "Running") :: log w) w)).
    destruct (renderLoop_started w1 id eq_refl Hid) as (m & Hp & Hf & Hrun & _).
    pose proof (renderLoop_returns w1) as Ho.
    destruct (renderLoop w1) as [w2 o2]. cbn [fst snd] in *. subst o2.
    cbn [fst snd log running set_process_exit].
    exists m. rewrite Hp. subst w1. cbn [log set_running set_log posts].
    rewrite <- app_assoc. auto.
Qed.


Lemma built_posts o modules w :
  running w = false ->
  let r := advance (AfterInitModule 0)
             (advance (InitSettled 0)
                (match initModule_start modules w with
                 | (w2, Normal id) => (w2, AwaitInit o id)
                 | (w2, Throw e) => (w2, AwaitInitModule o (Some e))
                 end)) in
  (exists text, posts (log r.1) = posts (log w) ++ [error text] /\
                running r.1 = false) \/
  (exists m, posts (log r.1) = posts (log w) ++ [status "Running"; m] /\
             frameOrFault m /\ running r.1 = isFrame m).
Proof.
  intros Hr.
  pose proof (initModule_start_offstage modules w) as Hoff.
  pose proof (initModule_start_binds modules w) as Hbind. unfold wp in Hoff, Hbind.
  destruct (initModule_start modules w) as [w2 [id|e]]; cbn [fst snd] in *;
    destruct Hoff as (Hr2 & _ & Hp2 & _).
  - change (advance (InitSettled 0) (w2, AwaitInit o id)) with (initModule_settle o id w2).
    unfold initModule_settle.
    pose proof (initModule_resume_offstage id w2) as Hoff3.
    pose proof (initModule_resume_sameModule id w2) as Hsame3. unfold wp in Hoff3, Hsame3.
    destruct (initModule_resume id w2) as [w3 [[]|e]]; cbn [fst snd] in *;
      destruct Hoff3 as (Hr3 & _ & Hp3 & _);
      match goal with |- context [advance _ (w3, AwaitInitModule o ?r)] =>
        change (advance (AfterInitModule 0) (w3, AwaitInitModule o r))
          with (compileSources_afterInitModule o r w3) end;
      rewrite <- Hp2, <- Hp3; apply afterInitModule_posts; try congruence.
    intros _. unfold sameModule in Hsame3. rewrite Hsame3, Hbind. eauto.
  - change (advance (InitSettled 0) (w2, AwaitInitModule o (Some e)))
      with (w2, AwaitInitModule o (Some e)).
    change (advance (AfterInitModule 0) (w2, AwaitInitModule o (Some e)))
      with (compileSources_afterInitModule o (Some e) w2).
    rewrite <- Hp2. apply afterInitModule_posts; [congruence|discriminate].
Qed.

Lemma afterCompile_posts o res w :
  running w = false ->
  let r := advance (AfterInitModule 0)
             (advance (InitSettled 0) (compileSources_afterCompile o res w)) in
  (exists text, posts (log r.1) = posts (log w) ++ [error text] /\
                running r.1 = false) \/
  (exists m, posts (log r.1) = posts (log w) ++ [status "Running"; m] /\
             frameOrFault m /\ running r.1 = isFrame m).
Proof.
  intros Hr. unfold compileSources_afterCompile.
  destruct res as [res|e]; [destruct (Verilator.output res) as [modules|]|].
  - match goal with |- context [initModule_start modules ?w1] =>
      assert (Hw1 : running w1 = false /\ posts (log w1) = posts (log w))
        by (case_bool_decide; auto);
      destruct Hw1 as [Hr1 Hp1]; rewrite <- Hp1; apply built_posts; exact Hr1 end.
  - left. eexists. unfold advance. cbn. split; [reflexivity|exact Hr].
  - left. eexists. unfold advance. cbn. split; [reflexivity|exact Hr].
Qed.

Lemma renderLoop_idle w :
  running w = false \/ mod_ w = None -> renderLoop w = (w, Normal tt).
Proof.
  intros H. unfold renderLoop, mbind, Js_bind, bind, read. cbn.
  destruct H as [-> | ->]; [reflexivity|].
  rewrite bool_decide_eq_false_2 by (intros [? ?]; discriminate).
  rewrite orb_true_r. reflexivity.
Qed.

Lemma onDidReceiveMessage_offstage command w :
  let w' := (onDidReceiveMessage command w).1 in
  posts (log w') = posts (log w) /\ renders (log w') = renders (log w) /\
  mod_ w' = mod_ w /\ immediates w' = immediates w /\ host w' = host w /\
  running w' = (if decide (command = "stop") then false else running w).
Proof.
  unfold onDidReceiveMessage, stopSimulation.
  destruct (decide (command = "stop")); [repeat split|].
  destruct (decide (command = "reset")); [|repeat split].
  unfold mbind, Js_bind, bind, read. cbn [fst snd].
  destruct (bool_decide (is_Some (mod_ w))); [|repeat split].
  pose proof (establishPolarity_offstage w) as (H1 & H2 & H3 & H4 & H5).
  pose proof (establishPolarity_sameModule w) as H6. unfold sameModule in H6.
  auto 10.
Qed.

Lemma handler_message (command : string) (w : World) :
  let w' := handler (onDidReceiveMessage command) w in
  posts (log w') = posts (log w) /\ renders (log w') = renders (log w) /\
  mod_ w' = mod_ w /\ (running w' = true -> running w = true) /\
  (mod_ w = None ->
   heap w' = heap w /\ kernelCalls (log w') = kernelCalls (log w)).
Proof.
  intros w'. subst w'.
  pose proof (onDidReceiveMessage_offstage command w) as (H1 & H2 & H3 & _ & _ & H6).
  assert (Hrun : running (onDidReceiveMessage command w).1 = true -> running w = true).
  { rewrite H6. destruct (decide _); [discriminate|auto]. }
  split; [|split; [|split; [|split]]].
  1-4: unfold handler; destruct (onDidReceiveMessage command w) as [w1 [[]|e]];
    cbn [fst snd log set_log posts renders mod_ running] in *; assumption.
  intros Hm. unfold handler, onDidReceiveMessage, stopSimulation.
  destruct (decide (command = "stop")); [split; reflexivity|].
  destruct (decide (command = "reset")); [|split; reflexivity].
  unfold mbind, Js_bind, bind, read. rewrite Hm.
  rewrite bool_decide_eq_false_2 by (intros [? ?]; discriminate). split; reflexivity.
Qed.

Lemma disposePanel_effects w :
  let w' := handler disposePanel w in
  posts (log w') = posts (log w) /\ renders (log w') = renders (log w) /\
  running w' = false /\ mod_ w' = None /\
  (mod_ w = None -> heap w' = heap w /\ kernelCalls (log w') = kernelCalls (log w)).
Proof.
  unfold handler, disposePanel, disposeModule, emit, mbind, Js_bind, bind, read, write.
  cbn [fst snd mod_ set_running].
  destruct (mod_ w) as [id|] eqn:Hm; cbn; repeat split; try reflexivity;
    try discriminate; assumption.
Qed.

Lemma passive_stopped sys i :
  passive i = true -> running (world sys) = false ->
  running (world (step sys i)) = false /\
  posts (log (world (step sys i))) = posts (log (world sys)) /\
  renders (log (world (step sys i))) = renders (log (world sys)).
Proof.
  intros Hi Hr. unfold step. destruct (hostGone (world sys)); [auto|].
  destruct i; try discriminate; cbn [onWorld world].
  - pose proof (handler_message command (world sys)) as (H1 & H2 & _ & H4 & _).
    split; [|auto]. destruct (running (handler _ _)); [|reflexivity].
    rewrite H4 in Hr by reflexivity. discriminate.
  - destruct (immediates (world sys)) as [|n]; [auto|]. cbn [onWorld world].
    unfold handler. rewrite renderLoop_idle by (left; exact Hr). auto.
  - pose proof (disposePanel_effects (world sys)) as (H1 & H2 & H3 & _). auto.
Qed.

Lemma passive_unbound sys i :
  passive i = true -> mod_ (world sys) = None ->
  mod_ (world (step sys i)) = None /\
  heap (world (step sys i)) = heap (world sys) /\
  kernelCalls (log (world (step sys i))) = kernelCalls (log (world sys)) /\
  posts (log (world (step sys i))) = posts (log (world sys)).
Proof.
  intros Hi Hm. unfold step. destruct (hostGone (world sys)); [auto|].
  destruct i; try discriminate; cbn [onWorld world].
  - pose proof (handler_message command (world sys)) as (H1 & _ & H3 & _ & H5).
    destruct (H5 Hm). split; [congruence|]. auto.
  - destruct (immediates (world sys)) as [|n]; [auto|]. cbn [onWorld world].
    unfold handler. rewrite renderLoop_idle by (right; exact Hm). auto.
  - pose proof (disposePanel_effects (world sys)) as (H1 & _ & _ & H4 & H5).
    destruct (H5 Hm). auto.
Qed.

End Protocol.

(** ** The compiler binary *)

Module WasmFacts.
Import Wasm.
Section Binary.
Context {Buffer : Type}.

Lemma loads_cached (c : Buffer) calls :
  (loads (Some c) calls).1 = Some c /\
  Forall (fun l => readFile l = false) (loads (Some c) calls).2 /\
  Forall2 (fun call l => binary l = Normal (default c call.1))
          calls (loads (Some c) calls).2.
Proof.
  induction calls as [|[given disk] calls IH]; [repeat constructor|].
  cbn [loads]. assert (E : wasmBinary given (Some c) disk
                           = (Some c, false, Normal (default c given)))
    by (destruct given; reflexivity).
  rewrite E. destruct (loads (Some c) calls) as [final ls]. cbn [fst snd] in *.
  destruct IH as (H1 & H2 & H3). repeat split; try constructor; auto.
Qed.

Lemma goodReads_none (ls : list (@Load Buffer)) :
  Forall (fun l => readFile l = false) ls -> goodReads ls = 0%nat.
Proof.
  unfold goodReads. induction 1 as [|l ls Hl _ IH]; [reflexivity|].
  cbn [List.filter]. unfold goodRead at 1. rewrite Hl. exact IH.
Qed.

End Binary.
End WasmFacts.

(** ** The command and the panel registry *)

Module ExtensionFacts.
Import Extension.

Section Facts.
Context {P : Paths}.
Variable ws : Workspace.

Lemma getProperty_set key value k obj :
  getProperty k (setProperty key value obj)
  = if decide (k = key) then Some value else getProperty k obj.
Proof.
  induction obj as [|[k0 v0] obj IH]; simpl.
  - destruct (decide (key = k)), (decide (k = key)); congruence.
  - destruct (decide (k0 = key)) as [->|Hne]; simpl.
    + destruct (decide (key = k)), (decide (k = key)); congruence.
    + rewrite IH. destruct (decide (k0 = k)) as [->|]; [|reflexivity].
      destruct (decide (k = key)); congruence.
Qed.

Lemma keys_set key value obj :
  map fst (setProperty key value obj)
  = if decide (key ∈ map fst obj) then map fst obj else map fst obj ++ [key].
Proof.
  induction obj as [|[k0 v0] obj IH]; cbn [setProperty map fst app].
  - rewrite decide_False by (apply not_elem_of_nil). reflexivity.
  - destruct (decide (k0 = key)) as [->|Hne]; cbn [map fst].
    + rewrite decide_True by left. reflexivity.
    + rewrite IH. destruct (decide (key ∈ map fst obj)) as [Hin|Hnin].
      * rewrite decide_True by (right; exact Hin). reflexivity.
      * rewrite decide_False; [reflexivity|].
        intros Hin. apply elem_of_cons in Hin as [->|Hin]; contradiction.
Qed.


Lemma firstOccurrences_seen keys seen1 seen2 :
  (forall k, k ∈ seen1 <-> k ∈ seen2) ->
  firstOccurrences keys seen1 = firstOccurrences keys seen2.
Proof.
  revert seen1 seen2. induction keys as [|k keys IH]; intros seen1 seen2 H; [reflexivity|].
  cbn [firstOccurrences].
  destruct (decide (k ∈ seen1)) as [H1|H1], (decide (k ∈ seen2)) as [H2|H2].
  - apply IH, H.
  - exfalso. apply H2, H, H1.
  - exfalso. apply H1, H, H2.
  - f_equal. apply IH. intros k'. rewrite !elem_of_cons, H. reflexivity.
Qed.

Lemma NoDup_keys_set key value obj :
  NoDup (map fst obj) -> NoDup (map fst (setProperty key value obj)).
Proof.
  intros Hnd. rewrite keys_set. case_decide as Hin; [exact Hnd|].
  apply NoDup_app. split; [exact Hnd|]. split.
  - intros k Hk Hk'. apply list_elem_of_singleton in Hk'. subst k. contradiction.
  - apply NoDup_singleton.
Qed.

Lemma contents_cons folder f files key :
  contents ws folder (f :: files) !! key
  = match contents ws folder files !! key with
    | Some o => Some o
    | None => if decide (key = relative (fsPath folder) (fsPath f))
              then Some (readFileSync ws (fsPath f)) else None
    end.
Proof.
  unfold contents. cbn [map rev]. rewrite list_to_map_app, lookup_union.
  destruct (list_to_map (rev _) !! key) as [o|].
  - destruct (list_to_map [_] !! key); reflexivity.
  - rewrite (left_id None _). cbn [list_to_map foldr fst snd uncurry].
    destruct (decide (key = relative (fsPath folder) (fsPath f))) as [->|Hne].
    + apply lookup_insert_eq.
    + rewrite lookup_insert_ne by congruence. apply lookup_empty.
Qed.

Lemma readAll_spec folder files acc :
  NoDup (map fst acc) ->
  match readAll ws folder files acc with
  | Normal sources =>
      NoDup (map fst sources) /\
      map fst sources
      = map fst acc ++ firstOccurrences (map (fun f => relative (fsPath folder) (fsPath f))
                                             files) (map fst acc) /\
      forall key,
        option_map Normal (getProperty key sources)
        = match contents ws folder files !! key with
          | Some o => Some o
          | None => option_map Normal (getProperty key acc)
          end
  | Throw e =>
      exists before file after,
        files = before ++ file :: after /\
        readFileSync ws (fsPath file) = Throw e /\
        Forall (fun f => exists c, readFileSync ws (fsPath f) = Normal c) before
  end.
Proof.
  revert acc. induction files as [|f files IH]; intros acc Hnd.
  - cbn. split; [exact Hnd|]. split; [rewrite app_nil_r; reflexivity|].
    intros key. unfold contents. cbn. rewrite lookup_empty. reflexivity.
  - cbn [readAll].
    destruct (readFileSync ws (fsPath f)) as [c|e] eqn:Hf.
    2:{ exists [], f, files. repeat split; auto. }
    set (k := relative (fsPath folder) (fsPath f)).
    specialize (IH (setProperty k c acc) (NoDup_keys_set k c acc Hnd)).
    destruct (readAll ws folder files (setProperty k c acc)) as [sources|e].
    + destruct IH as (H1 & H2 & H3). split; [exact H1|]. split.
      * rewrite H2, keys_set. cbn [map firstOccurrences]. fold k.
        destruct (decide (k ∈ map fst acc)) as [Hin|Hnin]; [reflexivity|].
        rewrite <- app_assoc. cbn [app]. do 2 f_equal.
        apply firstOccurrences_seen. intros k'.
        rewrite elem_of_app, !elem_of_cons, elem_of_nil. tauto.
      * intros key. rewrite H3, contents_cons, getProperty_set. fold k. rewrite Hf.
        destruct (contents ws folder files !! key); [reflexivity|].
        destruct (decide (key = k)); reflexivity.
    + destruct IH as (before & file & after & -> & He & Hall).
      exists (f :: before), file, after. repeat split; auto.
      constructor; eauto.
Qed.

Lemma collect_asking : Forall asking (collectVerilogSources ws).1.
Proof.
  assert (Hp : Forall asking (pickSources ws).1).
  { unfold pickSources. destruct (findFiles ws) as [files|e]; [|constructor].
    case_bool_decide; [repeat constructor|].
    destruct (showQuickPick ws _) as [[picked|]|e]; repeat constructor. }
  unfold collectVerilogSources.
  destruct (activeTextEditor ws) as [doc|]; [|exact Hp].
  destruct (isVerilog doc); [|exact Hp].
  destruct (getWorkspaceFolder ws (uri doc)); constructor.
Qed.

Lemma createOrShow_current r :
  currentPanel (createOrShow r).1.1 = Some (createOrShow r).2.
Proof. unfold createOrShow. destruct (currentPanel r) eqn:E; cbn; auto. Qed.

Lemma createOrShow_reveals r p :
  currentPanel r = Some p -> createOrShow r = (r, Revealed p, p).
Proof. intros H. unfold createOrShow. rewrite H. reflexivity. Qed.

Lemma simulate_launch r l :
  (simulate ws r).2 = Normal (Some l) ->
  exists sources,
    (collectVerilogSources ws).2 = Normal (Some sources) /\
    simulate ws r
    = ((createOrShow r).1.1,
       (collectVerilogSources ws).1 ++ [(createOrShow r).1.2],
       Normal (Some {| panel := (createOrShow r).2; launched := sources |})).
Proof.
  unfold simulate.
  destruct (collectVerilogSources ws) as [shown [[sources|]|e]]; try discriminate.
  destruct (createOrShow r) as [[r' s] p]. cbn [fst snd]. intros _. eauto.
Qed.

End Facts.

Section RegistryFacts.
Context {P : Paths}.

Lemma openPanels_app shown shown' :
  Forall asking shown' -> openPanels (shown ++ shown') = openPanels shown.
Proof.
  intros H. unfold openPanels. rewrite foldl_app.
  match goal with |- foldl _ ?x shown' = _ => generalize x end.
  induction H as [|s shown' Hs _ IH]; intros open; [reflexivity|].
  cbn [foldl]. destruct s; try contradiction; apply IH.
Qed.

Lemma openPanels_snoc shown s :
  openPanels (shown ++ [s])
  = match s with
    | Created p => p :: openPanels shown
    | Closed p => filter (fun q => q <> p) (openPanels shown)
    | _ => openPanels shown
    end.
Proof. unfold openPanels. rewrite foldl_app. reflexivity. Qed.

Lemma act_open st a :
  openPanels st.2 = option_list (currentPanel st.1) ->
  openPanels (act st a).2 = option_list (currentPanel (act st a).1).
Proof.
  destruct st as [r shown]. cbn [fst snd]. intros Hinv.
  destruct a as [ws0|p]; cbn [act fst snd].
  - unfold simulate. pose proof (collect_asking ws0) as Hask.
    destruct (collectVerilogSources ws0) as [asked [[sources|]|e]]; cbn [fst snd] in *.
    + unfold createOrShow. destruct (currentPanel r) as [q|] eqn:Hc; cbn [fst snd].
      * rewrite app_assoc, openPanels_snoc, openPanels_app by assumption.
        rewrite Hinv, Hc. reflexivity.
      * rewrite app_assoc, openPanels_snoc, openPanels_app by assumption.
        rewrite Hinv. reflexivity.
    + rewrite openPanels_app by assumption. exact Hinv.
    + rewrite openPanels_app by assumption. exact Hinv.
  - destruct (decide (p ∈ openPanels shown)) as [Hin|Hout]; cbn [fst snd];
      [|exact Hinv].
    rewrite openPanels_snoc, Hinv. rewrite Hinv in Hin.
    destruct (currentPanel r) as [q|]; cbn in Hin |- *.
    + apply list_elem_of_singleton in Hin. subst q.
      rewrite decide_False by auto. reflexivity.
    + reflexivity.
Qed.

End RegistryFacts.
End ExtensionFacts.

(** ** The script of the webview *)

Module WebviewFacts.
Import Webview.
Section Facts.
Context {F : Platform}.

Lemma resizeCanvas_ok w h v :
  (0 < w)%nat -> (0 < h)%nat ->
  exists v', resizeCanvas w h v = (v', None) /\
    imageData v' = Some {| width := w; height := h; data := replicate (w * h * 4) 0 |} /\
    canvasWidth v' = w /\ canvasHeight v' = h /\ put v' = None /\
    statusText v' = statusText v /\ errorText v' = errorText v /\
    errorShown v' = errorShown v /\ outbox v' = outbox v /\
    frameCount v' = frameCount v /\ lastFpsTime v' = lastFpsTime v /\
    fpsText v' = fpsText v.
Proof.
  intros Hw Hh. unfold resizeCanvas, createImageData.
  rewrite !bool_decide_eq_false_2 by lia. cbn [orb].
  eexists. split; [reflexivity|]. cbn. repeat split.
Qed.

Lemma resizeCanvas_wellSized w h v :
  wellSized v -> wellSized (resizeCanvas w h v).1 \/
                 (exists e, (resizeCanvas w h v).2 = Some e).
Proof.
  intros Hv. destruct (decide (0 < w)%nat) as [Hw|Hw], (decide (0 < h)%nat) as [Hh|Hh].
  - destruct (resizeCanvas_ok w h v Hw Hh) as (v' & -> & Hi & Hcw & Hch & _).
    left. unfold wellSized. cbn [fst]. rewrite Hi. cbn. rewrite length_replicate. auto.
  - right. unfold resizeCanvas, createImageData.
    rewrite (bool_decide_eq_true_2 (h = 0%nat)) by lia. rewrite orb_true_r. eauto.
  - right. unfold resizeCanvas, createImageData.
    rewrite (bool_decide_eq_true_2 (w = 0%nat)) by lia. eauto.
  - right. unfold resizeCanvas, createImageData.
    rewrite (bool_decide_eq_true_2 (w = 0%nat)) by lia. eauto.
Qed.


Lemma loaded_wellSized t : wellSized (loaded t).
Proof.
  unfold loaded.
  match goal with |- wellSized (resizeCanvas ?w ?h ?v).1 =>
    destruct (resizeCanvas_ok w h v) as (v' & -> & Hi & Hcw & Hch & _); [lia|lia|] end.
  unfold wellSized. cbn [fst]. rewrite Hi. cbn [width height data].
  rewrite length_replicate. repeat split; auto; lia.
Qed.

(** Before a frame of a positive size is decoded, the image and the
    canvas have its size. *)
Lemma frame_prepared (v : View) (w h : nat) :
  wellSized v -> (0 < w)%nat -> (0 < h)%nat ->
  exists v1,
    (if fits w h v then (v, None) else resizeCanvas w h v) = (v1, None) /\
    (exists d, imageData v1 = Some {| width := w; height := h; data := d |} /\
               length d = (w * h * 4)%nat) /\
    canvasWidth v1 = w /\ canvasHeight v1 = h /\
    statusText v1 = statusText v /\ errorText v1 = errorText v /\
    errorShown v1 = errorShown v /\ outbox v1 = outbox v.
Proof.
  intros Hv Hw Hh. destruct (fits w h v) eqn:Hfit.
  - exists v. split; [reflexivity|]. unfold fits, wellSized in *.
    destruct (imageData v) as [[iw ih d]|]; [|discriminate]. cbn in *.
    apply andb_true_iff in Hfit as [H1 H2].
    apply bool_decide_eq_true in H1, H2. subst iw ih.
    destruct Hv as (Hd & Hcw & Hch & _). repeat split; eauto.
  - destruct (resizeCanvas_ok w h v Hw Hh)
      as (v1 & E & Hi & Hcw & Hch & _ & Hs & He & Hsh & Ho & _).
    exists v1. rewrite E. split; [reflexivity|]. split.
    + eexists. split; [exact Hi|]. apply length_replicate.
    + auto 10.
Qed.

Lemma bytes_mod bytes :
  Forall isByte bytes -> map (fun code => code mod 256) bytes = bytes.
Proof.
  induction 1 as [|b bytes Hb _ IH]; [reflexivity|].
  cbn [map]. rewrite IH, Z.mod_small by exact Hb. reflexivity.
Qed.

Lemma resizeCanvas_notice w h v : notice (resizeCanvas w h v).1 = notice v.
Proof. unfold resizeCanvas. destruct (createImageData w h); reflexivity. Qed.

Lemma draw_notice pixels v : notice (draw pixels v).1 = notice v.
Proof.
  unfold draw. destruct (atob pixels); [|reflexivity].
  destruct (imageData v); [|reflexivity]. destruct (bool_decide _); reflexivity.
Qed.

Lemma countFrame_notice now v : notice (countFrame now v) = notice v.
Proof. unfold countFrame. destruct (aSecondSince _ _); reflexivity. Qed.

Lemma onMessage_frame_notice w h pixels now v :
  notice (onMessage (Frame w h pixels) now v).1 = notice v.
Proof.
  unfold onMessage.
  assert (H : notice (if fits w h v then (v, None) else resizeCanvas w h v).1 = notice v).
  { destruct (fits w h v); [reflexivity|apply resizeCanvas_notice]. }
  destruct (if fits w h v then _ else _) as [v1 [e|]]; cbn [fst] in *; [exact H|].
  pose proof (draw_notice pixels v1) as H2.
  destruct (draw pixels v1) as [v2 [e|]]; cbn [fst] in *; [congruence|].
  rewrite countFrame_notice. congruence.
Qed.

Lemma happen_notice v e :
  errorShown (happen v e)
  = match e with
    | Receive (Status _) _ => false
    | Receive (Error _) _ => true
    | _ => errorShown v
    end /\
  statusText (happen v e)
  = match e with
    | Receive (Status text) _ => text
    | Receive (Error _) _ => "Error"
    | ClickStop => "Stopped"
    | _ => statusText v
    end /\
  errorText (happen v e)
  = match e with
    | Receive (Error text) _ => text
    | _ => errorText v
    end /\
  outbox (happen v e) = outbox v ++ clicks [e].
Proof.
  assert (Hsame : notice (happen v e) = notice v ->
    errorShown (happen v e) = errorShown v /\ statusText (happen v e) = statusText v /\
    errorText (happen v e) = errorText v /\ outbox (happen v e) = outbox v).
  { unfold notice. intros [= -> -> -> ->]. auto. }
  destruct e as [[w h pixels|text|text|command] now| | |];
    try (cbn; rewrite ?app_nil_r; auto; fail).
  - destruct (Hsame (onMessage_frame_notice w h pixels now v)) as (-> & -> & -> & ->).
    cbn. rewrite app_nil_r. auto.
  - assert (Hn : notice (happen v WindowResize) = notice v).
    { cbn [happen]. destruct (imageData v); [apply resizeCanvas_notice|reflexivity]. }
    destruct (Hsame Hn) as (-> & -> & -> & ->). cbn. rewrite app_nil_r. auto.
Qed.

Lemma happen_blank v e :
  isFrameMsg e = false -> put v = None -> put (happen v e) = None.
Proof.
  destruct e as [[w h pixels|text|text|command] now| | |]; try discriminate; intros _ H;
    cbn; try exact H.
  destruct (imageData v); [|exact H].
  unfold resizeCanvas. destruct (createImageData _ _); reflexivity.
Qed.

End Facts.
End WebviewFacts.

(** ** Base64 of the test bench *)

Module Base64Facts.
Import Stdlib.Strings.Ascii Base64.

Lemma by_threes (P : list Z -> Prop) :
  P [] -> (forall a, P [a]) -> (forall a b, P [a; b]) ->
  (forall a b c rest, P rest -> P (a :: b :: c :: rest)) ->
  forall l, P l.
Proof.
  intros H0 H1 H2 H3.
  assert (H : forall l, P l /\ (forall a, P (a :: l)) /\ (forall a b, P (a :: b :: l))).
  { induction l as [|c l (IH0 & IH1 & IH2)]; [auto|].
    split; [apply IH1|]. split; [intros a; apply IH2|]. intros a b. apply H3, IH0. }
  intros l. apply H.
Qed.

Lemma value_letter n : 0 <= n < 64 -> value (letter n) = Some n.
Proof.
  intros Hn. rewrite <- (Z2Nat.id n) at 2 by lia. unfold letter.
  assert (Hk : (Z.to_nat n < 64)%nat) by lia. revert Hk.
  generalize (Z.to_nat n) as k. intros k Hk.
  do 64 (destruct k as [|k]; [reflexivity|]). lia.
Qed.

Lemma letter_plain n :
  0 <= n < 64 -> isSpace (letter n) = false /\ Ascii.eqb (letter n) pad = false.
Proof.
  intros Hn. unfold letter.
  assert (Hk : (Z.to_nat n < 64)%nat) by lia. revert Hk.
  generalize (Z.to_nat n) as k. intros k Hk.
  do 64 (destruct k as [|k]; [split; reflexivity|]). lia.
Qed.

Lemma sextets_range bytes :
  Forall isByte bytes -> Forall (fun s => 0 <= s < 64) (sextets bytes).
Proof.
  unfold isByte. induction bytes using by_threes; intros H;
    repeat match goal with H : Forall _ (_ :: _) |- _ => apply Forall_cons in H as [? H] end;
    cbn [sextets]; repeat constructor; auto;
    try (Z.div_mod_to_equations; lia).
Qed.

Lemma decode_sextets bytes : Forall isByte bytes -> decode (sextets bytes) = bytes.
Proof.
  unfold isByte. induction bytes using by_threes; intros H;
    repeat match goal with H : Forall _ (_ :: _) |- _ => apply Forall_cons in H as [? H] end;
    cbn [sextets decode]; [reflexivity| | |].
  - f_equal. Z.div_mod_to_equations; lia.
  - f_equal; [|f_equal]; Z.div_mod_to_equations; lia.
  - rewrite IHbytes by assumption.
    f_equal; [|f_equal; [|f_equal]]; Z.div_mod_to_equations; lia.
Qed.


Lemma encode_length bytes : exists k, length (encode bytes) = (4 * k)%nat.
Proof.
  induction bytes using by_threes; cbn [encode length].
  - exists 0%nat. reflexivity.
  - exists 1%nat. reflexivity.
  - exists 1%nat. reflexivity.
  - destruct IHbytes as [k ->]. exists (S k). lia.
Qed.

Lemma sextets_length bytes :
  exists k, length (sextets bytes) = (4 * k)%nat \/
            length (sextets bytes) = (4 * k + 2)%nat \/
            length (sextets bytes) = (4 * k + 3)%nat.
Proof.
  induction bytes using by_threes; cbn [sextets length].
  - exists 0%nat. auto.
  - exists 0%nat. auto.
  - exists 0%nat. auto.
  - destruct IHbytes as [k Hk]. exists (S k). lia.
Qed.

Lemma encode_no_space bytes :
  Forall isByte bytes ->
  List.filter (fun c => negb (isSpace c)) (encode bytes) = encode bytes.
Proof.
  unfold isByte.
  assert (Hl : forall n l, 0 <= n < 64 ->
    List.filter (fun c => negb (isSpace c)) (letter n :: l)
    = letter n :: List.filter (fun c => negb (isSpace c)) l).
  { intros n l Hn. cbn [List.filter]. destruct (letter_plain n Hn) as [-> _]. reflexivity. }
  induction bytes using by_threes; intros H;
    repeat match goal with H : Forall _ (_ :: _) |- _ => apply Forall_cons in H as [? H] end;
    cbn [encode]; [reflexivity| | |];
    rewrite ?Hl by (Z.div_mod_to_equations; lia); rewrite ?IHbytes by assumption;
    reflexivity.
Qed.

Lemma unpad_group a b c d rest :
  Ascii.eqb d pad = false -> (rest = [] \/ (3 <= length rest)%nat) ->
  unpad (a :: b :: c :: d :: rest) = a :: b :: c :: d :: unpad rest.
Proof.
  intros Hd [->|Hlen].
  - cbn. rewrite Hd. reflexivity.
  - destruct rest as [|x [|y [|z rest]]]; cbn [length] in Hlen; try lia. reflexivity.
Qed.

Lemma unpad_encode bytes :
  Forall isByte bytes -> unpad (encode bytes) = map letter (sextets bytes).
Proof.
  unfold isByte. induction bytes using by_threes; intros H;
    repeat match goal with H : Forall _ (_ :: _) |- _ => apply Forall_cons in H as [? H] end;
    cbn [encode sextets map].
  - reflexivity.
  - cbn. destruct (letter_plain (a mod 4 * 16)) as [_ E]; [Z.div_mod_to_equations; lia|].
    reflexivity.
  - cbn -[letter Z.div Z.modulo Z.mul Z.add].
    destruct (letter_plain (b mod 16 * 4)) as [_ E]; [Z.div_mod_to_equations; lia|].
    rewrite ?Ascii.eqb_refl, E. reflexivity.
  - rewrite unpad_group.
    + rewrite IHbytes by assumption. reflexivity.
    + apply letter_plain. Z.div_mod_to_equations; lia.
    + destruct (encode_length bytes) as [k Hk]. destruct k as [|k]; [left|right; lia].
      destruct (encode bytes); [reflexivity|discriminate].
Qed.

Lemma mapM_value ss :
  Forall (fun s => 0 <= s < 64) ss -> mapM value (map letter ss) = Some ss.
Proof.
  induction 1 as [|s ss Hs _ IH]; [reflexivity|].
  cbn [map mapM]. rewrite (value_letter s Hs). cbn. rewrite IH. reflexivity.
Qed.

(** Decoding undoes the encoding of bytes. *)
Lemma atob_toBase64 bytes : Forall isByte bytes -> atob (toBase64 bytes) = Normal bytes.
Proof.
  intros Hb. unfold atob, toBase64.
  rewrite String.list_ascii_of_string_of_list_ascii, (encode_no_space bytes Hb).
  destruct (encode_length bytes) as [k Hk]. rewrite Hk.
  replace (4 * k)%nat with (k * 4)%nat by lia. rewrite Nat.Div0.mod_mul. cbn [Nat.eqb].
  rewrite (unpad_encode bytes Hb), length_map.
  destruct (sextets_length bytes) as [j Hj].
  assert (Hmod : (length (sextets bytes) mod 4 =? 1)%nat = false).
  { apply Nat.eqb_neq. destruct Hj as [-> |[-> | ->]];
      replace (4 * j)%nat with (j * 4)%nat by lia.
    - rewrite Nat.Div0.mod_mul. lia.
    - rewrite Nat.add_comm, Nat.Div0.mod_add. cbn. lia.
    - rewrite Nat.add_comm, Nat.Div0.mod_add. cbn. lia. }
  rewrite Hmod, (mapM_value _ (sextets_range bytes Hb)), (decode_sextets bytes Hb).
  reflexivity.
Qed.

End Base64Facts.

(** ** The bytes of a frame *)

Section FrameBytes.
Context {K : Kernel}.

Lemma store_bytes px w : Forall isByte px -> Forall isByte (store px w).
Proof.
  intros H. unfold store. case_decide; [|exact H].
  apply Forall_insert; [exact H|]. unfold isByte. apply Z.mod_pos_bound. lia.
Qed.

Lemma stores_bytes ws px : Forall isByte px -> Forall isByte (stores px ws).
Proof.
  unfold stores. revert px. induction ws as [|w ws IH]; intros px H; [exact H|].
  cbn [foldl]. apply IH, store_bytes, H.
Qed.

Lemma Uint8Array_bytes n : Forall isByte (Uint8Array n).
Proof. apply Forall_replicate. unfold isByte. lia. Qed.

(** A frame [renderLoop] posts has the size of the display and holds
    bytes. *)
Lemma renderLoop_frame w width height pixels :
  posts (log (renderLoop w).1) = posts (log w) ++ [frame width height pixels] ->
  width = VGA_WIDTH /\ height = VGA_HEIGHT /\
  length pixels = (VGA_WIDTH * VGA_HEIGHT * 4)%nat /\ Forall isByte pixels.
Proof.
  destruct (running w) eqn:Hr.
  2:{ rewrite renderLoop_idle by (left; exact Hr). cbn [fst]. intros H.
      apply (f_equal length) in H. rewrite length_app in H. cbn in H. lia. }
  destruct (mod_ w) as [id|] eqn:Hm.
  2:{ rewrite renderLoop_idle by (right; exact Hm). cbn [fst]. intros H.
      apply (f_equal length) in H. rewrite length_app in H. cbn in H. lia. }
  unfold renderLoop, call_renderVGAFrame, onModule, postMessage, emit,
    mbind, Js_bind, bind, tryCatch, read, write, ret, throw.
  rewrite Hr, Hm. rewrite bool_decide_eq_true_2 by eauto.
  cbn -[Uint8Array stores Nat.mul]. rewrite Hm.
  destruct (heap w !! id) as [m|]; cbn -[Uint8Array stores Nat.mul].
  - match goal with |- context [renderVGAFrame ?a ?b ?c] =>
      destruct (renderVGAFrame a b c) as [[m' ws] [e|]] end;
      cbn -[Uint8Array stores Nat.mul].
    + intros H. apply app_inv_head in H. discriminate.
    + rewrite Hr. cbn -[Uint8Array stores Nat.mul].
      intros H. apply app_inv_head in H. injection H as <- <- <-.
      split; [reflexivity|]. split; [reflexivity|].
      split; [rewrite length_stores; apply length_Uint8Array|].
      apply stores_bytes, Uint8Array_bytes.
  - intros H. apply app_inv_head in H. discriminate.
Qed.

(** What [renderLoop] posts when the render it makes returns. *)
Lemma renderLoop_returned w id m m' ws :
  running w = true -> mod_ w = Some id -> heap w !! id = Some m ->
  renderVGAFrame m (VGA_WIDTH * VGA_HEIGHT * 4) (syncPolarity w) = (m', ws, None) ->
  posts (log (renderLoop w).1)
  = posts (log w)
    ++ [frame VGA_WIDTH VGA_HEIGHT
          (stores (Uint8Array (VGA_WIDTH * VGA_HEIGHT * 4)) ws)].
Proof.
  intros Hr Hm Hh Hrender.
  unfold renderLoop, call_renderVGAFrame, onModule, postMessage, emit,
    mbind, Js_bind, bind, tryCatch, read, write, ret, throw.
  rewrite Hr, Hm. rewrite bool_decide_eq_true_2 by eauto.
  cbn -[Uint8Array stores Nat.mul]. rewrite Hm, Hh, length_Uint8Array, Hrender.
  cbn -[Uint8Array stores Nat.mul]. rewrite Hr. reflexivity.
Qed.

End FrameBytes.

(** ** What the user is notified of *)

Section NotificationFacts.
Context {K : Kernel}.

Lemma sameWarnings_refl w : sameWarnings w w.
Proof. reflexivity. Qed.
Lemma sameWarnings_trans w1 w2 w3 :
  sameWarnings w1 w2 -> sameWarnings w2 w3 -> sameWarnings w1 w3.
Proof. unfold sameWarnings. congruence. Qed.

End NotificationFacts.

Ltac sameWarnings_side := first [exact sameWarnings_refl | exact sameWarnings_trans].
Ltac warn_go :=
  stable_go ltac:(sameWarnings_side);
  try (apply stable_emit; intros ?; reflexivity);
  try (apply stable_write; intros ?; reflexivity).

Section NotificationFacts2.
Context {K : Kernel}.

Lemma initModule_start_sameWarnings modules :
  stable sameWarnings (initModule_start modules).
Proof. unfold initModule_start, disposeModule, new_HDLModuleWASM. warn_go. Qed.

Lemma initModule_resume_sameWarnings id : stable sameWarnings (initModule_resume id).
Proof. unfold initModule_resume. warn_go. Qed.

Lemma afterInitModule_sameWarnings o res w :
  sameWarnings w (compileSources_afterInitModule o res w).1.
Proof.
  unfold compileSources_afterInitModule. cbn [fst].
  assert (H : stable sameWarnings
    (tryCatch match res with
              | Some e => throw e
              | None => postMessage (status "Running");; startSimulation
              end catch_;; finally_ o)).
  { unfold catch_, finally_, postMessage. warn_go. }
  specialize (H w). unfold wp in H.
  destruct ((tryCatch _ catch_;; finally_ o) w) as [w' out]. exact H.
Qed.

End NotificationFacts2.

(** * The claims *)

Section PanelClaims.
Context {K : Kernel}.

(** C1. One call of [renderLoop] is atomic.  When the loop is running on
    a module the call enters [renderVGAFrame] exactly once, on that
    module, with a zeroed buffer of [VGA_WIDTH * VGA_HEIGHT * 4] bytes,
    and makes exactly one post, decided by how that render ends.  When
    the render returns, the post is the frame: its bytes are the buffer
    with every store of the render applied, all
    [VGA_WIDTH * VGA_HEIGHT * 4] of them, and no error is posted.  When
    the render throws, the post is the error, the loop is stopped and
    nothing is queued: whatever the render had stored in the buffer by
    then is not delivered.  When the loop is not running, or there is no
    module, the call does nothing. *)
Theorem renderLoop_atomic (w : World) :
  let size := (VGA_WIDTH * VGA_HEIGHT * 4)%nat in
  let w' := (renderLoop w).1 in
  (renderLoop w).2 = Normal tt /\
  exists evs, log w' = evs ++ log w /\
    match running w, mod_ w with
    | true, Some id =>
        renders evs = 1%nat /\
        Call (OpRender (syncPolarity w) size) (Some id) ∈ evs /\
        match heap w !! id with
        | Some m =>
            match renderVGAFrame m size (syncPolarity w) with
            | (m', ws, None) =>
                posts evs
                = [frame VGA_WIDTH VGA_HEIGHT (stores (Uint8Array size) ws)] /\
                length (stores (Uint8Array size) ws) = size /\
                running w' = true /\ immediates w' = S (immediates w) /\
                heap w' = <[id := m']> (heap w)
            | (m', ws, Some e) =>
                posts evs = [error ("Simulation error: " +:+ messageOf e)] /\
                running w' = false /\ immediates w' = immediates w /\
                heap w' = <[id := m']> (heap w)
            end
        | None =>
            posts evs = [error ("Simulation error: " +:+ messageOf nullFault)] /\
            running w' = false /\ immediates w' = immediates w /\
            heap w' = heap w
        end
    | _, _ => evs = []
    end.
Proof.
  intros size w'. subst w'.
  unfold renderLoop, call_renderVGAFrame, onModule, postMessage, emit,
    mbind, Js_bind, bind, tryCatch, read, write, ret, throw.
  destruct (running w) eqn:Hr; cbn [negb orb andb];
    [|split; [reflexivity|exists []; split; reflexivity]].
  destruct (mod_ w) as [id|] eqn:Hm.
  2:{ rewrite bool_decide_eq_false_2 by (intros [? ?]; discriminate).
      cbn. split; [reflexivity|exists []; split; reflexivity]. }
  rewrite bool_decide_eq_true_2 by eauto. cbn -[Uint8Array stores Nat.mul].
  rewrite Hm, length_Uint8Array. fold size.
  destruct (heap w !! id) as [m|]; cbn -[Uint8Array stores Nat.mul].
  - destruct (renderVGAFrame m size (syncPolarity w)) as [[m' ws] [e|]];
      cbn -[Uint8Array stores Nat.mul].
    + split; [reflexivity|]. eexists [_; _; _]. split; [reflexivity|].
      split; [reflexivity|]. split; [set_solver|]. cbn. auto.
    + rewrite Hr. cbn -[Uint8Array stores Nat.mul].
      split; [reflexivity|]. eexists [_; _; _; _]. split; [reflexivity|].
      split; [reflexivity|]. split; [set_solver|].
      split; [reflexivity|]. split; [|auto].
      rewrite length_stores. apply length_Uint8Array.
  - split; [reflexivity|]. eexists [_; _; _]. split; [reflexivity|].
    split; [reflexivity|]. split; [set_solver|]. cbn. auto.
Qed.

Lemma run_Sound (inputs : list Input) : Sound (run boot inputs).
Proof. apply Sound_run, Sound_boot. Qed.

(** C4. Whatever the host schedules, at most one call of
    [renderVGAFrame] is in flight: a render is entered, and the next one
    queued with [setImmediate], only when every earlier render has
    returned or thrown; between callbacks none is in flight; and
    [startSimulation] on a running panel changes nothing. *)
Theorem one_render_in_flight (inputs : list Input) :
  eachEvent oneRenderInFlight (log (world (run boot inputs))) /\
  inFlight (log (world (run boot inputs))) = 0%nat /\
  forall w, startSimulation (set_running true w) = (set_running true w, Normal tt).
Proof.
  pose proof (run_Sound inputs) as [Hg _]. split; [|split].
  - apply good_renders, Hg.
  - apply good_idle, Hg.
  - intros w. unfold startSimulation, mbind, Js_bind, bind, read.
    cbn [running set_running]. rewrite orb_true_r. reflexivity.
Qed.

Lemma disposePanel_clears (w : World) :
  running (disposePanel w).1 = false /\ mod_ (disposePanel w).1 = None.
Proof.
  assert (H : wp disposePanel
                (fun _ w' => running w' = false /\ mod_ w' = None) w).
  { unfold disposePanel, disposeModule. wp_go. cbn [mod_ set_running].
    destruct (mod_ w) eqn:Hm; wp_go; cbn; auto. }
  exact H.
Qed.

(** C10. Whatever the host schedules, at most one module object is live
    (constructed and not disposed) at any moment, it is the one
    [this.mod] refers to, and every kernel call the panel makes
    ([init], [resetModule], [detectSyncPolarity], [skipToFrameBoundary],
    [renderVGAFrame], [dispose]) is made on that live module or on
    [null], never on a disposed one.  [compileSources] stops the loop on
    entry, and disposing the panel stops the loop and leaves no live
    module and no reference. *)
Theorem one_live_module (inputs : list Input) :
  let w := world (run boot inputs) in
  eachEvent oneLiveModule (log w) /\
  live (log w) = option_list (mod_ w) /\
  (forall sources tc, running (compileSources_begin sources tc w).1 = false) /\
  running (disposePanel w).1 = false /\
  mod_ (disposePanel w).1 = None /\
  live (log (disposePanel w).1) = [].
Proof.
  intros w. pose proof (run_Sound inputs) as [Hg _]. fold w in Hg.
  split; [apply good_modules, Hg|]. split; [apply good_live, Hg|].
  split.
  { intros sources tc. unfold compileSources_begin.
    change ((stopSimulation;; postMessage (status "Compiling...")) w)
      with (push (Posted (status "Compiling...")) (set_running false w),
            @Normal unit tt).
    cbv beta iota zeta. destruct (Verilator.compileVerilator_start tc); reflexivity. }
  destruct (disposePanel_clears w) as [Hr Hm]. split; [exact Hr|]. split; [exact Hm|].
  pose proof (disposePanel_keeps w Hg) as [Hg' _].
  rewrite (good_live _ Hg'), Hm. reflexivity.
Qed.

(** C2. A detection that sees no toggling is an error, and no default
    stands in for its result.  In the kernel, a run of the detector in
    which hsync or vsync is seen at one level only ends in
    [DetectionTimeout], a polarity is returned only when both signals
    were seen at both levels, and an error of the stepping is passed on.
    In the panel, whatever the host schedules, a polarity handed to
    [renderVGAFrame] is one that [detectSyncPolarity] returned; a
    detection that throws leaves [this.syncPolarity] as it was, and the
    rejected [initModule] is reported as an error message instead of
    starting the loop. *)
Theorem detection_timeout_no_guess :
  (forall (iterationCap detectBudget : nat) (i : Sim.SimulationInstance),
     match Sim.observe iterationCap detectBudget i with
     | Sim.Ok (i', samples) =>
         let hs := map (fun s : Sim.Sample => s.1.2) samples in
         let vs := map (fun s : Sim.Sample => s.2) samples in
         (Sim.noToggle hs \/ Sim.noToggle vs ->
          Sim.detectSyncPolarity iterationCap detectBudget i
          = Sim.Err Sim.DetectionTimeout) /\
         (forall r, Sim.detectSyncPolarity iterationCap detectBudget i = Sim.Ok r ->
            ~ Sim.noToggle hs /\ ~ Sim.noToggle vs)
     | Sim.Err k =>
         Sim.detectSyncPolarity iterationCap detectBudget i = Sim.Err k
     end) /\
  (forall inputs : list Input,
     eachEvent renderPolarityDetected (log (world (run boot inputs)))) /\
  (forall (w : World) id m m' e,
     mod_ w = Some id -> heap w !! id = Some m ->
     detectSyncPolarity m = (m', Throw e) ->
     (call_detectSyncPolarity w).2 = Throw e /\
     syncPolarity (call_detectSyncPolarity w).1 = syncPolarity w) /\
  (forall o e (w : World),
     compileSources_afterInitModule o (Some e) w
     = (set_process_exit o (push (Posted (error ("Error: " +:+ messageOf e))) w),
        Finished)).
Proof.
  split; [|split; [|split]].
  - intros. apply SimFacts.detect_spec.
  - intros inputs. apply good_detected, run_Sound.
  - intros w id m m' e Hm Hh Hd.
    unfold call_detectSyncPolarity, onModule, emit, mbind, Js_bind, bind, read,
      write, throw.
    rewrite Hm. cbn [heap set_log]. rewrite Hh, Hd. cbn. auto.
  - intros o e w. reflexivity.
Qed.

End PanelClaims.

Section CompilationClaims.
Context {K : Kernel}.


End CompilationClaims.


(** ** Sessions on the test bench *)

(** The session of the test bench is serial; it renders five frames,
    each on the module its polarity was detected on, and ends with the
    host alive and [process.exit] restored. *)
Example session_is_serial :
  let sys := @run Fixture.kernel (@boot Fixture.kernel) Fixture.session in
  @serial Fixture.kernel (@boot Fixture.kernel) Fixture.session /\
  @renders Fixture.kernel (log (world sys)) = 5%nat /\
  @strayRenders Fixture.kernel (log (world sys)) = 0%nat /\
  hostGone (world sys) = false /\
  @idle Fixture.kernel sys = true /\
  process_exit (world sys) = Verilator.hostExit.
Proof. vm_compute. repeat split. Qed.

(** C6 (defect).  The interception of [process.exit] is lost when
    calls of [compileSources] overlap: each call saves the function it
    finds and puts that back when it ends.  When the command is run again
    while an earlier call awaits [this.mod.init()], the earlier call ends
    first and puts the host's own function back; the compiler of the
    later call then leaves through [process.exit(1)] and ends the host,
    where the claim has the exit intercepted.  And when both
    compilations succeed, the call that ends last puts back the throwing
    replacement it had found: it stays installed with no call
    suspended. *)
Theorem overlapping_calls_end_the_host :
  let ended := world (@run Fixture.kernel (@boot Fixture.kernel) Desk.reentered) in
  let sys := @run Fixture.kernel (@boot Fixture.kernel)
               (Fixture.twice Fixture.good Fixture.good
                ++ [Ready 1; AfterCompile 1; InitSettled 1; AfterInitModule 1]) in
  hostGone ended = true /\
  @exitedWith Fixture.kernel (log ended) = Some (Some 1) /\
  filter isErrorMessage (posts (log ended)) = [] /\
  hostGone (world sys) = false /\
  @idle Fixture.kernel sys = true /\
  process_exit (world sys) = Verilator.throwingExit.
Proof. vm_compute. repeat split. Qed.


(** ** The kernel operations *)

(** C8. For a declared signal, [setSignal(p, v)] followed by
    [getSignal(p)] returns [v] reduced modulo two to the declared
    width. *)
Theorem set_then_get (p : string) (v : Z) (i : Sim.SimulationInstance)
    (s : Sim.Signal) :
  Sim.signals (Sim.moddef i) !! p = Some s ->
  Sim.setSignal p v i ≫= Sim.getSignal p
  = Sim.Ok (v mod 2 ^ Z.of_N (Sim.width s)).
Proof.
  intros Hs. unfold Sim.setSignal. rewrite Hs. simpl.
  unfold Sim.getSignal. simpl. rewrite Hs, lookup_insert_eq. simpl.
  rewrite Z.land_ones by lia. reflexivity.
Qed.

Lemma set_then_get_witness :
  Sim.signals (Sim.moddef (Fixture.instance Fixture.vgaDef)) !! "rgb"
  = Some (Fixture.sig "rgb" 3 Sim.output) /\
  Sim.setSignal "rgb" 13 (Fixture.instance Fixture.vgaDef) ≫= Sim.getSignal "rgb"
  = Sim.Ok 5.
Proof.
  split; [reflexivity|].
  exact (set_then_get "rgb" 13 (Fixture.instance Fixture.vgaDef)
           (Fixture.sig "rgb" 3 Sim.output) eq_refl).
Defined.

(** C9. [eval()] always ends, in one of three ways: the values settled,
    [ConvergenceError], or [RuntimeFault].  When it returns normally the
    instance is settled on a table that one more recomputation leaves
    unchanged, reached after fewer recomputations than the cap.  It ends
    in [ConvergenceError] exactly when every recomputation up to the cap
    succeeded and changed some value, so an unsettled table is never
    returned; a design that changes at every recomputation (a
    combinational loop) ends in [ConvergenceError] whatever the cap. *)
Theorem eval_terminates (iterationCap : nat) (i : Sim.SimulationInstance) :
  ((exists i', Sim.eval iterationCap i = Sim.Ok i') \/
   Sim.eval iterationCap i = Sim.Err Sim.ConvergenceError \/
   Sim.eval iterationCap i = Sim.Err Sim.RuntimeFault) /\
  (forall i', Sim.eval iterationCap i = Sim.Ok i' ->
     Sim.settled i' = true /\
     Sim.evaluate (Sim.exe i) (Sim.values i') = Some (Sim.values i') /\
     exists n, (n < iterationCap)%nat /\
       Sim.recompute n (Sim.exe i) (Sim.values i) = Some (Sim.values i')) /\
  (Sim.eval iterationCap i = Sim.Err Sim.ConvergenceError <->
     forall n, (n < iterationCap)%nat ->
       exists u u', Sim.recompute n (Sim.exe i) (Sim.values i) = Some u /\
                    Sim.evaluate (Sim.exe i) u = Some u' /\ u' <> u) /\
  ((forall u, exists u', Sim.evaluate (Sim.exe i) u = Some u' /\ u' <> u) ->
     Sim.eval iterationCap i = Sim.Err Sim.ConvergenceError).
Proof.
  unfold Sim.eval. split; [|split; [|split]].
  - destruct (SimFacts.settle_total (Sim.exe i) iterationCap (Sim.values i))
      as [[v' ->]|[->| ->]]; simpl; eauto.
  - intros i' H. apply SimFacts.bind_Ok in H as (v' & Hs & [= <-]). simpl.
    split; [reflexivity|]. apply SimFacts.settle_Ok. exact Hs.
  - rewrite <- SimFacts.settle_Convergence.
    destruct (Sim.settle iterationCap (Sim.exe i) (Sim.values i)) as [v'|k]; simpl.
    + split; discriminate.
    + split; intros [= ->]; reflexivity.
  - intros Hloop.
    rewrite (SimFacts.settle_loop (Sim.exe i) iterationCap (Sim.values i) Hloop).
    reflexivity.
Qed.




(** * Further properties of the code *)

(** ** The panel *)

Section PanelProperties.
Context {K : Kernel}.

(** X1. What the webview is sent by one call of [compileSources] awaited
    to its end: first the status ["Compiling..."], then either one
    [error] message and nothing else, the loop left stopped, or the
    status ["Running"] followed by what the first [renderLoop] posts, the
    first frame or its error; the loop is running afterwards exactly when
    that first frame was delivered. *)
Theorem compile_protocol (sources : list (string * string))
    (tc : Verilator.Toolchain) (sys : System) :
  hostGone (world sys) = false ->
  let before := posts (log (world sys)) in
  let w' := world (compileSources sources tc sys) in
  (exists text,
     posts (log w') = before ++ [status "Compiling..."; error text] /\
     running w' = false) \/
  (exists m,
     posts (log w') = before ++ [status "Compiling..."; status "Running"; m] /\
     frameOrFault m /\ running w' = isFrame m).
Proof.
  intros Hgone before w'. subst w'.
  destruct (compileSources_pipeline sources tc sys Hgone) as [-> _].
  unfold pipeline.
  destruct (pipeline_compiled sources tc (world sys)) as (res & _ & ->).
  set (w0 := set_process_exit Verilator.throwingExit
               (push (Posted (status "Compiling...")) (set_running false (world sys)))).
  change (advance (AfterCompile 0) (w0, AwaitCompile (process_exit (world sys)) res))
    with (compileSources_afterCompile (process_exit (world sys)) res w0).
  assert (Hp0 : posts (log w0) = before ++ [status "Compiling..."]) by reflexivity.
  destruct (afterCompile_posts (process_exit (world sys)) res w0 eq_refl)
    as [(text & Hp & Hr)|(m & Hp & Hf & Hr)].
  - left. exists text. rewrite Hp, Hp0, <- app_assoc. auto.
  - right. exists m. rewrite Hp, Hp0, <- app_assoc. auto.
Qed.

(** X2. A compilation that fails before a module is built changes
    nothing of the simulation but its loop: when [compileVerilator]
    rejects or resolves without an output, the call posts the status and
    one [error] with the text of lines 95-105 or of line 123, makes no
    kernel call, leaves [this.mod], the module objects, the polarity, the
    queue and [process.exit] as they were, and leaves the loop stopped;
    the module bound before is not resumed. *)
Theorem failed_compile_keeps_module (sources : list (string * string))
    (tc : Verilator.Toolchain) (sys : System) (text : string) :
  hostGone (world sys) = false ->
  failureText tc {| Verilator.topModule := detectTopModule sources;
                    Verilator.sources := sources |} = Some text ->
  let w := world sys in
  let w' := world (compileSources sources tc sys) in
  posts (log w') = posts (log w) ++ [status "Compiling..."; error text] /\
  mod_ w' = mod_ w /\ heap w' = heap w /\ syncPolarity w' = syncPolarity w /\
  kernelCalls (log w') = kernelCalls (log w) /\
  running w' = false /\ immediates w' = immediates w /\
  process_exit w' = process_exit w.
Proof.
  intros Hgone Hfail w w'. subst w'.
  destruct (compileSources_pipeline sources tc sys Hgone) as [-> _].
  unfold pipeline.
  destruct (pipeline_compiled sources tc (world sys)) as (res & Hres & ->).
  unfold failureText in Hfail. rewrite Hres in Hfail.
  set (w0 := set_process_exit Verilator.throwingExit
               (push (Posted (status "Compiling...")) (set_running false (world sys)))).
  change (advance (AfterCompile 0) (w0, AwaitCompile (process_exit (world sys)) res))
    with (compileSources_afterCompile (process_exit (world sys)) res w0).
  unfold compileSources_afterCompile.
  destruct res as [r|e]; [destruct (Verilator.output r); [discriminate|]|];
    injection Hfail as <-; cbn; repeat split;
    exact (eq_sym (app_assoc (posts (log w)) [status "Compiling..."] [error _])).
Qed.

(** X3. A message from the webview posts nothing, enters no render,
    queues nothing and leaves [this.mod] and [process.exit] alone; only
    ["stop"] changes [this.running], which it clears.  A command other
    than ["stop"] and ["reset"] changes nothing, and neither does
    ["reset"] when there is no module. *)
Theorem message_effects (command : string) (w : World) :
  let w' := handler (onDidReceiveMessage command) w in
  posts (log w') = posts (log w) /\ renders (log w') = renders (log w) /\
  mod_ w' = mod_ w /\ immediates w' = immediates w /\
  process_exit w' = process_exit w /\
  running w' = (if decide (command = "stop") then false else running w) /\
  (command = "stop" -> w' = set_running false w) /\
  (command <> "stop" -> command <> "reset" \/ mod_ w = None -> w' = w).
Proof.
  intros w'. subst w'.
  pose proof (onDidReceiveMessage_offstage command w) as (H1 & H2 & H3 & H4 & H5 & H6).
  injection H5 as H5 H7.
  split; [|split; [|split; [|split; [|split; [|split; [|split]]]]]].
  1-6: unfold handler; destruct (onDidReceiveMessage command w) as [w1 [[]|e]];
    cbn [fst snd log set_log posts renders mod_ immediates process_exit running] in *;
    assumption.
  - intros ->. reflexivity.
  - intros Hs Hr. unfold handler, onDidReceiveMessage.
    destruct (decide (command = "stop")); [contradiction|].
    destruct (decide (command = "reset")) as [->|]; [|reflexivity].
    destruct Hr as [Hr|Hr]; [contradiction|].
    unfold mbind, Js_bind, bind, read. rewrite Hr.
    rewrite bool_decide_eq_false_2 by (intros [? ?]; discriminate). reflexivity.
Qed.

(** X4. Only [compileSources] starts the loop.  Once it is stopped, no
    sequence of webview messages, queued [renderLoop] callbacks and
    disposals starts it again, enters a render or posts anything. *)
Theorem stopped_stays_stopped (sys : System) (inputs : list Input) :
  running (world sys) = false -> forallb passive inputs = true ->
  running (world (run sys inputs)) = false /\
  posts (log (world (run sys inputs))) = posts (log (world sys)) /\
  renders (log (world (run sys inputs))) = renders (log (world sys)).
Proof.
  revert sys. induction inputs as [|i inputs IH]; intros sys Hr Hp; [auto|].
  cbn [forallb] in Hp. apply andb_true_iff in Hp as [Hi Hp]. cbn [run fold_left].
  destruct (passive_stopped sys i Hi Hr) as (H1 & H2 & H3).
  destruct (IH (step sys i) H1 Hp) as (H4 & H5 & H6). unfold run in *.
  split; [exact H4|]. split; congruence.
Qed.

(** X5. While [this.mod] is [null], as after the panel is closed,
    webview messages, queued callbacks and further disposals make no
    kernel call, construct and dispose nothing, post nothing, and leave
    the reference [null]. *)
Theorem unbound_panel_is_inert (sys : System) (inputs : list Input) :
  mod_ (world sys) = None -> forallb passive inputs = true ->
  mod_ (world (run sys inputs)) = None /\
  heap (world (run sys inputs)) = heap (world sys) /\
  kernelCalls (log (world (run sys inputs))) = kernelCalls (log (world sys)) /\
  posts (log (world (run sys inputs))) = posts (log (world sys)).
Proof.
  revert sys. induction inputs as [|i inputs IH]; intros sys Hm Hp; [auto|].
  cbn [forallb] in Hp. apply andb_true_iff in Hp as [Hi Hp]. cbn [run fold_left].
  destruct (passive_unbound sys i Hi Hm) as (H1 & H2 & H3 & H4).
  destruct (IH (step sys i) H1 Hp) as (H5 & H6 & H7 & H8). unfold run in *.
  split; [exact H5|]. repeat split; congruence.
Qed.

(** X6. The loop sustains itself without forking.  A queued
    [renderLoop] that finds the loop running on a module posts the frame
    and leaves exactly as many callbacks queued as it found, the module
    object being what [renderVGAFrame] left it; when the render throws it
    posts the error instead, stops the loop and queues nothing. *)
Theorem render_loop_sustains (sys : System) (n id : nat) (m : HDLModuleWASM) :
  hostGone (world sys) = false ->
  running (world sys) = true ->
  mod_ (world sys) = Some id ->
  heap (world sys) !! id = Some m ->
  immediates (world sys) = S n ->
  let w := world sys in
  let w' := world (step sys Immediate) in
  let size := (VGA_WIDTH * VGA_HEIGHT * 4)%nat in
  mod_ w' = Some id /\
  match renderVGAFrame m size (syncPolarity w) with
  | (m', ws, None) =>
      posts (log w')
      = posts (log w) ++ [frame VGA_WIDTH VGA_HEIGHT (stores (Uint8Array size) ws)] /\
      running w' = true /\ immediates w' = S n /\ heap w' = <[id := m']> (heap w)
  | (m', ws, Some e) =>
      posts (log w')
      = posts (log w) ++ [error ("Simulation error: " +:+ messageOf e)] /\
      running w' = false /\ immediates w' = n /\ heap w' = <[id := m']> (heap w)
  end.
Proof.
  intros Hgone Hr Hm Hh Hi w w' size. subst w w'. unfold step. rewrite Hgone, Hi.
  cbn [onWorld world].
  unfold handler, renderLoop, call_renderVGAFrame, onModule, postMessage, emit,
    mbind, Js_bind, bind, tryCatch, read, write, ret, throw.
  cbn [running mod_ set_immediates]. rewrite Hr, Hm.
  rewrite bool_decide_eq_true_2 by eauto.
  cbn -[Uint8Array stores Nat.mul]. rewrite Hm.
  cbn -[Uint8Array stores Nat.mul]. rewrite Hh.
  rewrite length_Uint8Array. fold size.
  destruct (renderVGAFrame m size (syncPolarity (world sys))) as [[m' ws] [e|]];
    cbn -[Uint8Array stores Nat.mul]; rewrite ?Hr;
    cbn -[Uint8Array stores Nat.mul]; auto.
Qed.

End PanelProperties.

Lemma compile_protocol_witness :
  hostGone (world (@boot Fixture.kernel)) = false /\
  let before := posts (log (world (@boot Fixture.kernel))) in
  let w' := world (@compileSources Fixture.kernel Fixture.sources Fixture.good
                     (@boot Fixture.kernel)) in
  (exists text,
     posts (log w') = before ++ [status "Compiling..."; error text] /\
     running w' = false) \/
  (exists m,
     posts (log w') = before ++ [status "Compiling..."; status "Running"; m] /\
     @frameOrFault Fixture.kernel m /\ running w' = isFrame m).
Proof.
  split; [reflexivity|].
  exact (@compile_protocol Fixture.kernel Fixture.sources Fixture.good
           (@boot Fixture.kernel) eq_refl).
Defined.

Lemma failed_compile_witness :
  let text := "Compilation Error:" +:+ newline +:+ "%Error: syntax error" +:+ newline
              +:+ "Compilation failed: Error: Verilator process.exit(1)" in
  let sys := @run Fixture.kernel (@boot Fixture.kernel) Fixture.started in
  let w := world sys in
  let w' := world (@compileSources Fixture.kernel Fixture.sources Fixture.bad sys) in
  hostGone w = false /\
  @failureText Fixture.kernel Fixture.bad
    {| Verilator.topModule := @detectTopModule Fixture.kernel Fixture.sources;
       Verilator.sources := Fixture.sources |} = Some text /\
  posts (log w') = posts (log w) ++ [status "Compiling..."; error text] /\
  mod_ w' = mod_ w /\ heap w' = heap w /\ syncPolarity w' = syncPolarity w /\
  @kernelCalls Fixture.kernel (log w') = @kernelCalls Fixture.kernel (log w) /\
  running w' = false /\ immediates w' = immediates w /\
  process_exit w' = process_exit w.
Proof.
  intros text sys w w'.
  assert (H1 : hostGone w = false) by (vm_compute; reflexivity).
  assert (H2 : @failureText Fixture.kernel Fixture.bad
    {| Verilator.topModule := @detectTopModule Fixture.kernel Fixture.sources;
       Verilator.sources := Fixture.sources |} = Some text) by (vm_compute; reflexivity).
  split; [exact H1|]. split; [exact H2|].
  exact (@failed_compile_keeps_module Fixture.kernel Fixture.sources Fixture.bad sys text H1 H2).
Defined.

Lemma stopped_stays_stopped_witness :
  let sys := @run Fixture.kernel (@boot Fixture.kernel)
               (Fixture.started ++ [Received "stop"]) in
  let inputs := [Immediate; Received "reset"; Immediate; Received "start"; DidDispose] in
  running (world sys) = false /\ forallb passive inputs = true /\
  running (world (run sys inputs)) = false /\
  posts (log (world (run sys inputs))) = posts (log (world sys)) /\
  @renders Fixture.kernel (log (world (run sys inputs)))
  = @renders Fixture.kernel (log (world sys)).
Proof.
  intros sys inputs.
  assert (H1 : running (world sys) = false) by (vm_compute; reflexivity).
  split; [exact H1|]. split; [reflexivity|].
  exact (@stopped_stays_stopped Fixture.kernel sys inputs H1 eq_refl).
Defined.

Lemma unbound_panel_witness :
  let sys := @run Fixture.kernel (@boot Fixture.kernel)
               (Fixture.started ++ [DidDispose]) in
  let inputs := [Immediate; Received "reset"; DidDispose; Received "stop"] in
  mod_ (world sys) = None /\ forallb passive inputs = true /\
  mod_ (world (run sys inputs)) = None /\
  heap (world (run sys inputs)) = heap (world sys) /\
  @kernelCalls Fixture.kernel (log (world (run sys inputs)))
  = @kernelCalls Fixture.kernel (log (world sys)) /\
  posts (log (world (run sys inputs))) = posts (log (world sys)).
Proof.
  intros sys inputs.
  assert (H1 : mod_ (world sys) = None) by (vm_compute; reflexivity).
  split; [exact H1|]. split; [reflexivity|].
  exact (@unbound_panel_is_inert Fixture.kernel sys inputs H1 eq_refl).
Defined.

Lemma render_loop_witness :
  let sys := @run Fixture.kernel (@boot Fixture.kernel) Fixture.started in
  let w := world sys in
  let w' := world (step sys Immediate) in
  let size := (@VGA_WIDTH Fixture.kernel * @VGA_HEIGHT Fixture.kernel * 4)%nat in
  hostGone w = false /\ running w = true /\ mod_ w = Some 0%nat /\
  immediates w = 1%nat /\
  exists m, heap w !! 0%nat = Some m /\
    mod_ w' = Some 0%nat /\
    match @renderVGAFrame Fixture.kernel m size (syncPolarity w) with
    | (m', ws, None) =>
        posts (log w')
        = posts (log w) ++ [frame (@VGA_WIDTH Fixture.kernel) (@VGA_HEIGHT Fixture.kernel)
                              (stores (Uint8Array size) ws)] /\
        running w' = true /\ immediates w' = 1%nat /\ heap w' = <[0%nat := m']> (heap w)
    | (m', ws, Some e) =>
        posts (log w')
        = posts (log w) ++ [error ("Simulation error: " +:+ messageOf e)] /\
        running w' = false /\ immediates w' = 0%nat /\ heap w' = <[0%nat := m']> (heap w)
    end.
Proof.
  intros sys w w' size.
  assert (H1 : hostGone w = false) by (vm_compute; reflexivity).
  assert (H2 : running w = true) by (vm_compute; reflexivity).
  assert (H3 : mod_ w = Some 0%nat) by (vm_compute; reflexivity).
  assert (H4 : immediates w = 1%nat) by (vm_compute; reflexivity).
  assert (H5 : match heap w !! 0%nat with Some _ => true | None => false end = true)
    by (vm_compute; reflexivity).
  destruct (heap w !! 0%nat) as [m|] eqn:Hh; [|discriminate].
  repeat (split; [assumption|]). exists m. split; [reflexivity|].
  exact (@render_loop_sustains Fixture.kernel sys 0 0 m H1 H2 H3 Hh H4).
Defined.

(** ** compile.ts *)

Section DriverProperties.
Context {X : Type}.
Variable feedLines : list string -> list Verilator.ErrorEntry.
Variable parse : string -> Outcome X.
Import Verilator.

(** X7. [compileVerilator] never drops or reorders a diagnostic: what
    it resolves with is the parser's entries for the lines the compiler
    printed, in order, followed by at most one entry of its own, which is
    of kind [error] and located at line 1, column 1 of no file; a result
    with an output has none added.  The entry added says what went
    wrong: ["Compilation failed: "] followed by the text of what
    [callMain] threw, which for an intercepted [process.exit(code)] is
    ["Error: Verilator process.exit(code)"]; or, when the compiler
    returned and reported no error, ["XML parsing failed: "] followed by
    the text of what reading or parsing the XML file threw. *)
Theorem diagnostics_are_kept (exit : ExitFn) (tc : Toolchain)
    (opts : ICompileOptions) :
  match compileVerilator feedLines parse exit tc opts with
  | Settled (Normal r) =>
      let run := callMain tc (args opts) (writeSources opts) in
      let fed := feedLines (stderr run) in
      let own text :=
        {| type := error; file := ""; line := 1; column := 1; message := text |} in
      exists added,
        errors r = fed ++ added /\
        (length added <= 1)%nat /\
        Forall (fun d => type d = error /\ file d = "" /\ line d = 1 /\ column d = 1)
               added /\
        (is_Some (output r) -> added = []) /\
        added
        = match ending run with
          | MainThrows e => [own ("Compilation failed: " +:+ String_ e)]
          | MainExits code =>
              [own ("Compilation failed: Error: Verilator process.exit("
                    +:+ showCode code +:+ ")")]
          | MainReturns =>
              if decide (noErrors fed) then
                match xmlFile run with
                | Throw e => [own ("XML parsing failed: " +:+ String_ e)]
                | Normal xmlContent =>
                    match parse xmlContent with
                    | Throw e => [own ("XML parsing failed: " +:+ String_ e)]
                    | Normal _ => []
                    end
                end
              else []
          end
  | _ => True
  end.
Proof.
  unfold compileVerilator, compileVerilator_start, compileVerilator_resume.
  destruct (loadFault tc); [exact I|].
  destruct (readyFault tc); [exact I|].
  destruct (fsFault tc); [exact I|].
  set (run := callMain tc (args opts) (writeSources opts)).
  set (fed := feedLines (stderr run)).
  assert (Hcrash : forall prefix e,
    finish parse (fed ++ [crashEntry prefix e]) run
    = {| errors := fed ++ [crashEntry prefix e]; output := None |}).
  { intros prefix e. unfold finish.
    destruct (length (filter _ _) =? 0)%nat eqn:Hlen; [|reflexivity].
    apply Nat.eqb_eq, length_zero_iff_nil, filter_errors_nil in Hlen.
    destruct (noErrors_crash _ _ _ Hlen). }
  assert (Hexit : forall code,
    String_ (exitError code) = "Error: Verilator process.exit(" +:+ showCode code +:+ ")").
  { intros code. unfold exitError, String_.
    rewrite decide_False by discriminate. reflexivity. }
  unfold runMain. fold fed.
  destruct (ending run) as [|e|code].
  - unfold finish.
    destruct (length (filter _ fed) =? 0)%nat eqn:Hlen; cbn [negb].
    + apply Nat.eqb_eq, length_zero_iff_nil, filter_errors_nil in Hlen.
      rewrite decide_True by exact Hlen.
      destruct (xmlFile run) as [xmlContent|e];
        [destruct (parse xmlContent) as [x|e]|]; cbn [errors output].
      * exists []. rewrite app_nil_r. repeat split; auto.
      * eexists. split; [reflexivity|]. split; [simpl; lia|].
        split; [repeat constructor|]. split; [intros [? [=]]|reflexivity].
      * eexists. split; [reflexivity|]. split; [simpl; lia|].
        split; [repeat constructor|]. split; [intros [? [=]]|reflexivity].
    + apply Nat.eqb_neq in Hlen.
      rewrite decide_False
        by (intros H; apply Hlen; apply filter_errors_nil in H; rewrite H; reflexivity).
      cbn [errors output]. exists []. rewrite app_nil_r. repeat split; auto.
  - rewrite Hcrash. cbn [errors output].
    eexists. split; [reflexivity|]. split; [simpl; lia|].
    split; [repeat constructor|]. split; [intros [? [=]]|reflexivity].
  - destruct exit; [exact I|].
    rewrite Hcrash. cbn [errors output].
    eexists. split; [reflexivity|]. split; [simpl; lia|].
    split; [repeat constructor|]. split; [intros [? [=]]|].
    unfold crashEntry. rewrite Hexit. reflexivity.
Qed.

(** X8. When the compiler returns but printed a diagnostic of kind
    [error], [compileVerilator] resolves with the parser's entries alone
    and no output, whatever the XML file holds: the file is not read. *)
Theorem reported_errors_skip_xml (exit : ExitFn) (tc : Toolchain)
    (opts : ICompileOptions) :
  let run := callMain tc (args opts) (writeSources opts) in
  loadFault tc = None -> readyFault tc = None -> fsFault tc = None ->
  ending run = MainReturns ->
  ~ noErrors (feedLines (stderr run)) ->
  compileVerilator feedLines parse exit tc opts
  = Settled (Normal {| errors := feedLines (stderr run); output := None |}).
Proof.
  intros run H1 H2 H3 He Hn.
  unfold compileVerilator, compileVerilator_start, compileVerilator_resume, runMain.
  fold run. rewrite H1, H2, H3, He. unfold finish.
  destruct (length (filter _ _) =? 0)%nat eqn:Hlen; [|reflexivity].
  apply Nat.eqb_eq, length_zero_iff_nil, filter_errors_nil in Hlen. contradiction.
Qed.

(** X20. With [process.exit] replaced by the function that throws,
    [compileVerilator] always settles and never ends the host: its
    promise rejects only with a fault raised outside its two [try]
    blocks (loading or instantiating the compiler, writing the sources),
    and otherwise resolves, with an output exactly when its diagnostics
    hold no entry of kind [error].  With the host's own [process.exit]
    in place the host is ended exactly when none of those faults occurs
    and the compiler leaves through [process.exit]. *)
Theorem intercepted_compiler_always_settles (tc : Toolchain)
    (opts : ICompileOptions) :
  let main := callMain tc (args opts) (writeSources opts) in
  match compileVerilator feedLines parse throwingExit tc opts with
  | HostTerminated _ => False
  | Settled (Throw e) =>
      loadFault tc = Some e \/
      (loadFault tc = None /\ readyFault tc = Some e) \/
      (loadFault tc = None /\ readyFault tc = None /\ fsFault tc = Some e)
  | Settled (Normal r) =>
      loadFault tc = None /\ readyFault tc = None /\ fsFault tc = None /\
      (is_Some (output r) <-> noErrors (errors r))
  end /\
  (forall code,
     compileVerilator feedLines parse hostExit tc opts = HostTerminated code <->
     loadFault tc = None /\ readyFault tc = None /\ fsFault tc = None /\
     ending main = MainExits code).
Proof.
  intros main. split.
  - unfold compileVerilator, compileVerilator_start, compileVerilator_resume.
    destruct (loadFault tc) as [e|]; [auto|].
    destruct (readyFault tc) as [e|]; [auto|].
    destruct (fsFault tc) as [e|]; [auto 6|].
    fold main. unfold runMain.
    destruct (ending main) as [|e|code];
      match goal with |- context [finish parse ?errs main] =>
        destruct (finish_spec parse errs main) as (Hiff & _ & _) end; auto.
  - intros code.
    unfold compileVerilator, compileVerilator_start, compileVerilator_resume.
    destruct (loadFault tc) as [e|]; [split; [discriminate|intros ([=] & _)]|].
    destruct (readyFault tc) as [e|]; [split; [discriminate|intros (_ & [=] & _)]|].
    destruct (fsFault tc) as [e|]; [split; [discriminate|intros (_ & _ & [=] & _)]|].
    fold main. unfold runMain.
    destruct (ending main) as [|e|code']; cbn.
    + split; [discriminate|intros (_ & _ & _ & [=])].
    + split; [discriminate|intros (_ & _ & _ & [=])].
    + split; [intros [= ->]; auto|intros (_ & _ & _ & [= ->]); reflexivity].
Qed.

End DriverProperties.

Lemma reported_errors_witness :
  let feed := @feedLines Fixture.kernel in
  let run := Verilator.callMain Fixture.flagged (Verilator.args Fixture.options)
               (Verilator.writeSources Fixture.options) in
  Verilator.loadFault Fixture.flagged = None /\
  Verilator.readyFault Fixture.flagged = None /\
  Verilator.fsFault Fixture.flagged = None /\
  Verilator.ending run = Verilator.MainReturns /\
  ~ Verilator.noErrors (feed (Verilator.stderr run)) /\
  Verilator.compileVerilator feed (@parse Fixture.kernel) Verilator.hostExit
    Fixture.flagged Fixture.options
  = Verilator.Settled (Normal {| Verilator.errors := feed (Verilator.stderr run);
                                 Verilator.output := None |}).
Proof.
  intros feed run.
  assert (Hn : ~ Verilator.noErrors (feed (Verilator.stderr run))).
  { intros H. apply Forall_inv in H. apply H. reflexivity. }
  repeat (split; [reflexivity|]). split; [exact Hn|].
  exact (reported_errors_skip_xml feed (@parse Fixture.kernel) Verilator.hostExit
           Fixture.flagged Fixture.options eq_refl eq_refl eq_refl eq_refl Hn).
Defined.

(** ** The compiler binary *)

Section BinaryProperties.
Context {Buffer : Type}.
Import Wasm WasmFacts.

(** X9. Over any sequence of calls of [compileVerilator], the file
    verilator_bin.wasm is read successfully at most once: a read that
    returns fills [cachedWasmBinary], and from then on no call reads the
    file again, each using its own [opts.wasmBinary] if it has one and
    the cached binary otherwise.  A call given a binary never reads the
    file, whatever the cache holds. *)
Theorem wasm_binary_read_once (cached : option Buffer)
    (calls : list (option Buffer * Outcome Buffer)) :
  (goodReads (loads cached calls).2 <= 1)%nat /\
  (forall c, cached = Some c ->
     (loads cached calls).1 = Some c /\
     Forall (fun l => readFile l = false) (loads cached calls).2 /\
     Forall2 (fun call l => binary l = Normal (default c call.1))
             calls (loads cached calls).2) /\
  Forall2 (fun call l => forall b, call.1 = Some b ->
             readFile l = false /\ binary l = Normal b)
          calls (loads cached calls).2.
Proof.
  split; [|split].
  - revert cached. induction calls as [|[given disk] calls IH]; intros cached;
      [cbn; lia|].
    destruct cached as [c|].
    { destruct (loads_cached c ((given, disk) :: calls)) as (_ & H & _).
      rewrite (goodReads_none _ H). lia. }
    cbn [loads]. destruct given as [b|]; cbn [wasmBinary].
    + specialize (IH None). destruct (loads None calls) as [final ls].
      cbn [fst snd] in *. exact IH.
    + destruct disk as [b|e].
      * destruct (loads_cached b calls) as (_ & H & _).
        destruct (loads (Some b) calls) as [final ls]. cbn [fst snd] in *.
        pose proof (goodReads_none _ H) as H0. unfold goodReads in *.
        cbn. rewrite H0. lia.
      * specialize (IH None). destruct (loads None calls) as [final ls].
        cbn [fst snd] in *. exact IH.
  - intros c ->. apply loads_cached.
  - revert cached. induction calls as [|[given disk] calls IH]; intros cached;
      [constructor|].
    cbn [loads].
    destruct (wasmBinary given cached disk) as [[cached' read] b] eqn:E.
    specialize (IH cached'). destruct (loads cached' calls) as [final ls].
    cbn [fst snd] in *. constructor; [|exact IH].
    intros b0 Hb. cbn [fst] in Hb. subst given. cbn in E.
    injection E as _ <- <-. auto.
Qed.

End BinaryProperties.

(** ** The command *)

Section CommandProperties.
Context {P : Extension.Paths}.
Import Extension ExtensionFacts.

(** X10. [gatherVerilogFiles] reads every file the search returned, in
    order.  When it returns, the keys of the object are the relative
    paths of the files, each once and in the order of its first
    occurrence, and a key holds the content of the last file of that
    relative path.  When it throws, either the search failed or a file
    could not be read, every file before it having been read. *)
Theorem gather_reads_every_file (ws : Workspace) (folder : Uri) :
  match gatherVerilogFiles ws folder with
  | Normal sources =>
      exists files,
        findFilesIn ws folder = Normal files /\
        NoDup (map fst sources) /\
        map fst sources
        = firstOccurrences (map (fun f => relative (fsPath folder) (fsPath f)) files) [] /\
        forall key,
          option_map Normal (getProperty key sources) = contents ws folder files !! key
  | Throw e =>
      findFilesIn ws folder = Throw e \/
      exists before file after,
        findFilesIn ws folder = Normal (before ++ file :: after) /\
        readFileSync ws (fsPath file) = Throw e /\
        Forall (fun f => exists c, readFileSync ws (fsPath f) = Normal c) before
  end.
Proof.
  unfold gatherVerilogFiles.
  destruct (findFilesIn ws folder) as [files|e]; [|auto].
  pose proof (readAll_spec ws folder files [] (NoDup_nil_2)) as H.
  destruct (readAll ws folder files []) as [sources|e].
  - destruct H as (H1 & H2 & H3). exists files. repeat split; auto.
    intros key. rewrite H3. destruct (contents ws folder files !! key); reflexivity.
  - destruct H as (before & file & after & -> & He & Hall). right. eauto 8.
Qed.

(** X11. When the command ends without compiling and without an
    exception, the panel registry is untouched and the user was told or
    asked exactly once: either the search found no file and the error
    message was shown, or the list of files was offered and dismissed. *)
Theorem command_is_never_silent (ws : Workspace) (r : Registry) :
  (simulate ws r).2 = Normal None ->
  (simulate ws r).1.1 = r /\
  ((simulate ws r).1.2
   = [ErrorMessage "No Verilog (.v / .sv) files found in workspace."] /\
   findFiles ws = Normal [] \/
   exists items, (simulate ws r).1.2 = [QuickPick items] /\
                 showQuickPick ws items = Normal None).
Proof.
  unfold simulate.
  assert (Hp : (pickSources ws).2 = Normal None ->
    ((pickSources ws).1
     = [ErrorMessage "No Verilog (.v / .sv) files found in workspace."] /\
     findFiles ws = Normal [] \/
     exists items, (pickSources ws).1 = [QuickPick items] /\
                   showQuickPick ws items = Normal None)).
  { unfold pickSources. destruct (findFiles ws) as [files|e]; [|discriminate].
    case_bool_decide as Hlen.
    - intros _. left. split; [reflexivity|]. destruct files; [reflexivity|discriminate].
    - destruct (showQuickPick ws _) as [[picked|]|e] eqn:Hq; cbn [fst snd].
      + destruct (getWorkspaceFolder ws (target picked)) as [folder|].
        * destruct (gatherVerilogFiles ws folder); discriminate.
        * destruct (readFile ws (target picked)); discriminate.
      + intros _. right. eauto.
      + discriminate. }
  assert (Hc : (collectVerilogSources ws).2 = Normal None ->
    (collectVerilogSources ws) = pickSources ws).
  { unfold collectVerilogSources.
    destruct (activeTextEditor ws) as [doc|]; [|reflexivity].
    destruct (isVerilog doc); [|reflexivity].
    destruct (getWorkspaceFolder ws (uri doc)) as [folder|]; cbn [snd]; [|discriminate].
    destruct (gatherVerilogFiles ws folder); discriminate. }
  destruct (collectVerilogSources ws) as [shown [[sources|]|e]] eqn:Hcol; cbn [fst snd] in *.
  - destruct (createOrShow r) as [[r' s] p]. discriminate.
  - intros _. split; [reflexivity|]. rewrite <- (Hc eq_refl) in Hp. apply Hp. reflexivity.
  - discriminate.
Qed.

(** X12. Running the command again while its panel is open creates no
    second panel: the second run compiles on the panel of the first,
    leaves [currentPanel] as it is, and the last thing it shows is that
    panel revealed. *)
Theorem command_reuses_the_panel (ws ws' : Workspace) (r : Registry)
    (first second : Launch) :
  (simulate ws r).2 = Normal (Some first) ->
  (simulate ws' (simulate ws r).1.1).2 = Normal (Some second) ->
  panel second = panel first /\
  (simulate ws' (simulate ws r).1.1).1.1 = (simulate ws r).1.1 /\
  last (simulate ws' (simulate ws r).1.1).1.2 = Some (Revealed (panel first)).
Proof.
  intros H1 H2.
  destruct (simulate_launch ws r first H1) as (sources & _ & E1).
  rewrite E1 in H1, H2 |- *. cbn [fst snd] in *. injection H1 as <-. cbn [panel].
  pose proof (createOrShow_current r) as Hc.
  destruct (simulate_launch ws' _ second H2) as (sources' & _ & E2).
  rewrite E2 in H2 |- *. cbn [fst snd] in *. injection H2 as <-. cbn [panel].
  rewrite (createOrShow_reveals _ _ Hc). cbn [fst snd].
  split; [reflexivity|]. split; [reflexivity|]. apply last_snoc.
Qed.

(** X13. However often the command is run and panels are closed, the
    panels created and not yet closed are exactly [currentPanel]: at
    most one simulator panel is open at any time. *)
Theorem one_panel_at_a_time (actions : list Action) :
  let st := foldl act (noPanel, []) actions in
  openPanels st.2 = option_list (currentPanel st.1) /\
  (length (openPanels st.2) <= 1)%nat.
Proof.
  intros st.
  assert (H : openPanels st.2 = option_list (currentPanel st.1)).
  { subst st. generalize (eq_refl : openPanels (noPanel, @nil Shown).2
                                     = option_list (currentPanel (noPanel, @nil Shown).1)).
    generalize (noPanel, @nil Shown) as st0. 
    induction actions as [|a actions IH]; intros st0 H0; [exact H0|].
    cbn [foldl]. apply IH, act_open, H0. }
  split; [exact H|]. rewrite H. destruct (currentPanel st.1); cbn; lia.
Qed.

End CommandProperties.

Lemma command_is_never_silent_witness :
  let r := Extension.noPanel in
  (@Extension.simulate Desk.paths Desk.bare r).2 = Normal None /\
  (@Extension.simulate Desk.paths Desk.bare r).1.1 = r /\
  ((@Extension.simulate Desk.paths Desk.bare r).1.2
   = [Extension.ErrorMessage "No Verilog (.v / .sv) files found in workspace."] /\
   Extension.findFiles Desk.bare = Normal [] \/
   exists items,
     (@Extension.simulate Desk.paths Desk.bare r).1.2 = [Extension.QuickPick items] /\
     Extension.showQuickPick Desk.bare items = Normal None).
Proof.
  intros r. split; [reflexivity|].
  exact (@command_is_never_silent Desk.paths Desk.bare r eq_refl).
Defined.

Lemma command_reuses_the_panel_witness :
  let r := Extension.noPanel in
  let launch := {| Extension.panel := 0; Extension.launched := Desk.gathered |} in
  let once := @Extension.simulate Desk.paths Desk.editing r in
  let again := @Extension.simulate Desk.paths Desk.editing once.1.1 in
  once.2 = Normal (Some launch) /\ again.2 = Normal (Some launch) /\
  Extension.panel launch = Extension.panel launch /\
  again.1.1 = once.1.1 /\
  last again.1.2 = Some (Extension.Revealed (Extension.panel launch)).
Proof.
  intros r launch once again.
  assert (H1 : once.2 = Normal (Some launch)) by (vm_compute; reflexivity).
  assert (H2 : again.2 = Normal (Some launch)) by (vm_compute; reflexivity).
  split; [exact H1|]. split; [exact H2|].
  exact (@command_reuses_the_panel Desk.paths Desk.editing Desk.editing r
           launch launch H1 H2).
Defined.

(** ** The page *)

Section PageProperties.
Context {F : Webview.Platform}.
Import Webview WebviewFacts.

(** X14. Whatever happens in the page, the error overlay is visible
    exactly when the latest [status] or [error] message received was an
    [error], whose text it then shows; the status line is what the
    latest such message or click of Stop set; and the commands posted to
    the extension are the clicks, in order.  Frames, window resizes and
    exceptions in a listener change none of this. *)
Theorem overlay_follows_the_latest_message (v : View) (es : list Happening) :
  let v' := happenings v es in
  errorShown v' = match latestNote es with
                  | Some (Error _) => true
                  | Some _ => false
                  | None => errorShown v
                  end /\
  (forall text, latestNote es = Some (Error text) -> errorText v' = text) /\
  statusText v' = default (statusText v) (latestStatus es) /\
  outbox v' = outbox v ++ clicks es.
Proof.
  induction es as [|e es IH] using rev_ind.
  - cbn. rewrite app_nil_r. repeat split. discriminate.
  - cbv zeta in *. unfold happenings, latestNote, latestStatus, clicks in *.
    rewrite !foldl_app, omap_app. cbn [foldl].
    destruct IH as (H1 & H2 & H3 & H4).
    destruct (happen_notice (foldl happen v es) e) as (E1 & E2 & E3 & E4).
    rewrite E1, E2, E3, E4, H4, <- app_assoc. unfold clicks.
    split; [|split; [|split; [|reflexivity]]].
    + destruct e as [[w h pixels|text|text|command] now| | |]; auto.
    + destruct e as [[w h pixels|text|text|command] now| | |]; auto; congruence.
    + destruct e as [[w h pixels|text|text|command] now| | |]; auto.
Qed.

(** X15. A [frame] message of a positive size whose text decodes to
    exactly width x height x 4 bytes is drawn whole: the listener
    returns, the canvas has the size of the frame and shows its bytes,
    and the status line, the overlay and the commands posted are as
    before. *)
Theorem frame_is_drawn_whole (v : View) (w h : nat) (pixels : string)
    (bytes : list Z) (now : Time) :
  wellSized v -> (0 < w)%nat -> (0 < h)%nat ->
  atob pixels = Normal bytes -> Forall isByte bytes ->
  length bytes = (w * h * 4)%nat ->
  let v' := (onMessage (Frame w h pixels) now v).1 in
  (onMessage (Frame w h pixels) now v).2 = None /\
  put v' = Some {| width := w; height := h; data := bytes |} /\
  imageData v' = put v' /\
  canvasWidth v' = w /\ canvasHeight v' = h /\
  statusText v' = statusText v /\ errorText v' = errorText v /\
  errorShown v' = errorShown v /\ outbox v' = outbox v /\
  wellSized v'.
Proof.
  intros Hv Hw Hh Hatob Hbytes Hlen v'. subst v'. unfold onMessage.
  destruct (frame_prepared v w h Hv Hw Hh)
    as (v1 & -> & (d & Hi & Hd) & Hcw & Hch & Hs & He & Hsh & Ho).
  unfold draw. rewrite Hatob, Hi, (bytes_mod bytes Hbytes). cbn [data width height].
  rewrite bool_decide_eq_false_2 by lia.
  rewrite drop_ge by lia. rewrite app_nil_r.
  unfold countFrame. cbn [fst snd].
  destruct (aSecondSince now _); cbn; unfold wellSized; cbn;
    repeat split; auto; lia.
Qed.

(** X16. Resizing the window blanks the canvas.  The listener of
    [resize] assigns the size of the canvas, which clears it, and nothing
    draws until the next [frame] message: after a resize and any
    happenings that are not frames, no image is on the canvas. *)
Theorem window_resize_blanks_the_canvas (v : View) (es : list Happening) :
  is_Some (imageData v) -> forallb (fun e => negb (isFrameMsg e)) es = true ->
  put (happenings (happen v WindowResize) es) = None.
Proof.
  intros [img Hi] Hes.
  assert (H0 : put (happen v WindowResize) = None).
  { cbn [happen]. rewrite Hi. unfold resizeCanvas.
    destruct (createImageData _ _); reflexivity. }
  revert H0. generalize (happen v WindowResize) as v0. unfold happenings.
  induction es as [|e es IH]; intros v0 H0; [exact H0|].
  cbn [forallb] in Hes. apply andb_true_iff in Hes as [He Hes].
  cbn [foldl]. apply IH; [exact Hes|]. apply happen_blank; [|exact H0].
  destruct (isFrameMsg e); [discriminate|reflexivity].
Qed.

End PageProperties.

Lemma frame_is_drawn_whole_witness :
  let v := @Webview.loaded Desk.platform 0 in
  let text := Base64.toBase64 Desk.pixel in
  let v' := (@Webview.onMessage Desk.platform (Webview.Frame 1 1 text) 16 v).1 in
  @Webview.wellSized Desk.platform v /\
  @Webview.atob Desk.platform text = Normal Desk.pixel /\
  Forall isByte Desk.pixel /\ length Desk.pixel = (1 * 1 * 4)%nat /\
  (@Webview.onMessage Desk.platform (Webview.Frame 1 1 text) 16 v).2 = None /\
  Webview.put v'
  = Some {| Webview.width := 1; Webview.height := 1; Webview.data := Desk.pixel |} /\
  Webview.imageData v' = Webview.put v' /\
  Webview.canvasWidth v' = 1%nat /\ Webview.canvasHeight v' = 1%nat /\
  Webview.statusText v' = Webview.statusText v /\
  Webview.errorText v' = Webview.errorText v /\
  Webview.errorShown v' = Webview.errorShown v /\
  Webview.outbox v' = Webview.outbox v /\
  @Webview.wellSized Desk.platform v'.
Proof.
  intros v text v'.
  assert (H1 : @Webview.wellSized Desk.platform v)
    by exact (@WebviewFacts.loaded_wellSized Desk.platform 0).
  assert (H2 : @Webview.atob Desk.platform text = Normal Desk.pixel) by reflexivity.
  assert (H3 : Forall isByte Desk.pixel) by (repeat constructor; unfold isByte; lia).
  assert (H4 : length Desk.pixel = (1 * 1 * 4)%nat) by reflexivity.
  repeat (split; [assumption|]).
  exact (@frame_is_drawn_whole Desk.platform v 1 1 text Desk.pixel 16
           H1 (Nat.lt_0_succ 0) (Nat.lt_0_succ 0) H2 H3 H4).
Defined.

Lemma window_resize_witness :
  let v := @Webview.loaded Desk.platform 0 in
  let es := [@Webview.Receive Desk.platform (Webview.Status "Running") 5;
             Webview.ClickStop; Webview.WindowResize] in
  is_Some (Webview.imageData v) /\
  forallb (fun e => negb (Webview.isFrameMsg e)) es = true /\
  Webview.put (Webview.happenings (Webview.happen v Webview.WindowResize) es) = None.
Proof.
  intros v es.
  assert (H1 : is_Some (Webview.imageData v)).
  { pose proof (@WebviewFacts.loaded_wellSized Desk.platform 0) as H.
    unfold Webview.wellSized in H. fold v in H.
    destruct (Webview.imageData v); [eauto|destruct H]. }
  split; [exact H1|]. split; [reflexivity|].
  exact (@window_resize_blanks_the_canvas Desk.platform v es H1 eq_refl).
Defined.

(** ** What the user is notified of *)

Section NotificationProperties.
Context {K : Kernel}.

(** X19. One call of [compileSources] awaited to its end shows a
    warning notification exactly when the compilation resolved with an
    output and left entries of kind [warning]: then it shows one, with
    their number.  A compilation that fails shows none, whatever
    warnings it left, and nothing else in the call (binding the module,
    detecting the polarity, the first render) shows any. *)
Theorem warnings_need_an_output (sources : list (string * string))
    (tc : Verilator.Toolchain) (sys : System) :
  hostGone (world sys) = false ->
  let opts := {| Verilator.topModule := detectTopModule sources;
                 Verilator.sources := sources |} in
  let w' := world (compileSources sources tc sys) in
  let n r := length (warnings (Verilator.errors r)) in
  warned (log w')
  = warned (log (world sys)) ++
    match Verilator.compileVerilator feedLines parse Verilator.throwingExit tc opts with
    | Verilator.Settled (Normal r) =>
        if bool_decide (is_Some (Verilator.output r) /\ (0 < n r)%nat)
        then ["Verilator: " +:+ pretty (n r) +:+ " warning(s)"]
        else []
    | _ => []
    end.
Proof.
  intros Hgone opts w' n. subst w'.
  destruct (compileSources_pipeline sources tc sys Hgone) as [-> _].
  unfold pipeline.
  destruct (pipeline_compiled sources tc (world sys)) as (res & Hres & ->).
  fold opts in Hres. rewrite Hres.
  set (w0 := set_process_exit Verilator.throwingExit
               (push (Posted (status "Compiling...")) (set_running false (world sys)))).
  change (advance (AfterCompile 0) (w0, AwaitCompile (process_exit (world sys)) res))
    with (compileSources_afterCompile (process_exit (world sys)) res w0).
  change (warned (log (world sys))) with (warned (log w0)).
  generalize (process_exit (world sys)) as o. intros o.
  unfold compileSources_afterCompile.
  destruct res as [r|e]; [destruct (Verilator.output r) as [modules|] eqn:Hout|].
  - match goal with |- context [initModule_start modules ?w1] => set (w1' := w1) end.
    assert (Hw1 : warned (log w1')
                  = warned (log w0) ++
                    (if bool_decide (is_Some (Some modules) /\ (0 < n r)%nat)
                     then ["Verilator: " +:+ pretty (n r) +:+ " warning(s)"] else [])).
    { subst w1' n. unfold warnings. cbv beta.
      destruct (bool_decide (0 < _)%nat) eqn:Hn.
      - apply bool_decide_eq_true in Hn. rewrite bool_decide_eq_true_2 by eauto.
        reflexivity.
      - apply bool_decide_eq_false in Hn.
        rewrite bool_decide_eq_false_2 by tauto. rewrite app_nil_r. reflexivity. }
    rewrite <- Hw1. clearbody w1'.
    pose proof (initModule_start_sameWarnings modules w1') as H2. unfold wp in H2.
    destruct (initModule_start modules w1') as [w2 [id|e]]; cbn [fst snd] in *.
    + change (advance (InitSettled 0) (w2, AwaitInit o id)) with (initModule_settle o id w2).
      unfold initModule_settle.
      pose proof (initModule_resume_sameWarnings id w2) as H3. unfold wp in H3.
      destruct (initModule_resume id w2) as [w3 [[]|e]]; cbn [fst snd] in *;
        match goal with |- context [advance _ (w3, AwaitInitModule o ?r)] =>
          change (advance (AfterInitModule 0) (w3, AwaitInitModule o r))
            with (compileSources_afterInitModule o r w3) end;
        rewrite afterInitModule_sameWarnings; unfold sameWarnings in *; congruence.
    + change (advance (InitSettled 0) (w2, AwaitInitModule o (Some e)))
        with (w2, AwaitInitModule o (Some e)).
      change (advance (AfterInitModule 0) (w2, AwaitInitModule o (Some e)))
        with (compileSources_afterInitModule o (Some e) w2).
      rewrite afterInitModule_sameWarnings. exact H2.
  - rewrite bool_decide_eq_false_2 by (intros [[? [=]] _]).
    rewrite app_nil_r. reflexivity.
  - rewrite app_nil_r. reflexivity.
Qed.

End NotificationProperties.

Lemma warnings_witness :
  let sys := @boot Fixture.kernel in
  let w' := world (@compileSources Fixture.kernel Fixture.sources Desk.cautious sys) in
  hostGone (world sys) = false /\
  @warned Fixture.kernel (log w') = ["Verilator: 1 warning(s)"].
Proof.
  intros sys w'. split; [reflexivity|].
  exact (@warnings_need_an_output Fixture.kernel Fixture.sources Desk.cautious sys eq_refl).
Defined.

(** ** Calls of [compileSources] that do not overlap *)

Section SerialProperties.
Context {K : Kernel}.

(** X21. As long as the command is run only when every earlier call of
    [compileSources] has finished, the host is never ended, whatever
    the compilers do and whatever messages, queued callbacks and
    disposals come in between; [process.exit] is the throwing
    replacement while a call is suspended and the host's own function
    whenever none is. *)
Theorem serial_calls_intercept_exit (inputs : list Input) :
  serial boot inputs ->
  let sys := run boot inputs in
  hostGone (world sys) = false /\
  (idle sys = true -> process_exit (world sys) = Verilator.hostExit) /\
  (idle sys = false -> process_exit (world sys) = Verilator.throwingExit).
Proof.
  intros Hs sys.
  pose proof (Orderly_run inputs boot Orderly_boot Hs) as Hord. fold sys in Hord.
  split; [apply ord_alive, Hord|]. split; [apply ord_idle, Hord|].
  intros Hidle. unfold idle in Hidle.
  assert (Hex : exists c st, calls sys !! c = Some st /\ isFinished st = false).
  { revert Hidle. generalize (calls sys) as l.
    induction l as [|st l IH]; [discriminate|]. cbn [forallb].
    destruct (isFinished st) eqn:Hf; cbn [andb].
    - intros H. destruct (IH H) as (c & st' & Hc & Hst). exists (S c), st'. auto.
    - intros _. exists 0%nat, st. auto. }
  destruct Hex as (c & st & Hc & Hst).
  pose proof (ord_intercepting _ Hord c st Hc) as Hi.
  destruct st; try discriminate; apply Hi.
Qed.

(** X22. As long as the command is run only when every earlier call of
    [compileSources] has finished, every render is made on the module
    on which the latest completed [detectSyncPolarity] ran, and is
    handed the polarity that detection returned. *)
Theorem serial_renders_own_polarity (inputs : list Input) :
  serial boot inputs ->
  eachEvent renderOwnsPolarity (log (world (run boot inputs))).
Proof.
  intros Hs.
  pose proof (owned_renders _ (ord_owned _ (Orderly_run inputs boot Orderly_boot Hs)))
    as Hown.
  pose proof (good_polarity _ (proj1 (Sound_run inputs boot Sound_boot))) as Hpol.
  revert Hown Hpol. generalize (log (world (run boot inputs))) as l.
  induction l as [|e l IH]; [auto|]. cbn [eachEvent].
  intros [Ho Hown] [Hp Hpol]. split; [|apply IH; assumption].
  destruct e as [| | | | |op t| | | | | | |]; try exact I.
  destruct op; try exact I. cbn in *. tauto.
Qed.

(** X23. One call of [compileSources] awaited to its end finishes with
    the host alive and [process.exit] as the call found it, whatever the
    tool chain and the kernel do. *)
Theorem awaited_call_puts_exit_back (sources : list (string * string))
    (tc : Verilator.Toolchain) (sys : System) :
  hostGone (world sys) = false ->
  let sys' := compileSources sources tc sys in
  hostGone (world sys') = false /\
  calls sys' !! length (calls sys) = Some Finished /\
  process_exit (world sys') = process_exit (world sys).
Proof.
  intros Hgone sys'.
  destruct (compileSources_completes sources tc sys Hgone)
    as (Hg & st & Hst & Hr & Hex).
  destruct st; cbn [rank] in Hr; try lia. auto.
Qed.

End SerialProperties.

Lemma serial_calls_witness :
  let inputs := Fixture.session in
  let sys := @run Fixture.kernel (@boot Fixture.kernel) inputs in
  @serial Fixture.kernel (@boot Fixture.kernel) inputs /\
  hostGone (world sys) = false /\
  (@idle Fixture.kernel sys = true -> process_exit (world sys) = Verilator.hostExit) /\
  (@idle Fixture.kernel sys = false ->
   process_exit (world sys) = Verilator.throwingExit).
Proof.
  intros inputs sys.
  assert (Hs : @serial Fixture.kernel (@boot Fixture.kernel) inputs)
    by (vm_compute; repeat split).
  split; [exact Hs|].
  exact (@serial_calls_intercept_exit Fixture.kernel inputs Hs).
Defined.

Lemma serial_renders_witness :
  let inputs := Fixture.started ++ [Immediate; Received "reset"; Immediate] in
  @serial Fixture.kernel (@boot Fixture.kernel) inputs /\
  @renders Fixture.kernel (log (world (@run Fixture.kernel (@boot Fixture.kernel) inputs)))
  = 3%nat /\
  eachEvent (@renderOwnsPolarity Fixture.kernel)
    (log (world (@run Fixture.kernel (@boot Fixture.kernel) inputs))).
Proof.
  intros inputs.
  assert (Hs : @serial Fixture.kernel (@boot Fixture.kernel) inputs)
    by (vm_compute; repeat split).
  split; [exact Hs|]. split; [vm_compute; reflexivity|].
  exact (@serial_renders_own_polarity Fixture.kernel inputs Hs).
Defined.

Lemma awaited_call_witness :
  let sys := @boot Fixture.kernel in
  let sys' := @compileSources Fixture.kernel Fixture.sources Fixture.bad sys in
  hostGone (world sys) = false /\
  hostGone (world sys') = false /\
  calls sys' !! length (calls sys) = Some (@Finished Fixture.kernel) /\
  process_exit (world sys') = process_exit (world sys).
Proof.
  intros sys sys'. split; [reflexivity|].
  exact (@awaited_call_puts_exit_back Fixture.kernel Fixture.sources Fixture.bad sys
           eq_refl).
Defined.

(** ** The panel and the page together *)

Section TogetherProperties.
Context {K : Kernel} {F : Webview.Platform}.
Import Webview WebviewFacts.

(** X17. On a platform whose [atob] undoes the base64 encoding of
    bytes, what the renderer stored is the picture the page shows.  When
    the loop is running on a module and [renderVGAFrame] returns,
    [renderLoop] posts one message, and the listener of the page, given
    that message, returns with the canvas at the size of the display and
    holding the zeroed buffer with every store of that render applied;
    the overlay and the status line are untouched. *)
Theorem rendered_frame_is_shown (w : World) (id : nat) (m m' : HDLModuleWASM)
    (ws : list (Z * Z)) (v : View) (now : Time) :
  let size := (VGA_WIDTH * VGA_HEIGHT * 4)%nat in
  (forall bytes, Forall isByte bytes -> atob (toBase64 bytes) = Normal bytes) ->
  (0 < VGA_WIDTH)%nat -> (0 < VGA_HEIGHT)%nat ->
  running w = true -> mod_ w = Some id -> heap w !! id = Some m ->
  renderVGAFrame m size (syncPolarity w) = (m', ws, None) ->
  wellSized v ->
  exists msg,
    posts (log (renderLoop w).1) = posts (log w) ++ [msg] /\
    let r := onMessage (wire msg) now v in
    r.2 = None /\
    put r.1 = Some {| Webview.width := VGA_WIDTH; Webview.height := VGA_HEIGHT;
                      data := stores (Uint8Array size) ws |} /\
    canvasWidth r.1 = VGA_WIDTH /\ canvasHeight r.1 = VGA_HEIGHT /\
    errorShown r.1 = errorShown v /\ statusText r.1 = statusText v /\
    wellSized r.1.
Proof.
  intros size Hlaw Hw Hh Hr Hm Hheap Hrender Hv.
  eexists. split; [exact (renderLoop_returned w id m m' ws Hr Hm Hheap Hrender)|].
  fold size. set (pixels := stores (Uint8Array size) ws).
  assert (Hbytes : Forall isByte pixels) by apply stores_bytes, Uint8Array_bytes.
  assert (Hlen : length pixels = size)
    by (subst pixels; rewrite length_stores; apply length_Uint8Array).
  cbv zeta. cbn [wire]. unfold onMessage.
  destruct (frame_prepared v VGA_WIDTH VGA_HEIGHT Hv Hw Hh)
    as (v1 & -> & (d & Hi & Hd) & Hcw & Hch & Hs & He & Hsh & Ho).
  unfold draw. rewrite (Hlaw pixels Hbytes), Hi, (bytes_mod pixels Hbytes).
  cbn [data Webview.width Webview.height].
  rewrite bool_decide_eq_false_2 by (subst size; lia).
  rewrite drop_ge by (subst size; lia). rewrite app_nil_r.
  unfold countFrame. cbn [fst snd].
  destruct (aSecondSince now _); cbn; unfold wellSized; cbn;
    repeat split; auto; subst size; lia.
Qed.

(** X18. After one call of [compileSources] awaited to its end, when
    the page has received what the call posted, the page agrees with the
    panel: the error overlay is visible exactly when the loop is not
    running, and the status line reads ["Running"] when it runs and
    ["Error"] when it does not. *)
Theorem page_mirrors_the_loop (sources : list (string * string))
    (tc : Verilator.Toolchain) (sys : System) (v : View) (clock : nat -> Time) :
  hostGone (world sys) = false ->
  let w' := world (compileSources sources tc sys) in
  let sent := drop (length (posts (log (world sys)))) (posts (log w')) in
  let v' := happenings v (deliveries clock sent) in
  errorShown v' = negb (running w') /\
  statusText v' = (if running w' then "Running" else "Error").
Proof.
  intros Hgone w' sent v'.
  assert (H : (exists text,
                 sent = [status "Compiling..."; error text] /\ running w' = false) \/
              (exists m,
                 sent = [status "Compiling..."; status "Running"; m] /\
                 frameOrFault m /\ running w' = isFrame m)).
  { subst sent w'.
    destruct (compileSources_pipeline sources tc sys Hgone) as [-> _].
    unfold pipeline.
    destruct (pipeline_compiled sources tc (world sys)) as (res & _ & ->).
    set (w0 := set_process_exit Verilator.throwingExit
                 (push (Posted (status "Compiling...")) (set_running false (world sys)))).
    change (advance (AfterCompile 0) (w0, AwaitCompile (process_exit (world sys)) res))
      with (compileSources_afterCompile (process_exit (world sys)) res w0).
    assert (Hp0 : posts (log w0) = posts (log (world sys)) ++ [status "Compiling..."])
      by reflexivity.
    destruct (afterCompile_posts (process_exit (world sys)) res w0 eq_refl)
      as [(text & Hp & Hr)|(m & Hp & Hf & Hr)].
    - left. exists text. rewrite Hp, Hp0, <- app_assoc, drop_app_length. auto.
    - right. exists m. rewrite Hp, Hp0, <- app_assoc, drop_app_length. auto. }
  subst v'. destruct H as [(text & -> & ->)|(m & -> & Hf & ->)].
  - cbn. auto.
  - destruct m as [text|text|width height pixels]; [destruct Hf| |].
    + cbn. auto.
    + unfold deliveries, happenings. cbn [imap foldl wire isFrame negb compose].
      match goal with |- context [happen ?v0 (Receive (Frame ?a ?b ?c) ?t)] =>
        destruct (happen_notice v0 (Receive (Frame a b c) t)) as (-> & -> & _) end.
      cbn. auto.
Qed.

End TogetherProperties.

Lemma rendered_frame_witness :
  let w := world (@run Fixture.kernel (@boot Fixture.kernel) Fixture.started) in
  let v := @Webview.loaded Desk.platform 0 in
  let size := (@VGA_WIDTH Fixture.kernel * @VGA_HEIGHT Fixture.kernel * 4)%nat in
  (forall bytes, Forall isByte bytes ->
     @Webview.atob Desk.platform (@Webview.toBase64 Desk.platform bytes) = Normal bytes) /\
  (0 < @VGA_WIDTH Fixture.kernel)%nat /\ (0 < @VGA_HEIGHT Fixture.kernel)%nat /\
  running w = true /\ mod_ w = Some 0%nat /\
  @Webview.wellSized Desk.platform v /\
  exists m m' ws,
    heap w !! 0%nat = Some m /\
    @renderVGAFrame Fixture.kernel m size (syncPolarity w) = (m', ws, None) /\
    exists msg,
      posts (log (renderLoop w).1) = posts (log w) ++ [msg] /\
      let r := @Webview.onMessage Desk.platform (@Webview.wire Desk.platform msg) 16 v in
      r.2 = None /\
      Webview.put r.1
      = Some {| Webview.width := @VGA_WIDTH Fixture.kernel;
                Webview.height := @VGA_HEIGHT Fixture.kernel;
                Webview.data := stores (Uint8Array size) ws |} /\
      Webview.canvasWidth r.1 = @VGA_WIDTH Fixture.kernel /\
      Webview.canvasHeight r.1 = @VGA_HEIGHT Fixture.kernel /\
      Webview.errorShown r.1 = Webview.errorShown v /\
      Webview.statusText r.1 = Webview.statusText v /\
      @Webview.wellSized Desk.platform r.1.
Proof.
  intros w v size.
  assert (H1 : forall bytes, Forall isByte bytes ->
    @Webview.atob Desk.platform (@Webview.toBase64 Desk.platform bytes) = Normal bytes)
    by exact Base64Facts.atob_toBase64.
  assert (H2 : (0 < @VGA_WIDTH Fixture.kernel)%nat) by (cbn; lia).
  assert (H3 : (0 < @VGA_HEIGHT Fixture.kernel)%nat) by (cbn; lia).
  assert (H4 : running w = true) by (vm_compute; reflexivity).
  assert (H5 : mod_ w = Some 0%nat) by (vm_compute; reflexivity).
  assert (H6 : @Webview.wellSized Desk.platform v)
    by exact (@WebviewFacts.loaded_wellSized Desk.platform 0).
  assert (H7 : match heap w !! 0%nat with
               | Some m =>
                   match @renderVGAFrame Fixture.kernel m size (syncPolarity w) with
                   | (_, _, None) => true
                   | _ => false
                   end
               | None => false
               end = true) by (vm_compute; reflexivity).
  repeat (split; [assumption|]).
  destruct (heap w !! 0%nat) as [m|] eqn:Hh; [|discriminate].
  destruct (@renderVGAFrame Fixture.kernel m size (syncPolarity w))
    as [[m' ws] [e|]] eqn:Hrender; [discriminate|].
  exists m, m', ws. split; [reflexivity|]. split; [exact Hrender|].
  exact (@rendered_frame_is_shown Fixture.kernel Desk.platform w 0 m m' ws v 16
           H1 H2 H3 H4 H5 Hh Hrender H6).
Defined.

Lemma page_mirrors_the_loop_witness :
  let sys := @boot Fixture.kernel in
  let v := @Webview.loaded Desk.platform 0 in
  let clock := fun i : nat => 16 * Z.of_nat i in
  let w' := world (@compileSources Fixture.kernel Fixture.sources Fixture.good sys) in
  let sent := drop (length (posts (log (world sys)))) (posts (log w')) in
  let v' := @Webview.happenings Desk.platform v
              (@Webview.deliveries Desk.platform clock sent) in
  hostGone (world sys) = false /\
  Webview.errorShown v' = negb (running w') /\
  Webview.statusText v' = (if running w' then "Running" else "Error").
Proof.
  intros sys v clock w' sent v'. split; [reflexivity|].
  exact (@page_mirrors_the_loop Fixture.kernel Desk.platform Fixture.sources
           Fixture.good sys v clock eq_refl).
Defined.
